(** * RNTupleImporter: a shallow embedding of tree/ntupleutil/v7/src/RNTupleImporter.cxx

    The importer copies a TTree (branches made of leaves) into an RNTuple.
    This development embeds the translation unit function by function:
    the two [Transform] methods, both [Create] overloads, [SetupDestination],
    [ReportSchema], [ResetSchema], [PrepareSchema] and [Import], together
    with the default progress callback.

    Conventions of the embedding
    - [Int_t], [Long64_t] and [std::size_t] values are integers in [Z];
      arithmetic carried out in [std::size_t] is reduced modulo 2^64
      ([to_size_t]); the data model is LP64, so [sizeof (void * )] is 8.
    - A call has one of four outcomes ([Outcome]): it yields a value
      ([RResult] success), it returns a failed [RResult], it raises an
      [RException], or it leaves defined behaviour (a null pointer or an
      index past the end of a vector is dereferenced).
    - Memory is not modelled byte by byte.  A buffer is known by its
      origin ([Buffer]) and a branch buffer by its allocated size; the reads
      of the transformations and every interaction with the reader, the
      writer and the terminal are recorded, in order, in the ghost field
      [fTrace] of the importer.
    - The classes declared outside this translation unit (TFile, TTree,
      TLeaf, RFieldBase, RNTupleModel, the writers, RResult) appear through
      the operations the importer calls on them.  What these operations
      compute is either carried by the data (a leaf's metadata) or supplied
      by a [Collaborators] record.  Model operations (AddField, Freeze,
      MakeCollection, AddProjectedField, CaptureValueUnsafe), allocation
      and SetBranchAddress are taken to succeed. *)

From Stdlib Require Import ZArith List String Ascii Bool Lia DecimalString.
Import ListNotations.

Open Scope string_scope.
Open Scope list_scope.
Open Scope Z_scope.

Infix "+++" := String.append (at level 60, right associativity).

(** ** Results and control flow *)

Definition RError := string.

(** [RResult<T>]: a value or an error. *)
Inductive RResult (A : Type) : Type :=
| Success (a : A)
| Failure (e : RError).
Arguments Success {A} a.
Arguments Failure {A} e.

(** How a call, or a sequence of statements, ends. *)
Inductive Outcome (A : Type) : Type :=
| Ok (a : A)          (* ran to its end / returned a successful RResult *)
| Failed (e : RError) (* return R__FAIL(..) or R__FORWARD_ERROR(..) *)
| Thrown (e : RError) (* an RException leaves the function *)
| UB.                 (* undefined behaviour was reached *)
Arguments Ok {A} a.
Arguments Failed {A} e.
Arguments Thrown {A} e.
Arguments UB {A}.

Definition is_Ok {A} (o : Outcome A) : bool :=
  match o with Ok _ => true | _ => false end.

(** [r.Unwrap()]: the value, or an RException carrying the error. *)
Definition Unwrap {A} (r : RResult A) : Outcome A :=
  match r with
  | Success a => Ok a
  | Failure e => Thrown e
  end.

(** ** Integer conversions *)

Definition size_t_modulus : Z := 2 ^ 64.
Definition to_size_t (z : Z) : Z := z mod size_t_modulus.
Definition sizeof_voidp : Z := 8.

(** [std::to_string] on an [int]. *)
Definition to_string (z : Z) : string := NilZero.string_of_int (Z.to_int z).

(** ** std::map<std::string, V> as a list sorted by key *)

Module StdMap.
Section Ops.
Context {V : Type}.

Fixpoint find (k : string) (m : list (string * V)) : option V :=
  match m with
  | [] => None
  | (k', v) :: rest => if String.eqb k k' then Some v else find k rest
  end.

(** Puts [v] under [k], keeping the keys ascending; an equal key is
    overwritten. *)
Fixpoint put (k : string) (v : V) (m : list (string * V)) : list (string * V) :=
  match m with
  | [] => [(k, v)]
  | (k', v') :: rest =>
      match String.compare k k' with
      | Lt => (k, v) :: m
      | Eq => (k, v) :: rest
      | Gt => (k', v') :: put k v rest
      end
  end.

(** Writing [v] through a reference to the element under [k]. *)
Fixpoint replace (k : string) (v : V) (m : list (string * V)) : list (string * V) :=
  match m with
  | [] => []
  | (k', v') :: rest =>
      if String.eqb k k' then (k', v) :: rest else (k', v') :: replace k v rest
  end.

(** [m.emplace(k, v)]: inserts unless the key is taken; the flag tells
    whether the insertion took place. *)
Definition emplace (k : string) (v : V) (m : list (string * V))
  : list (string * V) * bool :=
  match find k m with
  | Some _ => (m, false)
  | None => (put k v m, true)
  end.

(** [m[k]]: the element under [k], default-inserted when absent. *)
Definition index (dflt : V) (k : string) (m : list (string * V))
  : V * list (string * V) :=
  match find k m with
  | Some v => (v, m)
  | None => (dflt, put k dflt m)
  end.
End Ops.
End StdMap.

(** ** The source side: leaves, branches, trees, files *)

(** The dynamic class of a leaf, as far as [IsA()] is compared. *)
Inductive LeafClass := TLeafOther | TLeafC | TLeafElement | TLeafObject.

Definition LeafClass_eqb (a b : LeafClass) : bool :=
  match a, b with
  | TLeafOther, TLeafOther | TLeafC, TLeafC
  | TLeafElement, TLeafElement | TLeafObject, TLeafObject => true
  | _, _ => false
  end.

Record TLeaf := mkTLeaf {
  leaf_IsA : LeafClass;
  leaf_GetName : string;
  leaf_GetTypeName : string;
  leaf_IsRange : bool;
  (* GetLeafCounter(countval): the counting leaf (by name) it returns, and
     the number it stores in countval *)
  leaf_LeafCount : option string;
  leaf_Countval : Z;
  leaf_GetMaximum : Z;
  leaf_GetOffset : Z
}.

Record TBranch := mkTBranch {
  branch_GetName : string;
  branch_GetClassName : string;
  branch_GetListOfLeaves : list TLeaf
}.

Definition branch_GetNleaves (b : TBranch) : Z :=
  Z.of_nat (List.length (branch_GetListOfLeaves b)).

(** Where a registered branch address points. *)
Inductive Address :=
| AddrCountVal (key : string)  (* the Int_t owned by the collection under key *)
| AddrBranchBuffer (idx : nat) (* the buffer of the idx-th import branch *)
| AddrFreed                    (* storage of the importer, released since *)
| AddrElsewhere.               (* storage the importer has nothing to do with *)

(** What becomes of an address when the importer releases its buffers. *)
Definition released (a : Address) : Address :=
  match a with
  | AddrElsewhere => AddrElsewhere
  | _ => AddrFreed
  end.

Record TTree := mkTTree {
  tree_GetName : string;
  tree_GetListOfBranches : list TBranch;
  tree_GetEntries : Z;
  (* the integer that reading entry i delivers for the branch of that name *)
  tree_CountValue : Z -> string -> Z;
  tree_ImplicitMT : bool;
  tree_BranchAddress : list (string * Address)
}.

Definition tree_SetImplicitMT (v : bool) (t : TTree) : TTree :=
  mkTTree (tree_GetName t) (tree_GetListOfBranches t) (tree_GetEntries t)
          (tree_CountValue t) v (tree_BranchAddress t).

Definition with_BranchAddress (a : list (string * Address)) (t : TTree) : TTree :=
  mkTTree (tree_GetName t) (tree_GetListOfBranches t) (tree_GetEntries t)
          (tree_CountValue t) (tree_ImplicitMT t) a.

Fixpoint set_address (name : string) (a : Address) (l : list (string * Address))
  : list (string * Address) :=
  match l with
  | [] => [(name, a)]
  | (n, a') :: rest =>
      if String.eqb n name then (n, a) :: rest else (n, a') :: set_address name a rest
  end.

(** [tree->SetBranchAddress(name, addr)] *)
Definition tree_SetBranchAddress (name : string) (a : Address) (t : TTree) : TTree :=
  with_BranchAddress (set_address name a (tree_BranchAddress t)) t.

Record TFile := mkTFile {
  file_IsZombie : bool;
  file_Keys : list string;
  file_Trees : list (string * TTree)
}.

Definition file_FindKey (name : string) (f : TFile) : bool :=
  existsb (String.eqb name) (file_Keys f).

Fixpoint file_GetTree (name : string) (l : list (string * TTree)) : option TTree :=
  match l with
  | [] => None
  | (n, t) :: rest => if String.eqb n name then Some t else file_GetTree name rest
  end.

Inductive OpenMode := READ | UPDATE.

(** ** The destination side: fields, models, entries *)

(** A field made by [RFieldBase::Create]. *)
Record RField := mkRField {
  field_GetName : string;
  field_GetType : string;
  field_GetValueSize : Z
}.

Inductive RFieldBase :=
| CreatedField (f : RField)
| RRecordField (name : string) (items : list RField).

Definition GetName (f : RFieldBase) : string :=
  match f with
  | CreatedField f => field_GetName f
  | RRecordField name _ => name
  end.

(** The importer asks for the value size of created fields only; for a record
    field the sizes of the items are added up. *)
Definition GetValueSize (f : RFieldBase) : Z :=
  match f with
  | CreatedField f => field_GetValueSize f
  | RRecordField _ items => fold_right (fun i acc => field_GetValueSize i + acc) 0 items
  end.

Definition GetType (f : RFieldBase) : string :=
  match f with
  | CreatedField f => field_GetType f
  | RRecordField _ _ => ""
  end.

(** The [void *] values the importer passes around, by origin. *)
Inductive Buffer :=
| NullBuffer
| OwnedValue (fieldIdx : nat)   (* field->GenerateValue().GetRawPtr() *)
| BranchBuffer (idx : nat)      (* ib.fBranchBuffer.get() *)
| BranchPointee (idx : nat)     (* the object pointer stored in the buffer *)
| OffsetPtr (key : string).     (* c.fCollectionWriter->GetOffsetPtr() *)

Definition Buffer_is_null (b : Buffer) : bool :=
  match b with NullBuffer => true | _ => false end.

Inductive ModelField :=
| TopField (f : RFieldBase)
| CollectionField (name : string) (sub : list RField)
| ProjectedField (f : RField) (source : string).

Record RNTupleModel := mkModel {
  model_Fields : list ModelField;
  model_Frozen : bool
}.

Definition CreateBare : RNTupleModel := mkModel [] false.
Definition model_Add (f : ModelField) (m : RNTupleModel) : RNTupleModel :=
  mkModel (model_Fields m ++ [f]) (model_Frozen m).
Definition model_Freeze (m : RNTupleModel) : RNTupleModel :=
  mkModel (model_Fields m) true.

(** An entry: the (field name, address) pairs captured so far. *)
Definition REntry := list (string * Buffer).

(** ** What the importer does to the outside, in order *)

Record RImportBranch := mkImportBranch {
  fBranchName : string;
  fBranchBufferSize : Z   (* the size fBranchBuffer was allocated with *)
}.

Inductive Event :=
| EvReportSchema (name type : string)          (* a line of ReportSchema *)
| EvOpenSink (ntupleName : string) (compression : Z)
| EvCreateWriter (model : option RNTupleModel)
| EvGetEntry (i : Z)                           (* fSourceTree->GetEntry(i) *)
| EvMemcpy (dst : Buffer) (src : RImportBranch) (offset len : Z)
| EvStringAssign (dst : Buffer) (src : RImportBranch)
| EvCollectionFill (key : string)              (* c.fCollectionWriter->Fill *)
| EvFill (offsets : list (string * Z))         (* ntplWriter->Fill( *fEntry) *)
| EvCall (nbytesWritten neventsWritten : Z)    (* fProgressCallback->Call *)
| EvFinish (nbytesWritten neventsWritten : Z)  (* fProgressCallback->Finish *)
| EvPrintWrote (megabytes entries : Z)         (* the line "Wrote .. MB, .. entries" *)
| EvPrintDone (megabytes entries : Z)          (* the line "Done, wrote .." *)
| EvCommitDataset (ntupleName : string).       (* the writer goes out of scope *)

(** ** The importer's own data *)

Record RImportField := mkImportField {
  fField : RFieldBase;
  fFieldBuffer : Buffer;
  fOwnsFieldBuffer : bool;
  fIsInUntypedCollection : bool;
  fIsClass : bool
}.

Definition with_fFieldBuffer (b : Buffer) (f : RImportField) : RImportField :=
  mkImportField (fField f) b (fOwnsFieldBuffer f) (fIsInUntypedCollection f) (fIsClass f).

Inductive RImportTransformation :=
| RCStringTransformation (fImportBranchIdx fImportFieldIdx : nat)
| RLeafArrayTransformation (fImportBranchIdx fImportFieldIdx : nat) (fNum : Z).

Definition fImportBranchIdx (t : RImportTransformation) : nat :=
  match t with
  | RCStringTransformation b _ => b
  | RLeafArrayTransformation b _ _ => b
  end.

Definition fImportFieldIdx (t : RImportTransformation) : nat :=
  match t with
  | RCStringTransformation _ f => f
  | RLeafArrayTransformation _ f _ => f
  end.

Record RImportLeafCountCollection := mkCollection {
  fCollectionModel : option (list RField); (* moved into the model by MakeCollection *)
  fCollectionWriter : option Z;            (* the writer, known by its offset counter *)
  fCollectionEntry : option REntry;
  fFieldName : string;
  fMaxLength : Z;
  fCountVal : option Z;                    (* unique_ptr<Int_t>: null, or the cell's content *)
  fImportFieldIndexes : list nat;
  fTransformations : list RImportTransformation
}.

(** A default-constructed collection, as [operator[]] inserts it. *)
Definition default_collection : RImportLeafCountCollection :=
  mkCollection None None None "" 0 None [] [].

Definition with_fCollectionModel v (c : RImportLeafCountCollection) :=
  mkCollection v (fCollectionWriter c) (fCollectionEntry c) (fFieldName c)
               (fMaxLength c) (fCountVal c) (fImportFieldIndexes c) (fTransformations c).
Definition with_fCollectionWriter v (c : RImportLeafCountCollection) :=
  mkCollection (fCollectionModel c) v (fCollectionEntry c) (fFieldName c)
               (fMaxLength c) (fCountVal c) (fImportFieldIndexes c) (fTransformations c).
Definition with_fCollectionEntry v (c : RImportLeafCountCollection) :=
  mkCollection (fCollectionModel c) (fCollectionWriter c) v (fFieldName c)
               (fMaxLength c) (fCountVal c) (fImportFieldIndexes c) (fTransformations c).
Definition with_fFieldName v (c : RImportLeafCountCollection) :=
  mkCollection (fCollectionModel c) (fCollectionWriter c) (fCollectionEntry c) v
               (fMaxLength c) (fCountVal c) (fImportFieldIndexes c) (fTransformations c).
Definition with_fCountVal v (c : RImportLeafCountCollection) :=
  mkCollection (fCollectionModel c) (fCollectionWriter c) (fCollectionEntry c) (fFieldName c)
               (fMaxLength c) v (fImportFieldIndexes c) (fTransformations c).
Definition with_fImportFieldIndexes v (c : RImportLeafCountCollection) :=
  mkCollection (fCollectionModel c) (fCollectionWriter c) (fCollectionEntry c) (fFieldName c)
               (fMaxLength c) (fCountVal c) v (fTransformations c).
Definition with_fTransformations v (c : RImportLeafCountCollection) :=
  mkCollection (fCollectionModel c) (fCollectionWriter c) (fCollectionEntry c) (fFieldName c)
               (fMaxLength c) (fCountVal c) (fImportFieldIndexes c) v.

Definition Collections := list (string * RImportLeafCountCollection).

(** The default progress callback keeps the next reporting threshold. *)
Record RDefaultProgressCallback := mkCallback { fNbytesNext : Z }.

Definition gUpdateFrequencyBytes : Z := 50 * 1000 * 1000.

Record RNTupleImporter := mkImporter {
  fNTupleName : string;
  fDestFileName : string;
  fSourceFile : option TFile;
  fSourceTree : option TTree;
  fDestFile : option TFile;
  fWriteOptions : Z;                  (* the compression setting *)
  fModel : option RNTupleModel;
  fEntry : option REntry;
  fImportBranches : list RImportBranch;
  fImportFields : list RImportField;
  fLeafCountCollections : Collections;
  fImportTransformations : list RImportTransformation;
  fIsQuiet : bool;
  fMaxEntries : Z;
  fProgressCallback : option RDefaultProgressCallback;
  fTrace : list Event                 (* ghost: the interactions so far *)
}.

(** [new RNTupleImporter()] *)
Definition new_RNTupleImporter : RNTupleImporter :=
  mkImporter "" "" None None None 0 None None [] [] [] [] false (-1) None [].

(** What the translation unit takes from its collaborators. *)
Record Collaborators := mkCollaborators {
  RFieldBase_Create : string -> string -> RResult RField;
  TClass_GetClass : string -> bool;   (* whether a TClass is found *)
  TFile_Open : string -> OpenMode -> option TFile;
  kDefaultCompressionSettings : Z;
  (* the counter RPageSinkFile.szWritePayload after the given interactions *)
  szWritePayload : list Event -> Z;
  (* RResult is declared in ROOT/RError.hxx: whether letting go of a failed
     RResult that nobody inspected raises an RException is decided there *)
  unchecked_failure_throws : bool
}.

(** Field updates of the importer. *)
Definition with_fNTupleName v (s : RNTupleImporter) : RNTupleImporter :=
  mkImporter v (fDestFileName s) (fSourceFile s) (fSourceTree s) (fDestFile s)
    (fWriteOptions s) (fModel s) (fEntry s) (fImportBranches s) (fImportFields s)
    (fLeafCountCollections s) (fImportTransformations s) (fIsQuiet s) (fMaxEntries s)
    (fProgressCallback s) (fTrace s).

Definition with_fDestFileName v (s : RNTupleImporter) : RNTupleImporter :=
  mkImporter (fNTupleName s) v (fSourceFile s) (fSourceTree s) (fDestFile s)
    (fWriteOptions s) (fModel s) (fEntry s) (fImportBranches s) (fImportFields s)
    (fLeafCountCollections s) (fImportTransformations s) (fIsQuiet s) (fMaxEntries s)
    (fProgressCallback s) (fTrace s).

Definition with_fSourceFile v (s : RNTupleImporter) : RNTupleImporter :=
  mkImporter (fNTupleName s) (fDestFileName s) v (fSourceTree s) (fDestFile s)
    (fWriteOptions s) (fModel s) (fEntry s) (fImportBranches s) (fImportFields s)
    (fLeafCountCollections s) (fImportTransformations s) (fIsQuiet s) (fMaxEntries s)
    (fProgressCallback s) (fTrace s).

Definition with_fSourceTree v (s : RNTupleImporter) : RNTupleImporter :=
  mkImporter (fNTupleName s) (fDestFileName s) (fSourceFile s) v (fDestFile s)
    (fWriteOptions s) (fModel s) (fEntry s) (fImportBranches s) (fImportFields s)
    (fLeafCountCollections s) (fImportTransformations s) (fIsQuiet s) (fMaxEntries s)
    (fProgressCallback s) (fTrace s).

Definition with_fDestFile v (s : RNTupleImporter) : RNTupleImporter :=
  mkImporter (fNTupleName s) (fDestFileName s) (fSourceFile s) (fSourceTree s) v
    (fWriteOptions s) (fModel s) (fEntry s) (fImportBranches s) (fImportFields s)
    (fLeafCountCollections s) (fImportTransformations s) (fIsQuiet s) (fMaxEntries s)
    (fProgressCallback s) (fTrace s).

Definition with_fWriteOptions v (s : RNTupleImporter) : RNTupleImporter :=
  mkImporter (fNTupleName s) (fDestFileName s) (fSourceFile s) (fSourceTree s)
    (fDestFile s) v (fModel s) (fEntry s) (fImportBranches s) (fImportFields s)
    (fLeafCountCollections s) (fImportTransformations s) (fIsQuiet s) (fMaxEntries s)
    (fProgressCallback s) (fTrace s).

Definition with_fModel v (s : RNTupleImporter) : RNTupleImporter :=
  mkImporter (fNTupleName s) (fDestFileName s) (fSourceFile s) (fSourceTree s)
    (fDestFile s) (fWriteOptions s) v (fEntry s) (fImportBranches s) (fImportFields s)
    (fLeafCountCollections s) (fImportTransformations s) (fIsQuiet s) (fMaxEntries s)
    (fProgressCallback s) (fTrace s).

Definition with_fEntry v (s : RNTupleImporter) : RNTupleImporter :=
  mkImporter (fNTupleName s) (fDestFileName s) (fSourceFile s) (fSourceTree s)
    (fDestFile s) (fWriteOptions s) (fModel s) v (fImportBranches s) (fImportFields s)
    (fLeafCountCollections s) (fImportTransformations s) (fIsQuiet s) (fMaxEntries s)
    (fProgressCallback s) (fTrace s).

Definition with_fImportBranches v (s : RNTupleImporter) : RNTupleImporter :=
  mkImporter (fNTupleName s) (fDestFileName s) (fSourceFile s) (fSourceTree s)
    (fDestFile s) (fWriteOptions s) (fModel s) (fEntry s) v (fImportFields s)
    (fLeafCountCollections s) (fImportTransformations s) (fIsQuiet s) (fMaxEntries s)
    (fProgressCallback s) (fTrace s).

Definition with_fImportFields v (s : RNTupleImporter) : RNTupleImporter :=
  mkImporter (fNTupleName s) (fDestFileName s) (fSourceFile s) (fSourceTree s)
    (fDestFile s) (fWriteOptions s) (fModel s) (fEntry s) (fImportBranches s) v
    (fLeafCountCollections s) (fImportTransformations s) (fIsQuiet s) (fMaxEntries s)
    (fProgressCallback s) (fTrace s).

Definition with_fLeafCountCollections v (s : RNTupleImporter) : RNTupleImporter :=
  mkImporter (fNTupleName s) (fDestFileName s) (fSourceFile s) (fSourceTree s)
    (fDestFile s) (fWriteOptions s) (fModel s) (fEntry s) (fImportBranches s)
    (fImportFields s) v (fImportTransformations s) (fIsQuiet s) (fMaxEntries s)
    (fProgressCallback s) (fTrace s).

Definition with_fImportTransformations v (s : RNTupleImporter) : RNTupleImporter :=
  mkImporter (fNTupleName s) (fDestFileName s) (fSourceFile s) (fSourceTree s)
    (fDestFile s) (fWriteOptions s) (fModel s) (fEntry s) (fImportBranches s)
    (fImportFields s) (fLeafCountCollections s) v (fIsQuiet s) (fMaxEntries s)
    (fProgressCallback s) (fTrace s).

Definition with_fIsQuiet v (s : RNTupleImporter) : RNTupleImporter :=
  mkImporter (fNTupleName s) (fDestFileName s) (fSourceFile s) (fSourceTree s)
    (fDestFile s) (fWriteOptions s) (fModel s) (fEntry s) (fImportBranches s)
    (fImportFields s) (fLeafCountCollections s) (fImportTransformations s) v
    (fMaxEntries s) (fProgressCallback s) (fTrace s).

Definition with_fMaxEntries v (s : RNTupleImporter) : RNTupleImporter :=
  mkImporter (fNTupleName s) (fDestFileName s) (fSourceFile s) (fSourceTree s)
    (fDestFile s) (fWriteOptions s) (fModel s) (fEntry s) (fImportBranches s)
    (fImportFields s) (fLeafCountCollections s) (fImportTransformations s) (fIsQuiet s)
    v (fProgressCallback s) (fTrace s).

Definition with_fProgressCallback v (s : RNTupleImporter) : RNTupleImporter :=
  mkImporter (fNTupleName s) (fDestFileName s) (fSourceFile s) (fSourceTree s)
    (fDestFile s) (fWriteOptions s) (fModel s) (fEntry s) (fImportBranches s)
    (fImportFields s) (fLeafCountCollections s) (fImportTransformations s) (fIsQuiet s)
    (fMaxEntries s) v (fTrace s).

Definition with_fTrace v (s : RNTupleImporter) : RNTupleImporter :=
  mkImporter (fNTupleName s) (fDestFileName s) (fSourceFile s) (fSourceTree s)
    (fDestFile s) (fWriteOptions s) (fModel s) (fEntry s) (fImportBranches s)
    (fImportFields s) (fLeafCountCollections s) (fImportTransformations s) (fIsQuiet s)
    (fMaxEntries s) (fProgressCallback s) v.

(** ** Statements over the importer *)

Definition M (A : Type) : Type := RNTupleImporter -> Outcome A * RNTupleImporter.

Definition ret {A} (a : A) : M A := fun s => (Ok a, s).

Definition bind {A B} (m : M A) (k : A -> M B) : M B := fun s =>
  match m s with
  | (Ok a, s') => k a s'
  | (Failed e, s') => (Failed e, s')
  | (Thrown e, s') => (Thrown e, s')
  | (UB, s') => (UB, s')
  end.

Notation "x <- m ;; k" := (bind m (fun x => k))
  (at level 61, m at next level, right associativity).
Notation "m ;;; k" := (bind m (fun _ => k))
  (at level 61, right associativity).

Definition stop {A} (o : Outcome A) : M A := fun s => (o, s).
Definition modify (f : RNTupleImporter -> RNTupleImporter) : M unit :=
  fun s => (Ok tt, f s).
Definition emit (evs : list Event) : M unit :=
  modify (fun s => with_fTrace (fTrace s ++ evs) s).

(** Dereferencing a [unique_ptr] or a raw pointer that may be null. *)
Definition deref {A} (p : option A) : M A := fun s =>
  match p with
  | Some a => (Ok a, s)
  | None => (UB, s)
  end.

(** [for (auto x : xs) body(x)], the body seeing the loop-carried value. *)
Fixpoint for_each {A B} (body : A -> B -> M B) (xs : list A) (acc : B) : M B :=
  match xs with
  | [] => ret acc
  | x :: rest => acc' <- body x acc ;; for_each body rest acc'
  end.

(** ** RDefaultProgressCallback *)

Definition Call (cb : RDefaultProgressCallback) (nbytesWritten neventsWritten : Z)
  : RDefaultProgressCallback * list Event :=
  if nbytesWritten <? fNbytesNext cb then (cb, [])
  else (mkCallback (to_size_t (fNbytesNext cb + gUpdateFrequencyBytes)),
        [EvPrintWrote (nbytesWritten / 1000 / 1000) neventsWritten]).

Definition Finish (nbytesWritten neventsWritten : Z) : list Event :=
  [EvPrintDone (nbytesWritten / 1000 / 1000) neventsWritten].

(** ** The transformations *)

(** Both [Transform] methods read the branch buffer and write through
    [field.fFieldBuffer]; a null destination is undefined behaviour.  The
    element transformation copies [valueSize] bytes found [fNum * valueSize]
    bytes into the branch buffer and advances [fNum]. *)
Definition Transform (t : RImportTransformation) (branch : RImportBranch)
  (field : RImportField) : Outcome unit * RImportTransformation * list Event :=
  if Buffer_is_null (fFieldBuffer field) then (UB, t, []) else
  match t with
  | RCStringTransformation b f =>
      (Ok tt, t, [EvStringAssign (fFieldBuffer field) branch])
  | RLeafArrayTransformation b f fNum =>
      let valueSize := GetValueSize (fField field) in
      (Ok tt, RLeafArrayTransformation b f (fNum + 1),
       [EvMemcpy (fFieldBuffer field) branch
                 (to_size_t (to_size_t fNum * valueSize)) valueSize])
  end.

(** Modelled from the spec: [ResetEntry] is defined in RNTupleImporter.hxx,
    which is not among the sources.  The element counter of an array
    transformation is set back; for a string transformation nothing is to be
    done. *)
Definition ResetEntry (t : RImportTransformation) : RImportTransformation :=
  match t with
  | RCStringTransformation b f => t
  | RLeafArrayTransformation b f _ => RLeafArrayTransformation b f 0
  end.

(** ** Classification of a branch by its first leaf (PrepareSchema, lines 161-172) *)

Definition isLeafList (b : TBranch) : bool := 1 <? branch_GetNleaves b.
Definition isCountLeaf (firstLeaf : TLeaf) : bool := leaf_IsRange firstLeaf.
Definition isClass (firstLeaf : TLeaf) : bool :=
  LeafClass_eqb (leaf_IsA firstLeaf) TLeafElement.

Definition has_LeafCounter (l : TLeaf) : bool :=
  match leaf_LeafCount l with Some _ => true | None => false end.

Definition isCString (b : TBranch) (firstLeaf : TLeaf) : bool :=
  negb (isLeafList b) && LeafClass_eqb (leaf_IsA firstLeaf) TLeafC &&
  negb (has_LeafCounter firstLeaf) && (leaf_Countval firstLeaf =? 1).

(** ** Name, type and buffer size derived for a leaf (lines 197-242) *)

Definition isLeafCountArray (l : TLeaf) : bool := has_LeafCounter l.
Definition isFixedSizeArray (l : TLeaf) : bool :=
  negb (has_LeafCounter l) && (1 <? leaf_Countval l).

Definition fieldName (b : TBranch) (l : TLeaf) : string :=
  if isLeafList b then leaf_GetName l else branch_GetName b.

Definition fieldType (b : TBranch) (firstLeaf l : TLeaf) : string :=
  let t0 := leaf_GetTypeName l in
  let t1 := if isCString b firstLeaf then "std::string" else t0 in
  let t2 := if isClass firstLeaf then branch_GetClassName b else t1 in
  if isFixedSizeArray l
  then "std::array<" +++ t2 +++ "," +++ to_string (leaf_Countval l) +++ ">"
  else t2.

(** The value assigned to [branchBufferSize] for leaf [l]; [maxLength] is
    [fLeafCountCollections[countleaf->GetName()].fMaxLength], looked at in
    the third case only. *)
Definition leafBufferSize (b : TBranch) (firstLeaf l : TLeaf) (field : RField)
  (maxLength : Z) : Z :=
  if isCString b firstLeaf then to_size_t (leaf_GetMaximum l)
  else if isClass firstLeaf then to_size_t (sizeof_voidp * to_size_t (leaf_Countval l))
  else if isLeafCountArray l
       then to_size_t (to_size_t maxLength * field_GetValueSize field)
  else to_size_t (to_size_t (leaf_GetOffset l) + field_GetValueSize field).

Section Importer.
Variable env : Collaborators.

(** A statement [f();] whose [RResult] is dropped without having been
    looked at. *)
Definition discard {A} (m : M A) : M unit := fun s =>
  match m s with
  | (Ok _, s') => (Ok tt, s')
  | (Failed e, s') =>
      if unchecked_failure_throws env then (Thrown e, s') else (Ok tt, s')
  | (Thrown e, s') => (Thrown e, s')
  | (UB, s') => (UB, s')
  end.

(** [fSourceTree->SetBranchAddress(name, addr)] *)
Definition SetBranchAddress (name : string) (a : Address) : M unit :=
  t <- (fun s => deref (fSourceTree s) s) ;;
  modify (with_fSourceTree (Some (tree_SetBranchAddress name a t))).

(** [fModel->AddField(..)], [MakeCollection], [AddProjectedField] *)
Definition AddToModel (f : ModelField) : M unit :=
  m <- (fun s => deref (fModel s) s) ;;
  modify (with_fModel (Some (model_Add f m))).

(** *** ReportSchema (lines 132-137) *)
Definition ReportSchema : M unit := fun s =>
  emit (map (fun f => EvReportSchema (GetName (fField f)) (GetType (fField f)))
            (fImportFields s)) s.

(** *** ResetSchema (lines 139-147)
    Clearing the vectors and the map releases the branch buffers and the
    count cells, while the tree keeps the addresses it was given. *)
Definition ResetSchema : M unit :=
  modify (fun s =>
    let s := with_fImportBranches [] s in
    let s := with_fImportFields [] s in
    let s := with_fLeafCountCollections [] s in
    let s := with_fImportTransformations [] s in
    let s := with_fModel (Some CreateBare) s in
    let s := with_fEntry None s in
    with_fSourceTree
      (option_map (fun t => with_BranchAddress
                              (map (fun na => (fst na, released (snd na))) (tree_BranchAddress t)) t)
                  (fSourceTree s)) s).

(** *** PrepareSchema, a count leaf (lines 174-187)
    The cell [c.fCountVal] is registered with the tree under the branch
    name.  When the key is already taken the map is left alone and the cell
    dies with [c] at the end of the iteration. *)
Definition prepare_count_leaf (b : TBranch) (firstLeaf : TLeaf) : M unit := fun s =>
  let c := mkCollection (Some []) None None "" (leaf_GetMaximum firstLeaf)
                        (Some 0) [] [] in
  let (m, inserted) := StdMap.emplace (leaf_GetName firstLeaf) c (fLeafCountCollections s) in
  (SetBranchAddress (branch_GetName b)
     (if inserted then AddrCountVal (leaf_GetName firstLeaf) else AddrFreed) ;;;
   modify (with_fLeafCountCollections m)) s.

(** *** PrepareSchema, one leaf of a branch (lines 192-261)
    The loop carries [branchBufferSize] and [recordItems]. *)
Definition prepare_leaf (b : TBranch) (firstLeaf : TLeaf) (l : TLeaf)
  (acc : Z * list RField) : M (Z * list RField) := fun s =>
  if LeafClass_eqb (leaf_IsA l) TLeafObject
  then (Failed ("unsupported: TObject branches, branch: " +++ branch_GetName b), s)
  else
  match RFieldBase_Create env (fieldName b l) (fieldType b firstLeaf l) with
  | Failure e => (Failed e, s)
  | Success field =>
    let branchIdx := List.length (fImportBranches s) in
    let fieldIdx := List.length (fImportFields s) in
    (* lines 226-242 *)
    let s1 :=
      if isCString b firstLeaf
      then with_fImportTransformations
             (fImportTransformations s ++ [RCStringTransformation branchIdx fieldIdx]) s
      else s in
    let '(maxLength, s2) :=
      match leaf_LeafCount l with
      | Some countleafName =>
          if negb (isCString b firstLeaf) && negb (isClass firstLeaf)
          then let (c, m) := StdMap.index default_collection countleafName
                                          (fLeafCountCollections s1) in
               (fMaxLength c, with_fLeafCountCollections m s1)
          else (0, s1)
      | None => (0, s1)
      end in
    let branchBufferSize := leafBufferSize b firstLeaf l field maxLength in
    let f := mkImportField (CreatedField field)
               (if isCString b firstLeaf then OwnedValue fieldIdx else NullBuffer)
               (isCString b firstLeaf) false (isClass firstLeaf) in
    (* lines 245-260 *)
    if isLeafList b then (Ok (branchBufferSize, snd acc ++ [field]), s2)
    else
      match leaf_LeafCount l with
      | Some countleafName =>
          let f' := mkImportField (CreatedField field) (OwnedValue fieldIdx) true true
                                  (isClass firstLeaf) in
          let (c, m) := StdMap.index default_collection countleafName
                                     (fLeafCountCollections s2) in
          match fCollectionModel c with
          | None => (UB, with_fLeafCountCollections m s2)
          | Some sub =>
              let c' :=
                with_fTransformations
                  (fTransformations c ++ [RLeafArrayTransformation branchIdx fieldIdx 0])
                  (with_fImportFieldIndexes (fImportFieldIndexes c ++ [fieldIdx])
                     (with_fCollectionModel (Some (sub ++ [field])) c)) in
              (Ok (branchBufferSize, snd acc),
               with_fImportFields (fImportFields s2 ++ [f'])
                 (with_fLeafCountCollections (StdMap.replace countleafName c' m) s2))
          end
      | None =>
          (AddToModel (TopField (CreatedField field)) ;;;
           modify (fun s => with_fImportFields (fImportFields s ++ [f]) s) ;;;
           ret (branchBufferSize, snd acc)) s2
      end
  end.

(** *** PrepareSchema, one branch (lines 156-292) *)
Definition prepare_branch (b : TBranch) : M unit :=
  match branch_GetListOfLeaves b with
  | [] => stop UB (* assert(firstLeaf) *)
  | firstLeaf :: _ =>
    if isLeafList b && isClass firstLeaf
    then stop (Failed ("unsupported: classes in leaf list, branch " +++ branch_GetName b))
    else if isLeafList b && isCountLeaf firstLeaf
    then stop (Failed ("unsupported: count leaf arrays in leaf list, branch "
                       +++ branch_GetName b))
    else if isCountLeaf firstLeaf then prepare_count_leaf b firstLeaf
    else
      acc <- for_each (prepare_leaf b firstLeaf) (branch_GetListOfLeaves b) (0, []) ;;
      let branchBufferSize := fst acc in
      let recordItems := snd acc in
      (match recordItems with
       | [] => ret tt
       | _ :: _ =>
           let recordField := RRecordField (branch_GetName b) recordItems in
           modify (fun s => with_fImportFields
                              (fImportFields s ++
                               [mkImportField recordField NullBuffer false false false]) s) ;;;
           AddToModel (TopField recordField)
       end) ;;;
      idx <- (fun s => (Ok (List.length (fImportBranches s)), s)) ;;
      let ib := mkImportBranch (branch_GetName b) branchBufferSize in
      (if isClass firstLeaf
       then if TClass_GetClass env (branch_GetClassName b)
            then SetBranchAddress (branch_GetName b) (AddrBranchBuffer idx)
            else stop (Failed ("unable to load class " +++ branch_GetClassName b
                               +++ " for branch " +++ branch_GetName b))
       else SetBranchAddress (branch_GetName b) (AddrBranchBuffer idx)) ;;;
      (* lines 285-289: fImportFields.back() *)
      (fun s =>
         match rev (fImportFields s) with
         | [] => (UB, s)
         | back :: front =>
             if Buffer_is_null (fFieldBuffer back)
             then (Ok tt,
                   with_fImportFields
                     (rev front ++
                      [with_fFieldBuffer
                         (if isClass firstLeaf then BranchPointee idx else BranchBuffer idx)
                         back]) s)
             else (Ok tt, s)
         end) ;;;
      modify (fun s => with_fImportBranches (fImportBranches s ++ [ib]) s)
  end.

(** *** PrepareSchema, the collections (lines 294-326)
    One collection [c] stored under [countLeafName]; [i] is
    [iLeafCountCollection].  The statement works on the model and hands
    back the collection as it leaves the iteration. *)
Definition capture_fields (idxs : list nat) : M REntry :=
  for_each (fun idx (e : REntry) s =>
              match nth_error (fImportFields s) idx with
              | None => (UB, s)
              | Some f => (Ok (e ++ [(GetName (fField f), fFieldBuffer f)]), s)
              end) idxs [].

Definition add_projected_fields (fieldName : string) (idxs : list nat) : M unit :=
  for_each (fun idx (_ : unit) s =>
              match nth_error (fImportFields s) idx with
              | None => (UB, s)
              | Some f =>
                  let name := GetName (fField f) in
                  (projectedField <-
                     stop (Unwrap (RFieldBase_Create env name
                                     ("ROOT::RVec<" +++ GetType (fField f) +++ ">"))) ;;
                   AddToModel (ProjectedField projectedField fieldName)) s
              end) idxs tt.

(** Lines 300-308: the collection [c] hands its model over to the model
    of the importer and gets its entry, its name and its writer. *)
Definition open_collection (i : Z) (c : RImportLeafCountCollection)
  : M RImportLeafCountCollection :=
  sub <- deref (fCollectionModel c) ;;                     (* Freeze() *)
  entry <- capture_fields (fImportFieldIndexes c) ;;
  let c := with_fCollectionEntry (Some entry) c in
  let c := with_fFieldName ("_collection" +++ to_string i) c in
  AddToModel (CollectionField (fFieldName c) sub) ;;;      (* MakeCollection *)
  ret (with_fCollectionWriter (Some 0) (with_fCollectionModel None c)).

(** Lines 309-324: the projected fields of the arrays and of the count
    leaf.  The collection itself is not touched any more. *)
Definition project_collection (countLeafName : string) (c : RImportLeafCountCollection)
  : M unit :=
  add_projected_fields (fFieldName c) (fImportFieldIndexes c) ;;;
  projectedField <-
    stop (Unwrap (RFieldBase_Create env countLeafName
                    "ROOT::Experimental::RNTupleCardinality")) ;;
  AddToModel (ProjectedField projectedField (fFieldName c)).

(** One iteration that runs to its end, and the collection it leaves. *)
Definition finish_collection (countLeafName : string) (i : Z)
  (c : RImportLeafCountCollection) : M RImportLeafCountCollection :=
  c' <- open_collection i c ;;
  project_collection countLeafName c' ;;;
  ret c'.

(** The outcome of a statement that has not run to its end. *)
Definition left_early {A} (o : Outcome A) : Outcome unit :=
  match o with
  | Ok _ => Ok tt
  | Failed e => Failed e
  | Thrown e => Thrown e
  | UB => UB
  end.

(** The loop over the map: [done] holds the collections already visited,
    in reverse.  The collections are changed in place ([auto &c =
    p.second]): when the loop is left early, the map holds the
    collections visited as they have been left, the current one as
    lines 300-308 have left it when the projected fields raise, and the
    others as they were.  Lines 300-308 themselves are left early by
    undefined behaviour only (a null model, an index out of range). *)
Fixpoint finish_collections (done todo : Collections) (i : Z) : M unit :=
  match todo with
  | [] => modify (with_fLeafCountCollections (rev done))
  | (countLeafName, c) :: rest => fun s =>
      match open_collection i c s with
      | (Ok c', s1) =>
          match project_collection countLeafName c' s1 with
          | (Ok _, s2) => finish_collections ((countLeafName, c') :: done) rest (i + 1) s2
          | (o, s2) =>
              (o, with_fLeafCountCollections (rev done ++ (countLeafName, c') :: rest) s2)
          end
      | (o, s1) =>
          (left_early o,
           with_fLeafCountCollections (rev done ++ (countLeafName, c) :: rest) s1)
      end
  end.

(** The top-level entry (lines 328-337). *)
Definition capture_entry (fields : list RImportField) (cs : Collections) : REntry :=
  map (fun f => (GetName (fField f), fFieldBuffer f))
      (filter (fun f => negb (fIsInUntypedCollection f)) fields)
  ++ map (fun kc => (fFieldName (snd kc), OffsetPtr (fst kc))) cs.

(** *** PrepareSchema (lines 149-343) *)
Definition PrepareSchema : M unit :=
  ResetSchema ;;;
  tree <- (fun s => deref (fSourceTree s) s) ;;
  for_each (fun b (_ : unit) => prepare_branch b) (tree_GetListOfBranches tree) tt ;;;
  (fun s => finish_collections [] (fLeafCountCollections s) 0 s) ;;;
  m <- (fun s => deref (fModel s) s) ;;
  modify (with_fModel (Some (model_Freeze m))) ;;;
  modify (fun s => with_fEntry
                     (Some (capture_entry (fImportFields s) (fLeafCountCollections s))) s) ;;;
  (fun s => if fIsQuiet s then (Ok tt, s) else ReportSchema s).

(** ** The import loop (lines 367-394) *)

(** [for (auto &t : c.fTransformations) { Transform; if (!result) return .. }] *)
Fixpoint run_transformations (branches : list RImportBranch) (fields : list RImportField)
  (ts : list RImportTransformation)
  : Outcome unit * list RImportTransformation * list Event :=
  match ts with
  | [] => (Ok tt, [], [])
  | t :: rest =>
      match nth_error branches (fImportBranchIdx t), nth_error fields (fImportFieldIdx t) with
      | Some branch, Some field =>
          match Transform t branch field with
          | (Ok _, t', ev) =>
              let '(o, rest', ev') := run_transformations branches fields rest in
              (o, t' :: rest', ev ++ ev')
          | (o, t', ev) => (o, t' :: rest, ev)
          end
      | _, _ => (UB, ts, [])
      end
  end.

(** [n] more rounds of the loop over [l]: every transformation once, then
    one record of the collection is filled. *)
Fixpoint fill_elements (branches : list RImportBranch) (fields : list RImportField)
  (key : string) (n : nat) (c : RImportLeafCountCollection)
  : Outcome unit * RImportLeafCountCollection * list Event :=
  match n with
  | O => (Ok tt, c, [])
  | S n' =>
      match run_transformations branches fields (fTransformations c) with
      | (Ok _, ts, ev) =>
          let c1 := with_fTransformations ts c in
          match fCollectionWriter c1, fCollectionEntry c1 with
          | Some offset, Some _ =>
              let c2 := with_fCollectionWriter (Some (offset + 1)) c1 in
              let '(o, c3, ev') := fill_elements branches fields key n' c2 in
              (o, c3, ev ++ EvCollectionFill key :: ev')
          | _, _ => (UB, c1, ev)
          end
      | (o, ts, ev) => (o, with_fTransformations ts c, ev)
      end
  end.

(** One collection for the current entry (lines 371-380). *)
Definition import_collection (branches : list RImportBranch) (fields : list RImportField)
  (key : string) (c : RImportLeafCountCollection)
  : Outcome unit * RImportLeafCountCollection * list Event :=
  match fCountVal c with
  | None => (UB, c, [])
  | Some countVal =>
      match fill_elements branches fields key (Z.to_nat countVal) c with
      | (Ok _, c', ev) =>
          (Ok tt, with_fTransformations (map ResetEntry (fTransformations c')) c', ev)
      | r => r
      end
  end.

(** All collections, in the order of the map (lines 370-381). *)
Fixpoint import_collections (branches : list RImportBranch) (fields : list RImportField)
  (cs : Collections) : Outcome unit * Collections * list Event :=
  match cs with
  | [] => (Ok tt, [], [])
  | (key, c) :: rest =>
      match import_collection branches fields key c with
      | (Ok _, c', ev) =>
          let '(o, rest', ev') := import_collections branches fields rest in
          (o, (key, c') :: rest', ev ++ ev')
      | (o, c', ev) => (o, (key, c') :: rest, ev)
      end
  end.

(** The top-level transformations (lines 383-388). *)
Fixpoint run_import_transformations (branches : list RImportBranch)
  (fields : list RImportField) (ts : list RImportTransformation)
  : Outcome unit * list RImportTransformation * list Event :=
  match ts with
  | [] => (Ok tt, [], [])
  | t :: rest =>
      match nth_error branches (fImportBranchIdx t), nth_error fields (fImportFieldIdx t) with
      | Some branch, Some field =>
          match Transform t branch field with
          | (Ok _, t', ev) =>
              let '(o, rest', ev') := run_import_transformations branches fields rest in
              (o, ResetEntry t' :: rest', ev ++ ev')
          | (o, t', ev) => (o, t' :: rest, ev)
          end
      | _, _ => (UB, ts, [])
      end
  end.

(** [fSourceTree->GetEntry(i)]: every registered address receives the
    branch's data of entry [i]; a count cell then holds the count. *)
Fixpoint deliver (t : TTree) (i : Z) (addrs : list (string * Address)) (cs : Collections)
  : option Collections :=
  match addrs with
  | [] => Some cs
  | (name, AddrFreed) :: _ => None
  | (name, AddrBranchBuffer _) :: rest => deliver t i rest cs
  | (name, AddrElsewhere) :: rest => deliver t i rest cs
  | (name, AddrCountVal key) :: rest =>
      match StdMap.find key cs with
      | None => None
      | Some c =>
          deliver t i rest
            (StdMap.replace key (with_fCountVal (Some (tree_CountValue t i name)) c) cs)
      end
  end.

Definition GetEntry (i : Z) : M unit :=
  t <- (fun s => deref (fSourceTree s) s) ;;
  emit [EvGetEntry i] ;;;
  cs <- (fun s => deref (deliver t i (tree_BranchAddress t) (fLeafCountCollections s)) s) ;;
  modify (with_fLeafCountCollections cs).

(** The offsets the top-level entry points at, read when it is filled. *)
Definition captured_offsets (e : REntry) (cs : Collections) : list (string * Z) :=
  flat_map (fun nb =>
              match snd nb with
              | OffsetPtr key =>
                  match StdMap.find key cs with
                  | Some c => match fCollectionWriter c with
                              | Some offset => [(fst nb, offset)]
                              | None => []
                              end
                  | None => []
                  end
              | _ => []
              end) e.

(** Lifts a loop over a part of the importer into a statement. *)
Definition on_collections
  (f : Collections -> Outcome unit * Collections * list Event) : M unit := fun s =>
  let '(o, cs, ev) := f (fLeafCountCollections s) in
  (o, with_fTrace (fTrace s ++ ev) (with_fLeafCountCollections cs s)).

Definition on_transformations
  (f : list RImportTransformation ->
       Outcome unit * list RImportTransformation * list Event) : M unit := fun s =>
  let '(o, ts, ev) := f (fImportTransformations s) in
  (o, with_fTrace (fTrace s ++ ev) (with_fImportTransformations ts s)).

Definition report_progress (i : Z) : M unit := fun s =>
  match fProgressCallback s with
  | None => (Ok tt, s)
  | Some cb =>
      let nbytes := to_size_t (szWritePayload env (fTrace s)) in
      let (cb', ev) := Call cb nbytes (to_size_t i) in
      (Ok tt, with_fTrace (fTrace s ++ EvCall nbytes (to_size_t i) :: ev)
                (with_fProgressCallback (Some cb') s))
  end.

(** The body of the loop for entry [i]. *)
Definition import_entry (i : Z) : M unit :=
  GetEntry i ;;;
  (fun s => on_collections (import_collections (fImportBranches s) (fImportFields s)) s) ;;;
  (fun s => on_transformations
              (run_import_transformations (fImportBranches s) (fImportFields s)) s) ;;;
  entry <- (fun s => deref (fEntry s) s) ;;
  (fun s => emit [EvFill (captured_offsets entry (fLeafCountCollections s))] s) ;;;
  report_progress i.

(** [for (i = ..; i < nEntries; ++i)] with [n] iterations to go. *)
Fixpoint import_loop (n : nat) (i : Z) : M unit :=
  match n with
  | O => ret tt
  | S n' => import_entry i ;;; import_loop n' (i + 1)
  end.

(** Lines 361-365. *)
Definition entries_to_import (fMaxEntries nEntries : Z) : Z :=
  if (0 <=? fMaxEntries) && (fMaxEntries <? nEntries) then fMaxEntries else nEntries.

(** When [ntplWriter] goes out of scope the dataset is committed and the
    destination file holds a key of the ntuple's name. *)
Definition writer_destroyed : M unit :=
  (fun s => emit [EvCommitDataset (fNTupleName s)] s) ;;;
  modify (fun s =>
    with_fDestFile
      (option_map (fun f => mkTFile (file_IsZombie f) (file_Keys f ++ [fNTupleName s])
                                    (file_Trees f))
                  (fDestFile s)) s).

(** Runs [body], in whose scope the writer lives, and then the writer's
    destructor, however control leaves [body]. *)
Definition with_writer (body : M unit) : M unit := fun s =>
  match body s with
  | (UB, s') => (UB, s')
  | (o, s') => (o, snd (writer_destroyed s'))
  end.

(** Lines 357-396: what [Import] does while the writer exists. *)
Definition import_entries : M unit :=
  modify (with_fModel None) ;;;
  modify (fun s => with_fProgressCallback
                     (if fIsQuiet s then None
                      else Some (mkCallback gUpdateFrequencyBytes)) s) ;;;
  tree <- (fun s => deref (fSourceTree s) s) ;;
  nEntries <- (fun s => (Ok (entries_to_import (fMaxEntries s) (tree_GetEntries tree)), s)) ;;
  import_loop (Z.to_nat nEntries) 0 ;;;
  (fun s =>
     match fProgressCallback s with
     | None => (Ok tt, s)
     | Some _ =>
         let nbytes := to_size_t (szWritePayload env (fTrace s)) in
         emit (EvFinish nbytes (to_size_t nEntries) :: Finish nbytes (to_size_t nEntries)) s
     end).

(** *** Import (lines 345-399) *)
Definition Import : M unit :=
  dest <- (fun s => deref (fDestFile s) s) ;;
  (fun s =>
     if file_FindKey (fNTupleName s) dest
     then (Failed ("Key '" +++ fNTupleName s +++ "' already exists in file "
                   +++ fDestFileName s), s)
     else (Ok tt, s)) ;;;
  discard PrepareSchema ;;;
  (fun s => emit [EvOpenSink (fNTupleName s) (fWriteOptions s);
                  EvCreateWriter (fModel s)] s) ;;;
  with_writer import_entries.

(** ** Setting up *)

(** *** SetupDestination (lines 120-130) *)
Definition SetupDestination (destFileName : string) : M unit :=
  modify (with_fDestFileName destFileName) ;;;
  modify (with_fWriteOptions (kDefaultCompressionSettings env)) ;;;
  modify (with_fDestFile (TFile_Open env destFileName UPDATE)) ;;;
  (fun s =>
     match fDestFile s with
     | None => (Failed ("cannot open dest file " +++ fDestFileName s), s)
     | Some f =>
         if file_IsZombie f
         then (Failed ("cannot open dest file " +++ fDestFileName s), s)
         else (Ok tt, s)
     end).

(** Both [Create] overloads return the importer; the value of the
    statement sequence is the importer it has built. *)
Definition returning_importer (m : M unit) : Outcome RNTupleImporter :=
  match m new_RNTupleImporter with
  | (Ok _, importer) => Ok importer
  | (Failed e, _) => Failed e
  | (Thrown e, _) => Thrown e
  | (UB, _) => UB
  end.

(** *** Create from file names (lines 83-103) *)
Definition Create (sourceFileName treeName destFileName : string)
  : Outcome RNTupleImporter :=
  returning_importer
    (modify (with_fNTupleName treeName) ;;;
     modify (with_fSourceFile (TFile_Open env sourceFileName READ)) ;;;
     (fun s =>
        match fSourceFile s with
        | None => (Failed ("cannot open source file " +++ sourceFileName), s)
        | Some f =>
            if file_IsZombie f
            then (Failed ("cannot open source file " +++ sourceFileName), s)
            else
              match file_GetTree treeName (file_Trees f) with
              | None => (Failed ("cannot read TTree " +++ treeName +++ " from "
                                 +++ sourceFileName), s)
              | Some t => (Ok tt, with_fSourceTree (Some (tree_SetImplicitMT false t)) s)
              end
        end) ;;;
     discard (SetupDestination destFileName)).

(** *** Create from a tree (lines 105-118) *)
Definition Create_from_tree (sourceTree : TTree) (destFileName : string)
  : Outcome RNTupleImporter :=
  returning_importer
    (modify (with_fNTupleName (tree_GetName sourceTree)) ;;;
     modify (with_fSourceTree (Some (tree_SetImplicitMT false sourceTree))) ;;;
     discard (SetupDestination destFileName)).

End Importer.

(** ** Conditions under which the loop of [Import] runs without leaving
       defined behaviour *)

Definition is_some {A} (o : option A) : bool :=
  match o with Some _ => true | None => false end.

(** The branch and the field a transformation names exist, and the field has
    somewhere to write to. *)
Definition transformation_ok (branches : list RImportBranch) (fields : list RImportField)
  (t : RImportTransformation) : bool :=
  match nth_error branches (fImportBranchIdx t), nth_error fields (fImportFieldIdx t) with
  | Some _, Some f => negb (Buffer_is_null (fFieldBuffer f))
  | _, _ => false
  end.

Definition collection_ok (branches : list RImportBranch) (fields : list RImportField)
  (c : RImportLeafCountCollection) : bool :=
  is_some (fCountVal c) && is_some (fCollectionWriter c) && is_some (fCollectionEntry c)
  && forallb (transformation_ok branches fields) (fTransformations c).

(** A registered address is usable: it has not been released, and a count
    cell belongs to a collection of the map. *)
Definition address_ok (cs : Collections) (na : string * Address) : bool :=
  match snd na with
  | AddrFreed => false
  | AddrCountVal key => is_some (StdMap.find key cs)
  | AddrBranchBuffer _ => true
  | AddrElsewhere => true
  end.

(** No key occurs twice in the map. *)
Fixpoint distinct_keys {V} (m : list (string * V)) : bool :=
  match m with
  | [] => true
  | (k, _) :: rest => negb (is_some (StdMap.find k rest)) && distinct_keys rest
  end.

(** The importer can convert an entry: the tree holds usable addresses only,
    every collection has its count cell, its writer and its entry, every
    transformation finds its branch and its field, the outer entry exists,
    and the map holds each key once (as a [std::map] does).  A successful
    [PrepareSchema] establishes it ([PrepareSchema_ready]) and the conversion
    of an entry keeps it ([import_entry_ok]). *)
Definition ready (s : RNTupleImporter) : bool :=
  match fSourceTree s with
  | None => false
  | Some t => forallb (address_ok (fLeafCountCollections s)) (tree_BranchAddress t)
  end
  && forallb (fun kc => collection_ok (fImportBranches s) (fImportFields s) (snd kc))
             (fLeafCountCollections s)
  && forallb (transformation_ok (fImportBranches s) (fImportFields s))
             (fImportTransformations s)
  && is_some (fEntry s)
  && distinct_keys (fLeafCountCollections s).

(** ** Reading a trace *)

(** The entries submitted to the writer: each [EvFill] submits the entry that
    the latest [EvGetEntry] has loaded ([cur]). *)
Fixpoint submitted_from (cur : option Z) (tr : list Event) : list Z :=
  match tr with
  | [] => []
  | EvGetEntry i :: rest => submitted_from (Some i) rest
  | EvFill _ :: rest =>
      match cur with
      | Some i => i :: submitted_from cur rest
      | None => submitted_from cur rest
      end
  | _ :: rest => submitted_from cur rest
  end.

Definition submitted (tr : list Event) : list Z := submitted_from None tr.

Definition is_EvFill (e : Event) : bool :=
  match e with EvFill _ => true | _ => false end.

(** The number of entries handed to the writer. *)
Definition fills (tr : list Event) : nat := List.length (filter is_EvFill tr).

(** For every call of the progress hook: the number of entries it is told,
    next to the number of entries submitted to the writer before the call. *)
Fixpoint progress_reports (n : nat) (tr : list Event) : list (Z * nat) :=
  match tr with
  | [] => []
  | EvFill _ :: rest => progress_reports (S n) rest
  | EvCall _ nevents :: rest => (nevents, n) :: progress_reports n rest
  | _ :: rest => progress_reports n rest
  end.

(** The same for the final call of the hook. *)
Fixpoint final_reports (n : nat) (tr : list Event) : list (Z * nat) :=
  match tr with
  | [] => []
  | EvFill _ :: rest => final_reports (S n) rest
  | EvFinish _ nevents :: rest => (nevents, n) :: final_reports n rest
  | _ :: rest => final_reports n rest
  end.

(** Events of the conversion of one entry: element copies, string
    assignments and the records of the sub-collections. *)
Definition is_conversion_event (e : Event) : bool :=
  match e with
  | EvMemcpy _ _ _ _ | EvStringAssign _ _ | EvCollectionFill _ => true
  | _ => false
  end.

Definition is_progress_event (e : Event) : bool :=
  match e with
  | EvCall _ _ | EvPrintWrote _ _ => true
  | _ => false
  end.

(** Events that reach the destination. *)
Definition is_destination_event (e : Event) : bool :=
  match e with
  | EvOpenSink _ _ | EvCreateWriter _ | EvCollectionFill _ | EvFill _
  | EvCommitDataset _ => true
  | _ => false
  end.

(** A copy out of a branch buffer stays inside the buffer. *)
Definition in_bounds (e : Event) : Prop :=
  match e with
  | EvMemcpy _ src offset len => 0 <= offset /\ offset + len <= fBranchBufferSize src
  | _ => True
  end.

(** Modelled from the spec: the collection writer is not among the sources.
    The top-level entry points at the writer's running offset, and the
    projected sequence of a record has as many elements as the offset has
    advanced since the previous record. *)
Definition projected_length (before after : RImportLeafCountCollection) : option Z :=
  match fCollectionWriter before, fCollectionWriter after with
  | Some o1, Some o2 => Some (o2 - o1)
  | _, _ => None
  end.

(** The buffer size as the specification words it: a pointer per element for
    a class leaf, maximum count times element width for a leaf-counted
    array, offset plus element width otherwise, C strings included. *)
Definition spec_buffer_size (b : TBranch) (firstLeaf l : TLeaf) (field : RField)
  (maxLength : Z) : Z :=
  if isClass firstLeaf then sizeof_voidp * leaf_Countval l
  else if isLeafCountArray l then maxLength * field_GetValueSize field
  else leaf_GetOffset l + field_GetValueSize field.

(** [fLeafCountCollections[key].fMaxLength] without touching the map. *)
Definition maxLength_of (cs : Collections) (key : option string) : Z :=
  match key with
  | None => 0
  | Some k =>
      match StdMap.find k cs with
      | Some c => fMaxLength c
      | None => 0
      end
  end.

(** ** Invariants of the loop and further trace predicates *)

Definition is_fill_of (key : string) (e : Event) : bool :=
  match e with
  | EvCollectionFill k => String.eqb k key
  | _ => false
  end.

(** What the loop does to one collection, and what it emits for it. *)
Definition collection_after br fl (kc : string * RImportLeafCountCollection)
  : string * RImportLeafCountCollection :=
  (fst kc, snd (fst (import_collection br fl (fst kc) (snd kc)))).

Definition collection_events br fl (kc : string * RImportLeafCountCollection) : list Event :=
  snd (import_collection br fl (fst kc) (snd kc)).

Definition collections_ok br fl (cs : Collections) : bool :=
  forallb (fun kc => collection_ok br fl (snd kc)) cs.

(** Two maps that differ in the content of count cells only. *)
Definition same_but_cells (cs cs' : Collections) : Prop :=
  Forall2 (fun kc kc' =>
             fst kc' = fst kc /\
             snd kc' = with_fCountVal (fCountVal (snd kc')) (snd kc) /\
             (is_some (fCountVal (snd kc)) = true -> is_some (fCountVal (snd kc')) = true))
          cs cs'.

(** The fields that the loop of [Import] leaves alone. *)
Definition same_setup (s s' : RNTupleImporter) : Prop :=
  fNTupleName s' = fNTupleName s /\ fDestFileName s' = fDestFileName s /\
  fSourceFile s' = fSourceFile s /\ fSourceTree s' = fSourceTree s /\
  fDestFile s' = fDestFile s /\ fWriteOptions s' = fWriteOptions s /\
  fModel s' = fModel s /\ fEntry s' = fEntry s /\
  fImportBranches s' = fImportBranches s /\ fImportFields s' = fImportFields s /\
  fIsQuiet s' = fIsQuiet s /\ fMaxEntries s' = fMaxEntries s /\
  is_some (fProgressCallback s') = is_some (fProgressCallback s).

(** The entry indices [i, i+1, .., i+n-1]. *)
Definition entry_range (i : Z) (n : nat) : list Z :=
  map (fun k => i + Z.of_nat k) (seq 0 n).

Definition is_EvReportSchema (e : Event) : bool :=
  match e with EvReportSchema _ _ => true | _ => false end.

(** [PrepareSchema] does not touch the names, the files, the options or the
    number of entries of the tree; to the trace it adds lines of the schema
    report only. *)
Definition prep_frame (s s' : RNTupleImporter) : Prop :=
  fNTupleName s' = fNTupleName s /\ fDestFileName s' = fDestFileName s /\
  fSourceFile s' = fSourceFile s /\ fDestFile s' = fDestFile s /\
  fWriteOptions s' = fWriteOptions s /\ fIsQuiet s' = fIsQuiet s /\
  fMaxEntries s' = fMaxEntries s /\ fProgressCallback s' = fProgressCallback s /\
  option_map tree_GetEntries (fSourceTree s') = option_map tree_GetEntries (fSourceTree s) /\
  exists rep, fTrace s' = fTrace s ++ rep /\ forallb is_EvReportSchema rep = true.

(** A statement keeps the relation [R] between the importer before and
    after it, whatever its outcome. *)
Definition preserving (R : RNTupleImporter -> RNTupleImporter -> Prop) {A} (m : M A) : Prop :=
  forall s o s', m s = (o, s') -> R s s'.

Definition framed {A} (m : M A) : Prop := preserving prep_frame m.

Definition keeps_branches {A} (m : M A) : Prop :=
  preserving (fun s s' => fImportBranches s' = fImportBranches s) m.

Definition is_neutral (e : Event) : bool :=
  match e with
  | EvGetEntry _ | EvFill _ => false
  | _ => true
  end.

(** The events of [Import] after those of schema preparation, when the loop
    emits [loop] and the final report [fin]. *)
Definition import_events (s s1 : RNTupleImporter) (loop fin : list Event) : list Event :=
  EvOpenSink (fNTupleName s) (fWriteOptions s) :: EvCreateWriter (fModel s1) ::
  loop ++ fin ++ [EvCommitDataset (fNTupleName s)].



Definition is_string_transformation (t : RImportTransformation) : bool :=
  match t with RCStringTransformation _ _ => true | _ => false end.


(** No count of the map exceeds the maximum of its collection. *)
Definition counts_within_maximum (cs : Collections) : bool :=
  forallb (fun kc => match fCountVal (snd kc) with
                     | Some countVal => countVal <=? fMaxLength (snd kc)
                     | None => true
                     end) cs.

(** A transformation is in order once [n] branches have been registered:
    its branch is one of them, and its field exists and has a buffer. *)
Definition tok (n : nat) (fl : list RImportField) (t : RImportTransformation) : Prop :=
  (fImportBranchIdx t < n)%nat /\
  exists f, nth_error fl (fImportFieldIdx t) = Some f /\
            Buffer_is_null (fFieldBuffer f) = false.

(** A map that holds a default-constructed collection: [PrepareSchema]
    cannot succeed any more. *)
Definition doomed (cs : Collections) : Prop :=
  exists k c, In (k, c) cs /\ fCollectionModel c = None.

Definition addresses_ok (s : RNTupleImporter) : Prop :=
  forall t, fSourceTree s = Some t ->
            forallb (address_ok (fLeafCountCollections s)) (tree_BranchAddress t) = true.

(** What holds while the branches are visited: [n] bounds the branch indices
    of the transformations and [names] lists the count leaves seen. *)
Record schema_inv (n : nat) (names : list string) (s : RNTupleImporter) : Prop :=
  mk_schema_inv {
    inv_top : forall t, In t (fImportTransformations s) -> tok n (fImportFields s) t;
    inv_sub : forall k c t, In (k, c) (fLeafCountCollections s) ->
                            In t (fTransformations c) -> tok n (fImportFields s) t;
    inv_cell : forall k c, In (k, c) (fLeafCountCollections s) ->
                           fCollectionModel c <> None -> fCountVal c <> None;
    inv_names : forall k c, In (k, c) (fLeafCountCollections s) ->
                            fCollectionModel c <> None -> In k names;
    inv_addr : doomed (fLeafCountCollections s) \/ addresses_ok s
  }.

(** The part of the invariant that speaks of the collections alone. *)
Definition collections_inv (n : nat) (names : list string) (fl : list RImportField)
  (cs : Collections) : Prop :=
  (forall k c t, In (k, c) cs -> In t (fTransformations c) -> tok n fl t) /\
  (forall k c, In (k, c) cs -> fCollectionModel c <> None -> fCountVal c <> None) /\
  (forall k c, In (k, c) cs -> fCollectionModel c <> None -> In k names).

(** The name under which a branch registers a count leaf, if it does. *)
Definition count_leaf_names (b : TBranch) : list string :=
  match branch_GetListOfLeaves b with
  | firstLeaf :: _ => if isCountLeaf firstLeaf then [leaf_GetName firstLeaf] else []
  | [] => []
  end.

(** The tree has never been given an address by the importer. *)
Definition untouched (t : TTree) : bool :=
  forallb (fun na => match snd na with AddrElsewhere => true | _ => false end)
          (tree_BranchAddress t).

(** Everything but the model is as it was. *)
Definition only_model (s s' : RNTupleImporter) : Prop :=
  fSourceTree s' = fSourceTree s /\ fImportBranches s' = fImportBranches s /\
  fImportFields s' = fImportFields s /\
  fLeafCountCollections s' = fLeafCountCollections s /\
  fImportTransformations s' = fImportTransformations s /\
  fEntry s' = fEntry s.

(** What the last phase of preparation makes of a collection. *)
Definition finished (kc kc' : string * RImportLeafCountCollection) : Prop :=
  fst kc' = fst kc /\
  fCollectionModel (snd kc) <> None /\
  fCountVal (snd kc') = fCountVal (snd kc) /\
  fTransformations (snd kc') = fTransformations (snd kc) /\
  is_some (fCollectionWriter (snd kc')) = true /\
  is_some (fCollectionEntry (snd kc')) = true.

(** A statement after which the map still holds each key once. *)
Definition keeps_distinct {A} (m : M A) : Prop :=
  preserving (fun s s' => distinct_keys (fLeafCountCollections s) = true ->
                          distinct_keys (fLeafCountCollections s') = true) m.

(** No name occurs twice in the list. *)
Fixpoint distinct_names (l : list string) : bool :=
  match l with
  | [] => true
  | k :: rest => negb (existsb (String.eqb k) rest) && distinct_names rest
  end.

(** No two branches of the tree register a count leaf of the same name. *)
Definition count_leaves_distinct (t : TTree) : bool :=
  distinct_names (flat_map count_leaf_names (tree_GetListOfBranches t)).
(** ** Scenarios *)

Module Scenario.

(** A field factory that knows a handful of types. *)
Definition create_field (name type : string) : RResult RField :=
  if String.eqb type "Int_t" then Success (mkRField name "std::int32_t" 4)
  else if String.eqb type "Float_t" then Success (mkRField name "float" 4)
  else if String.eqb type "std::string" then Success (mkRField name "std::string" 32)
  else if String.prefix "ROOT::RVec<" type then Success (mkRField name type 24)
  else if String.eqb type "ROOT::Experimental::RNTupleCardinality"
       then Success (mkRField name type 8)
  else Failure ("unknown type " +++ type).

(** Every entry submitted flushes 60 MB. *)
Definition payload (tr : list Event) : Z := 60000000 * Z.of_nat (fills tr).

Definition leaf_n : TLeaf := mkTLeaf TLeafOther "n" "Int_t" true None 1 2 0.
Definition leaf_a : TLeaf := mkTLeaf TLeafOther "a" "Float_t" false (Some "n") 1 0 0.
Definition leaf_s : TLeaf := mkTLeaf TLeafC "s" "Char_t" false None 1 10 0.
Definition branch_s : TBranch := mkTBranch "s" "" [leaf_s].

(** A count leaf [n] with values 0, 1, 2, an array [a] counted by [n],
    and a C string [s]. *)
Definition tree : TTree :=
  mkTTree "tree" [mkTBranch "n" "" [leaf_n]; mkTBranch "a" "" [leaf_a]; branch_s]
          3 (fun i _ => i) true [].

(** "out.root" can be opened for update, with the keys given; "in.root"
    can be read and holds the tree; nothing else can be opened. *)
Definition open_file (keys : list string) (name : string) (mode : OpenMode)
  : option TFile :=
  match mode with
  | UPDATE => if String.eqb name "out.root" then Some (mkTFile false keys []) else None
  | READ => if String.eqb name "in.root"
            then Some (mkTFile false ["tree"] [("tree", tree)]) else None
  end.

Definition env (keys : list string) (throws : bool) : Collaborators :=
  mkCollaborators create_field (fun _ => true) (open_file keys) 505 payload throws.

(** The same branches, but every entry counts one element more, so that
    entry 2 counts three, above the maximum of the count leaf. *)
Definition tree_overrun : TTree :=
  mkTTree "tree" [mkTBranch "n" "" [leaf_n]; mkTBranch "a" "" [leaf_a]; branch_s]
          3 (fun i _ => i + 1) true [].

(** A branch with two leaves, the first one of class type. *)
Definition tree_class_in_leaf_list : TTree :=
  mkTTree "tree"
          [mkTBranch "x" "" [mkTLeaf TLeafOther "x" "Float_t" false None 1 0 0];
           mkTBranch "ev" "Event"
             [mkTLeaf TLeafElement "obj" "Event" false None 1 0 0;
              mkTLeaf TLeafOther "id" "Int_t" false None 1 0 8]]
          2 (fun _ _ => 0) true [].

(** A leaf of C-string shape that counts the elements of another leaf. *)
Definition leaf_c : TLeaf := mkTLeaf TLeafC "c" "Char_t" true None 1 10 0.
Definition branch_c : TBranch := mkTBranch "c" "" [leaf_c].
Definition tree_string_counter : TTree :=
  mkTTree "tree" [branch_c] 3 (fun i _ => i) true [].

Definition importer_of (o : Outcome RNTupleImporter) : RNTupleImporter :=
  match o with
  | Ok importer => importer
  | _ => new_RNTupleImporter
  end.

Definition importer (keys : list string) (t : TTree) : RNTupleImporter :=
  importer_of (Create_from_tree (env keys true) t "out.root").

(** The importer after schema preparation. *)
Definition prepared (t : TTree) : RNTupleImporter :=
  snd (PrepareSchema (env [] true) (importer [] t)).

End Scenario.

(** ** Further notions used to state what the code does *)

(** The source file [Create] is given can be used: it opens, is no zombie
    and holds the tree.  The result is the tree, or the message of the
    failure that [Create] returns (lines 89-96). *)
Definition source_tree (env : Collaborators) (sourceFileName treeName : string)
  : RResult TTree :=
  match TFile_Open env sourceFileName READ with
  | None => Failure ("cannot open source file " +++ sourceFileName)
  | Some f =>
      if file_IsZombie f then Failure ("cannot open source file " +++ sourceFileName)
      else match file_GetTree treeName (file_Trees f) with
           | None => Failure ("cannot read TTree " +++ treeName +++ " from " +++ sourceFileName)
           | Some t => Success t
           end
  end.

(** The destination file [SetupDestination] opens can be used (line 125). *)
Definition destination_ok (env : Collaborators) (destFileName : string) : bool :=
  match TFile_Open env destFileName UPDATE with
  | Some f => negb (file_IsZombie f)
  | None => false
  end.

(** What the visit of the branches and of the collections leaves alone:
    the trace, the outer entry, the quiet flag, and whether there is a model
    and whether it is frozen. *)
Definition building (s s' : RNTupleImporter) : Prop :=
  fTrace s' = fTrace s /\ fEntry s' = fEntry s /\ fIsQuiet s' = fIsQuiet s /\
  option_map model_Frozen (fModel s') = option_map model_Frozen (fModel s).

(** The line [ReportSchema] prints for a field. *)
Definition schema_line (f : RImportField) : Event :=
  EvReportSchema (GetName (fField f)) (GetType (fField f)).

(** The importer that [PrepareSchema] leaves once both loops are through
    (lines 328-340): the model [m] is frozen, the outer entry is made, and
    the schema is reported unless the importer is quiet. *)
Definition schema_completed (m : RNTupleModel) (s : RNTupleImporter) : RNTupleImporter :=
  let s' := with_fEntry (Some (capture_entry (fImportFields s) (fLeafCountCollections s)))
                        (with_fModel (Some (model_Freeze m)) s) in
  if fIsQuiet s then s'
  else with_fTrace (fTrace s ++ map schema_line (fImportFields s)) s'.

(** What reaches the terminal or the progress hook. *)
Definition is_report (e : Event) : bool :=
  match e with
  | EvReportSchema _ _ | EvCall _ _ | EvFinish _ _ | EvPrintWrote _ _ | EvPrintDone _ _ => true
  | _ => false
  end.

(** A statement that runs to its end or leaves defined behaviour: it
    neither returns a failure nor raises. *)
Definition runs_or_undefined {A} (m : M A) : Prop :=
  forall s o s', m s = (o, s') -> is_Ok o = true \/ o = UB.

(** With no progress hook installed, a statement installs none and
    reports nothing. *)
Definition silent {A} (m : M A) : Prop :=
  preserving (fun s s' => fProgressCallback s = None ->
                          fProgressCallback s' = None /\
                          filter is_report (fTrace s') = filter is_report (fTrace s)) m.

(** The message of line 348. *)
Definition key_exists_message (s : RNTupleImporter) : string :=
  "Key '" +++ fNTupleName s +++ "' already exists in file " +++ fDestFileName s.

(** The progress hook called again and again, each time with a number of
    bytes and a number of entries; what it prints, in order. *)
Fixpoint Calls (cb : RDefaultProgressCallback) (args : list (Z * Z))
  : RDefaultProgressCallback * list Event :=
  match args with
  | [] => (cb, [])
  | (nbytesWritten, neventsWritten) :: rest =>
      let (cb1, ev1) := Call cb nbytesWritten neventsWritten in
      let (cb2, ev2) := Calls cb1 rest in
      (cb2, ev1 ++ ev2)
  end.

Definition is_Success {A} (r : RResult A) : bool :=
  match r with Success _ => true | Failure _ => false end.

(** The first leaf of the branch is a count leaf: the branch is registered
    as the counter of a collection (line 174). *)
Definition count_branch (b : TBranch) : bool :=
  match branch_GetListOfLeaves b with
  | firstLeaf :: _ => isCountLeaf firstLeaf
  | [] => false
  end.

(** What [PrepareSchema] checks of a branch: it has a leaf (line 159); a
    leaf list does not start with a class or with a count leaf (lines
    164-167); and unless the branch is a counter, none of its leaves is a
    TLeafObject (line 193), a field can be created for every leaf (line
    223), and the class of a branch of class type is found (line 275). *)
Definition supported (env : Collaborators) (b : TBranch) : bool :=
  match branch_GetListOfLeaves b with
  | [] => false
  | firstLeaf :: _ =>
      negb (isLeafList b && isClass firstLeaf) &&
      negb (isLeafList b && isCountLeaf firstLeaf) &&
      (isCountLeaf firstLeaf ||
       (forallb (fun l =>
                   negb (LeafClass_eqb (leaf_IsA l) TLeafObject) &&
                   is_Success (RFieldBase_Create env (fieldName b l)
                                                 (fieldType b firstLeaf l)))
                (branch_GetListOfLeaves b) &&
        (negb (isClass firstLeaf) || TClass_GetClass env (branch_GetClassName b))))
  end.

(** A tree whose array branch comes before the branch of its counter. *)
Definition tree_array_before_counter : TTree :=
  mkTTree "tree" [mkTBranch "a" "" [Scenario.leaf_a]; mkTBranch "n" "" [Scenario.leaf_n]]
          3 (fun i _ => i) true [].

(** A tree with two counters whose leaves have the same name. *)
Definition tree_two_counters : TTree :=
  mkTTree "tree" [mkTBranch "n" "" [Scenario.leaf_n]; mkTBranch "m" "" [Scenario.leaf_n]]
          3 (fun i _ => i) true [].

(** An element transformation set to element [k]. *)
Definition at_element (k : Z) (t : RImportTransformation) : RImportTransformation :=
  match t with
  | RLeafArrayTransformation b f _ => RLeafArrayTransformation b f k
  | RCStringTransformation _ _ => t
  end.

(** An element transformation that stands at the first element, as it is
    made (line 255) and as [ResetEntry] leaves it. *)
Definition at_first_element (t : RImportTransformation) : bool :=
  match t with
  | RLeafArrayTransformation _ _ fNum => fNum =? 0
  | RCStringTransformation _ _ => false
  end.

(** The copies made for element [j] of a collection: for each of its
    arrays, the [valueSize] bytes found [j * valueSize] bytes into the
    branch buffer go to the field's buffer (lines 77-78). *)
Definition element_copies (br : list RImportBranch) (fl : list RImportField)
  (ts : list RImportTransformation) (j : Z) : list Event :=
  flat_map (fun t =>
              match nth_error br (fImportBranchIdx t), nth_error fl (fImportFieldIdx t) with
              | Some branch, Some field =>
                  [EvMemcpy (fFieldBuffer field) branch
                            (to_size_t (to_size_t j * GetValueSize (fField field)))
                            (GetValueSize (fField field))]
              | _, _ => []
              end) ts.

(** The records of a collection for one entry: for every element from [k]
    on, [n] of them, the copies and then the record. *)
Definition element_records (br : list RImportBranch) (fl : list RImportField)
  (key : string) (ts : list RImportTransformation) (k : Z) (n : nat) : list Event :=
  flat_map (fun j => element_copies br fl ts (k + Z.of_nat j) ++ [EvCollectionFill key])
           (seq 0 n).

(** The keys are in strictly ascending order, the order in which a
    [std::map] is traversed. *)
Fixpoint ascending (l : list string) : bool :=
  match l with
  | [] => true
  | a :: rest =>
      match rest with
      | [] => true
      | b :: _ => match String.compare a b with Lt => true | _ => false end
      end && ascending rest
  end.

(** A tree with two counters, [n] before [k], each with an array. *)
Definition tree_two_collections : TTree :=
  mkTTree "tree"
          [mkTBranch "n" "" [Scenario.leaf_n];
           mkTBranch "a" "" [Scenario.leaf_a];
           mkTBranch "k" "" [mkTLeaf TLeafOther "k" "Int_t" true None 1 3 0];
           mkTBranch "b" "" [mkTLeaf TLeafOther "b" "Float_t" false (Some "k") 1 0 0]]
          3 (fun i _ => i) true [].

(** The fields made for the leaves of a leaf list none of whose leaves is a
    TLeafObject or counted by another leaf: one per leaf, named after the
    leaf (lines 193-225 with [isLeafList]). *)
Fixpoint record_items (env : Collaborators) (b : TBranch) (firstLeaf : TLeaf)
  (leaves : list TLeaf) : option (list RField) :=
  match leaves with
  | [] => Some []
  | l :: rest =>
      if LeafClass_eqb (leaf_IsA l) TLeafObject then None
      else match leaf_LeafCount l with
           | Some _ => None
           | None =>
               match RFieldBase_Create env (leaf_GetName l) (fieldType b firstLeaf l) with
               | Failure _ => None
               | Success f => option_map (cons f) (record_items env b firstLeaf rest)
               end
           end
  end.

(** A branch with two plain leaves. *)
Definition branch_point : TBranch :=
  mkTBranch "p" "" [mkTLeaf TLeafOther "x" "Float_t" false None 1 0 0;
                    mkTLeaf TLeafOther "y" "Int_t" false None 1 0 4].

(** The events of the loop over the entries. *)
Definition is_entry_event (e : Event) : bool :=
  match e with
  | EvGetEntry _ | EvFill _ => true
  | _ => is_conversion_event e || is_progress_event e
  end.

(** A branch whose value is a C string (line 168) and that is no counter. *)
Definition string_branch (b : TBranch) : bool :=
  match branch_GetListOfLeaves b with
  | firstLeaf :: _ => negb (isCountLeaf firstLeaf) && isCString b firstLeaf
  | [] => false
  end.

(** The branch whose buffer a string assignment reads. *)
Definition string_source (e : Event) : option string :=
  match e with
  | EvStringAssign _ branch => Some (fBranchName branch)
  | _ => None
  end.

(** The names of the branches the transformations read. *)
Definition sources (branches : list RImportBranch) (ts : list RImportTransformation)
  : list (option string) :=
  map (fun t => nth_error (map fBranchName branches) (fImportBranchIdx t)) ts.












(** * Properties *)

(** ** The conversion of one entry *)

Ltac inv H := inversion H; subst; clear H.

Lemma forallb_app_true {A} (p : A -> bool) (l1 l2 : list A) :
  forallb p l1 = true -> forallb p l2 = true -> forallb p (l1 ++ l2) = true.
Proof. intros H1 H2. rewrite forallb_app, H1, H2. reflexivity. Qed.

(** A transformation either succeeds or meets a null destination; it keeps
    the indices it was made with and emits conversion events only. *)
Lemma Transform_spec (t : RImportTransformation) (b : RImportBranch) (f : RImportField) :
  forall o t' ev,
    Transform t b f = (o, t', ev) ->
    fImportBranchIdx t' = fImportBranchIdx t /\
    fImportFieldIdx t' = fImportFieldIdx t /\
    forallb is_conversion_event ev = true /\
    (o = Ok tt \/ o = UB) /\
    (Buffer_is_null (fFieldBuffer f) = false -> o = Ok tt).
Proof.
  intros o t' ev H. unfold Transform in H.
  destruct (Buffer_is_null (fFieldBuffer f)).
  - inv H. repeat split; auto. discriminate.
  - destruct t; inv H; repeat split; auto.
Qed.

Lemma transformation_ok_same_idx br fl (t t' : RImportTransformation) :
  fImportBranchIdx t' = fImportBranchIdx t ->
  fImportFieldIdx t' = fImportFieldIdx t ->
  transformation_ok br fl t' = transformation_ok br fl t.
Proof. intros Hb Hf. unfold transformation_ok. now rewrite Hb, Hf. Qed.

Lemma ResetEntry_idx (t : RImportTransformation) :
  fImportBranchIdx (ResetEntry t) = fImportBranchIdx t /\
  fImportFieldIdx (ResetEntry t) = fImportFieldIdx t.
Proof. destruct t; split; reflexivity. Qed.

Lemma transformation_ok_reset br fl (ts : list RImportTransformation) :
  forallb (transformation_ok br fl) (map ResetEntry ts) = forallb (transformation_ok br fl) ts.
Proof.
  induction ts as [|t ts IH]; simpl; [reflexivity|].
  rewrite IH. f_equal. apply transformation_ok_same_idx; apply ResetEntry_idx.
Qed.

(** Whatever the outcome, the loop over the transformations emits conversion
    events only, and none that fills a collection. *)
Lemma run_transformations_events br fl ts :
  forall o ts' ev,
    run_transformations br fl ts = (o, ts', ev) ->
    forallb is_conversion_event ev = true /\
    (forall key, ~ In (EvCollectionFill key) ev) /\
    (o = Ok tt \/ o = UB).
Proof.
  induction ts as [|t ts IH]; intros o ts' ev H; simpl in H.
  - inv H. repeat split; auto.
  - destruct (nth_error br (fImportBranchIdx t)) as [b|]; [|inv H; repeat split; auto].
    destruct (nth_error fl (fImportFieldIdx t)) as [f|]; [|inv H; repeat split; auto].
    destruct (Transform t b f) as [[o1 t1] ev1] eqn:HT.
    assert (Hnofill : forall key, ~ In (EvCollectionFill key) ev1).
    { intros key Hin. unfold Transform in HT.
      destruct (Buffer_is_null (fFieldBuffer f)); [inv HT; inversion Hin|].
      destruct t; inv HT; destruct Hin as [Hin|[]]; discriminate Hin. }
    destruct (Transform_spec _ _ _ _ _ _ HT) as (_ & _ & Hev1 & Ho1 & _).
    destruct o1.
    + destruct (run_transformations br fl ts) as [[o2 ts2] ev2] eqn:HR.
      inv H. destruct (IH _ _ _ eq_refl) as (Hev2 & Hnf2 & Ho2).
      repeat split; auto.
      * now apply forallb_app_true.
      * intros key Hin. apply in_app_or in Hin. destruct Hin; [eapply Hnofill|eapply Hnf2]; eauto.
    + inv H. destruct Ho1; discriminate.
    + inv H. destruct Ho1; discriminate.
    + inv H. repeat split; auto.
Qed.

(** With every transformation in order the loop succeeds and leaves the
    transformations in order. *)
Lemma run_transformations_ok br fl ts :
  forallb (transformation_ok br fl) ts = true ->
  exists ts' ev,
    run_transformations br fl ts = (Ok tt, ts', ev) /\
    forallb (transformation_ok br fl) ts' = true.
Proof.
  induction ts as [|t ts IH]; intro Hok; simpl.
  - exists [], []. split; reflexivity.
  - simpl in Hok. apply andb_true_iff in Hok. destruct Hok as [Ht Hts].
    pose proof Ht as Ht'. unfold transformation_ok in Ht'.
    destruct (nth_error br (fImportBranchIdx t)) as [b|]; [|discriminate].
    destruct (nth_error fl (fImportFieldIdx t)) as [f|]; [|discriminate].
    apply negb_true_iff in Ht'.
    destruct (Transform t b f) as [[o1 t1] ev1] eqn:HT.
    destruct (Transform_spec _ _ _ _ _ _ HT) as (Hb & Hf & _ & _ & Ho).
    rewrite (Ho Ht').
    destruct (IH Hts) as (ts' & ev & HR & Hok').
    rewrite HR. exists (t1 :: ts'), (ev1 ++ ev). split; [reflexivity|].
    simpl. rewrite Hok', (transformation_ok_same_idx br fl t t1 Hb Hf), Ht. reflexivity.
Qed.

(** The same two facts for the loop over the top-level transformations. *)
Lemma run_import_transformations_events br fl ts :
  forall o ts' ev,
    run_import_transformations br fl ts = (o, ts', ev) ->
    forallb is_conversion_event ev = true /\
    (forall key, ~ In (EvCollectionFill key) ev) /\
    (o = Ok tt \/ o = UB).
Proof.
  induction ts as [|t ts IH]; intros o ts' ev H; simpl in H.
  - inv H. repeat split; auto.
  - destruct (nth_error br (fImportBranchIdx t)) as [b|]; [|inv H; repeat split; auto].
    destruct (nth_error fl (fImportFieldIdx t)) as [f|]; [|inv H; repeat split; auto].
    destruct (Transform t b f) as [[o1 t1] ev1] eqn:HT.
    assert (Hnofill : forall key, ~ In (EvCollectionFill key) ev1).
    { intros key Hin. unfold Transform in HT.
      destruct (Buffer_is_null (fFieldBuffer f)); [inv HT; inversion Hin|].
      destruct t; inv HT; destruct Hin as [Hin|[]]; discriminate Hin. }
    destruct (Transform_spec _ _ _ _ _ _ HT) as (_ & _ & Hev1 & Ho1 & _).
    destruct o1.
    + destruct (run_import_transformations br fl ts) as [[o2 ts2] ev2] eqn:HR.
      inv H. destruct (IH _ _ _ eq_refl) as (Hev2 & Hnf2 & Ho2).
      repeat split; auto.
      * now apply forallb_app_true.
      * intros key Hin. apply in_app_or in Hin. destruct Hin; [eapply Hnofill|eapply Hnf2]; eauto.
    + inv H. destruct Ho1; discriminate.
    + inv H. destruct Ho1; discriminate.
    + inv H. repeat split; auto.
Qed.

Lemma run_import_transformations_ok br fl ts :
  forallb (transformation_ok br fl) ts = true ->
  exists ts' ev,
    run_import_transformations br fl ts = (Ok tt, ts', ev) /\
    forallb (transformation_ok br fl) ts' = true.
Proof.
  induction ts as [|t ts IH]; intro Hok; simpl.
  - exists [], []. split; reflexivity.
  - simpl in Hok. apply andb_true_iff in Hok. destruct Hok as [Ht Hts].
    pose proof Ht as Ht'. unfold transformation_ok in Ht'.
    destruct (nth_error br (fImportBranchIdx t)) as [b|]; [|discriminate].
    destruct (nth_error fl (fImportFieldIdx t)) as [f|]; [|discriminate].
    apply negb_true_iff in Ht'.
    destruct (Transform t b f) as [[o1 t1] ev1] eqn:HT.
    destruct (Transform_spec _ _ _ _ _ _ HT) as (Hb & Hf & _ & _ & Ho).
    rewrite (Ho Ht').
    destruct (IH Hts) as (ts' & ev & HR & Hok').
    rewrite HR. exists (ResetEntry t1 :: ts'), (ev1 ++ ev). split; [reflexivity|].
    simpl. rewrite Hok'.
    destruct (ResetEntry_idx t1) as [Hrb Hrf].
    rewrite (transformation_ok_same_idx br fl t (ResetEntry t1)); [now rewrite Ht| |]; congruence.
Qed.

Lemma filter_app_length {A} (p : A -> bool) (l1 l2 : list A) :
  List.length (filter p (l1 ++ l2)) =
  (List.length (filter p l1) + List.length (filter p l2))%nat.
Proof. rewrite filter_app, length_app. reflexivity. Qed.

Lemma no_fill_filter key ev :
  (forall k, ~ In (EvCollectionFill k) ev) -> filter (is_fill_of key) ev = [].
Proof.
  induction ev as [|e ev IH]; intro H; simpl; [reflexivity|].
  destruct e; simpl; try (apply IH; intros k Hin; apply (H k); now right).
  exfalso. apply (H key0). now left.
Qed.

(** Whatever the outcome, filling the elements of a collection emits
    conversion events only; the records it fills are those of its key. *)
Lemma fill_elements_events br fl key n :
  forall c o c' ev,
    fill_elements br fl key n c = (o, c', ev) ->
    forallb is_conversion_event ev = true /\
    (forall k, In (EvCollectionFill k) ev -> k = key) /\
    (o = Ok tt \/ o = UB).
Proof.
  induction n as [|n IH]; intros c o c' ev H; simpl in H.
  - inv H. repeat split; auto. intros k [].
  - destruct (run_transformations br fl (fTransformations c)) as [[o1 ts] ev1] eqn:HR.
    destruct (run_transformations_events _ _ _ _ _ _ HR) as (Hev1 & Hnf1 & Ho1).
    destruct o1; try (inv H; destruct Ho1; discriminate).
    + cbn in H.
      destruct (fCollectionWriter c) as [offset|]; [|inv H; repeat split; auto;
                                                      intros k Hin; exfalso; eapply Hnf1; eauto].
      destruct (fCollectionEntry c) as [e|]; [|inv H; repeat split; auto;
                                                 intros k Hin; exfalso; eapply Hnf1; eauto].
      destruct (fill_elements br fl key n _) as [[o2 c2] ev2] eqn:HF.
      inv H. destruct (IH _ _ _ _ HF) as (Hev2 & Hk2 & Ho2).
      repeat split; auto.
      * apply forallb_app_true; [assumption|]. simpl. assumption.
      * intros k Hin. apply in_app_or in Hin. destruct Hin as [Hin|[Hin|Hin]].
        -- exfalso. eapply Hnf1; eauto.
        -- now inv Hin.
        -- now apply Hk2.
    + inv H. repeat split; auto. intros k Hin; exfalso; eapply Hnf1; eauto.
Qed.

(** A collection in order is filled without incident: the writer's offset
    has advanced by the number of rounds, one record has been filled per
    round, and nothing but the transformations and the offset has changed. *)
Lemma fill_elements_ok br fl key n :
  forall c offset,
    collection_ok br fl c = true ->
    fCollectionWriter c = Some offset ->
    exists ts' ev,
      fill_elements br fl key n c =
        (Ok tt,
         with_fCollectionWriter (Some (offset + Z.of_nat n)) (with_fTransformations ts' c),
         ev) /\
      forallb (transformation_ok br fl) ts' = true /\
      List.length (filter (is_fill_of key) ev) = n.
Proof.
  induction n as [|n IH]; intros c offset Hok Hw.
  - exists (fTransformations c), []. simpl. rewrite Z.add_0_r.
    unfold collection_ok in Hok. rewrite !andb_true_iff in Hok.
    destruct Hok as (_ & Hts). repeat split; auto.
    destruct c; cbn in *; subst; reflexivity.
  - pose proof Hok as Hok'. unfold collection_ok in Hok'. rewrite !andb_true_iff in Hok'.
    destruct Hok' as (((Hcv & _) & He) & Hts).
    destruct (run_transformations_ok _ _ _ Hts) as (ts1 & ev1 & HR & Hts1).
    destruct (run_transformations_events _ _ _ _ _ _ HR) as (_ & Hnf1 & _).
    cbn -[Z.of_nat]. rewrite HR. cbn -[Z.of_nat]. rewrite Hw.
    destruct (fCollectionEntry c) as [e|] eqn:Hent; [|discriminate].
    set (c2 := with_fCollectionWriter (Some (offset + 1)) (with_fTransformations ts1 c)).
    assert (Hok2 : collection_ok br fl c2 = true).
    { unfold collection_ok, c2. cbn. rewrite Hent, Hts1.
      destruct (fCountVal c); [reflexivity|discriminate]. }
    destruct (IH c2 (offset + 1) Hok2 eq_refl) as (ts' & ev & HF & Hts' & Hlen).
    rewrite HF. exists ts', (ev1 ++ EvCollectionFill key :: ev).
    split; [|split; [assumption|]].
    + f_equal. f_equal. unfold c2, with_fCollectionWriter, with_fTransformations.
      cbn -[Z.of_nat]. f_equal. f_equal. lia.
    + rewrite filter_app_length, (no_fill_filter key ev1 Hnf1). cbn.
      rewrite String.eqb_refl. cbn. now rewrite Hlen.
Qed.

(** One collection: conversion events only, whatever the outcome. *)
Lemma import_collection_events br fl key c :
  forall o c' ev,
    import_collection br fl key c = (o, c', ev) ->
    forallb is_conversion_event ev = true /\
    (forall k, In (EvCollectionFill k) ev -> k = key) /\
    (o = Ok tt \/ o = UB).
Proof.
  intros o c' ev H. unfold import_collection in H.
  destruct (fCountVal c) as [countVal|]; [|inv H; repeat split; auto; intros k []].
  destruct (fill_elements br fl key (Z.to_nat countVal) c) as [[o1 c1] ev1] eqn:HF.
  destruct (fill_elements_events _ _ _ _ _ _ _ _ HF) as (Hev & Hk & Ho).
  destruct o1; inv H; repeat split; auto.
Qed.

(** One collection in order: as many records as the count says, the
    transformations reset, the collection in order again. *)
Lemma import_collection_ok br fl key c countVal offset :
  collection_ok br fl c = true ->
  fCountVal c = Some countVal ->
  fCollectionWriter c = Some offset ->
  exists ts' ev,
    import_collection br fl key c =
      (Ok tt,
       with_fCollectionWriter (Some (offset + Z.of_nat (Z.to_nat countVal)))
         (with_fTransformations (map ResetEntry ts') c),
       ev) /\
    forallb (transformation_ok br fl) ts' = true /\
    List.length (filter (is_fill_of key) ev) = Z.to_nat countVal.
Proof.
  intros Hok Hcv Hw. unfold import_collection. rewrite Hcv.
  destruct (fill_elements_ok br fl key (Z.to_nat countVal) c offset Hok Hw)
    as (ts' & ev & HF & Hts' & Hlen).
  rewrite HF. exists ts', ev. repeat split; auto.
Qed.

Lemma collection_ok_parts br fl c :
  collection_ok br fl c = true ->
  exists countVal offset e,
    fCountVal c = Some countVal /\ fCollectionWriter c = Some offset /\
    fCollectionEntry c = Some e /\
    forallb (transformation_ok br fl) (fTransformations c) = true.
Proof.
  unfold collection_ok. rewrite !andb_true_iff. intros (((Hc & Hw) & He) & Ht).
  destruct (fCountVal c) as [v|]; [|discriminate].
  destruct (fCollectionWriter c) as [o|]; [|discriminate].
  destruct (fCollectionEntry c) as [e|]; [|discriminate].
  now exists v, o, e.
Qed.

Lemma collection_after_ok br fl kc :
  collection_ok br fl (snd kc) = true ->
  import_collection br fl (fst kc) (snd kc) =
    (Ok tt, snd (collection_after br fl kc), collection_events br fl kc) /\
  collection_ok br fl (snd (collection_after br fl kc)) = true /\
  fCountVal (snd (collection_after br fl kc)) = fCountVal (snd kc) /\
  fMaxLength (snd (collection_after br fl kc)) = fMaxLength (snd kc) /\
  (forall countVal offset,
     fCountVal (snd kc) = Some countVal ->
     fCollectionWriter (snd kc) = Some offset ->
     fCollectionWriter (snd (collection_after br fl kc))
       = Some (offset + Z.of_nat (Z.to_nat countVal)) /\
     List.length (filter (is_fill_of (fst kc)) (collection_events br fl kc))
       = Z.to_nat countVal).
Proof.
  intro Hok. destruct (collection_ok_parts _ _ _ Hok) as (v & o & e & Hv & Ho & He & Hts).
  destruct (import_collection_ok br fl (fst kc) (snd kc) v o Hok Hv Ho)
    as (ts' & ev & HI & Hts' & Hlen).
  unfold collection_after, collection_events. rewrite HI. cbn.
  split; [reflexivity|]. split.
  - unfold collection_ok. cbn. rewrite Hv, He, transformation_ok_reset, Hts'. reflexivity.
  - split; [reflexivity|]. split; [reflexivity|].
    intros v' o' Hv' Ho'. rewrite Hv in Hv'. rewrite Ho in Ho'. inv Hv'. inv Ho'. now split.
Qed.

(** With every collection in order, the loop over the map treats each
    collection on its own. *)
Lemma import_collections_ok br fl cs :
  collections_ok br fl cs = true ->
  import_collections br fl cs =
    (Ok tt, map (collection_after br fl) cs, flat_map (collection_events br fl) cs) /\
  collections_ok br fl (map (collection_after br fl) cs) = true.
Proof.
  induction cs as [|[key c] cs IH]; intro Hok.
  { split; reflexivity. }
  cbn in Hok. apply andb_true_iff in Hok. destruct Hok as [Hc Hcs].
  destruct (collection_after_ok br fl (key, c) Hc) as (HI & Hok' & _).
  destruct (IH Hcs) as (HR & Hoks).
  cbn [fst snd] in HI. split.
  - cbn [import_collections map flat_map]. rewrite HI, HR. reflexivity.
  - cbn [map]. unfold collections_ok in *. cbn [forallb]. now rewrite Hok', Hoks.
Qed.

Lemma import_collections_events br fl cs :
  forall o cs' ev,
    import_collections br fl cs = (o, cs', ev) ->
    forallb is_conversion_event ev = true /\ (o = Ok tt \/ o = UB).
Proof.
  induction cs as [|[key c] cs IH]; intros o cs' ev H; cbn in H.
  - inv H. split; auto.
  - destruct (import_collection br fl key c) as [[o1 c1] ev1] eqn:HI.
    destruct (import_collection_events _ _ _ _ _ _ _ HI) as (Hev1 & _ & Ho1).
    destruct o1; try (inv H; split; auto; destruct Ho1; discriminate).
    destruct (import_collections br fl cs) as [[o2 cs2] ev2] eqn:HR.
    inv H. destruct (IH _ _ _ eq_refl) as (Hev2 & Ho2).
    split; [now apply forallb_app_true|assumption].
Qed.

(** *** Keys *)

Lemma find_collection_after br fl key cs :
  StdMap.find key (map (collection_after br fl) cs) =
  option_map (fun c => snd (collection_after br fl (key, c))) (StdMap.find key cs).
Proof.
  induction cs as [|[k c] cs IH]; cbn; [reflexivity|].
  destruct (String.eqb key k) eqn:Hk.
  - apply String.eqb_eq in Hk. subst. reflexivity.
  - exact IH.
Qed.

Lemma find_is_some_same_keys {V W} key (m : list (string * V)) (m' : list (string * W)) :
  map fst m' = map fst m ->
  is_some (StdMap.find key m') = is_some (StdMap.find key m).
Proof.
  revert m'. induction m as [|[k v] m IH]; intros [|[k' v'] m'] H; try discriminate H.
  - reflexivity.
  - cbn in H. inv H. cbn. destruct (String.eqb key k); [reflexivity|]. now apply IH.
Qed.

Lemma map_fst_collection_after br fl cs :
  map fst (map (collection_after br fl) cs) = map fst cs.
Proof. rewrite map_map. reflexivity. Qed.

Lemma address_ok_same_keys (cs cs' : Collections) na :
  map fst cs' = map fst cs -> address_ok cs' na = address_ok cs na.
Proof.
  intro H. unfold address_ok. destruct (snd na); try reflexivity.
  now apply find_is_some_same_keys.
Qed.

Lemma addresses_ok_same_keys (cs cs' : Collections) addrs :
  map fst cs' = map fst cs ->
  forallb (address_ok cs') addrs = forallb (address_ok cs) addrs.
Proof.
  intro H. induction addrs as [|na addrs IH]; cbn; [reflexivity|].
  now rewrite IH, (address_ok_same_keys cs cs' na H).
Qed.

(** *** GetEntry *)

Lemma same_but_cells_refl cs : same_but_cells cs cs.
Proof.
  induction cs as [|[k c] cs IH]; constructor; [|exact IH].
  repeat split; auto. destruct c; reflexivity.
Qed.

Lemma same_but_cells_trans cs1 cs2 cs3 :
  same_but_cells cs1 cs2 -> same_but_cells cs2 cs3 -> same_but_cells cs1 cs3.
Proof.
  intro H12. revert cs3. induction H12 as [|kc1 kc2 cs1 cs2 (Hk & Hc & Hs) _ IH];
    intros cs3 H23; inv H23; constructor.
  - destruct H1 as (Hk' & Hc' & Hs'). repeat split.
    + congruence.
    + rewrite Hc', Hc. reflexivity.
    + auto.
  - now apply IH.
Qed.

Lemma same_but_cells_keys cs cs' : same_but_cells cs cs' -> map fst cs' = map fst cs.
Proof.
  induction 1 as [|kc kc' cs cs' (Hk & _) _ IH]; cbn; [reflexivity|]. now rewrite Hk, IH.
Qed.

Lemma same_but_cells_replace key c v cs :
  StdMap.find key cs = Some c ->
  same_but_cells cs (StdMap.replace key (with_fCountVal (Some v) c) cs).
Proof.
  induction cs as [|[k c0] cs IH]; intro H; cbn in *; [discriminate|].
  destruct (String.eqb key k).
  - inv H. constructor; [|apply same_but_cells_refl]. repeat split; auto.
  - constructor; [|now apply IH]. repeat split; auto. destruct c0; reflexivity.
Qed.

Lemma same_but_cells_ok br fl cs cs' :
  same_but_cells cs cs' -> collections_ok br fl cs = true -> collections_ok br fl cs' = true.
Proof.
  induction 1 as [|kc kc' cs cs' (Hk & Hc & Hs) _ IH]; intro Hok; [reflexivity|].
  unfold collections_ok in *. cbn [forallb] in *.
  apply andb_true_iff in Hok. destruct Hok as [Hkc Hcs].
  rewrite (IH Hcs), andb_true_r.
  unfold collection_ok in *. rewrite !andb_true_iff in Hkc. destruct Hkc as (((H1 & H2) & H3) & H4).
  rewrite Hc. cbn. rewrite (Hs H1), H2, H3, H4. reflexivity.
Qed.

(** With every address usable, reading an entry succeeds and changes count
    cells only. *)
Lemma deliver_ok t i addrs :
  forall cs,
    forallb (address_ok cs) addrs = true ->
    exists cs', deliver t i addrs cs = Some cs' /\ same_but_cells cs cs'.
Proof.
  induction addrs as [|[name a] addrs IH]; intros cs Hok.
  - exists cs. split; [reflexivity|apply same_but_cells_refl].
  - cbn in Hok. apply andb_true_iff in Hok. destruct Hok as [Ha Haddrs].
    unfold address_ok in Ha. cbn in Ha. destruct a as [key|idx| |]; cbn.
    + destruct (StdMap.find key cs) as [c|] eqn:Hfind; [|discriminate].
      pose proof (same_but_cells_replace key c (tree_CountValue t i name) cs Hfind) as Hsb.
      destruct (IH (StdMap.replace key (with_fCountVal (Some (tree_CountValue t i name)) c) cs))
        as (cs' & Hd & Hsb').
      { rewrite (addresses_ok_same_keys cs _ addrs (same_but_cells_keys _ _ Hsb)). exact Haddrs. }
      exists cs'. split; [exact Hd|]. eapply same_but_cells_trans; eauto.
    + now apply IH.
    + discriminate.
    + now apply IH.
Qed.

(** *** One entry *)

(** Projections of updated importers, and nothing else, are computed. *)
Ltac proj :=
  cbn [fNTupleName fDestFileName fSourceFile fSourceTree fDestFile fWriteOptions fModel
       fEntry fImportBranches fImportFields fLeafCountCollections fImportTransformations
       fIsQuiet fMaxEntries fProgressCallback fTrace
       with_fNTupleName with_fDestFileName with_fSourceFile with_fSourceTree with_fDestFile
       with_fWriteOptions with_fModel with_fEntry with_fImportBranches with_fImportFields
       with_fLeafCountCollections with_fImportTransformations with_fIsQuiet with_fMaxEntries
       with_fProgressCallback with_fTrace fst snd].

Tactic Notation "proj" "in" hyp(H) :=
  cbn [fNTupleName fDestFileName fSourceFile fSourceTree fDestFile fWriteOptions fModel
       fEntry fImportBranches fImportFields fLeafCountCollections fImportTransformations
       fIsQuiet fMaxEntries fProgressCallback fTrace
       with_fNTupleName with_fDestFileName with_fSourceFile with_fSourceTree with_fDestFile
       with_fWriteOptions with_fModel with_fEntry with_fImportBranches with_fImportFields
       with_fLeafCountCollections with_fImportTransformations with_fIsQuiet with_fMaxEntries
       with_fProgressCallback with_fTrace fst snd] in H.

Lemma same_setup_refl s : same_setup s s.
Proof. unfold same_setup. repeat split; reflexivity. Qed.

Lemma same_setup_trans s1 s2 s3 : same_setup s1 s2 -> same_setup s2 s3 -> same_setup s1 s3.
Proof. unfold same_setup. intuition congruence. Qed.

Lemma distinct_keys_same_keys {V W} (m : list (string * V)) (m' : list (string * W)) :
  map fst m' = map fst m -> distinct_keys m' = distinct_keys m.
Proof.
  revert m'. induction m as [|[k v] m IH]; intros [|[k' v'] m'] H; try discriminate H.
  - reflexivity.
  - cbn in H. inv H. cbn. rewrite (IH m' H2), (find_is_some_same_keys k m m' H2). reflexivity.
Qed.

Lemma ready_parts s :
  ready s = true ->
  exists t entry,
    fSourceTree s = Some t /\
    forallb (address_ok (fLeafCountCollections s)) (tree_BranchAddress t) = true /\
    collections_ok (fImportBranches s) (fImportFields s) (fLeafCountCollections s) = true /\
    forallb (transformation_ok (fImportBranches s) (fImportFields s))
            (fImportTransformations s) = true /\
    fEntry s = Some entry.
Proof.
  unfold ready. rewrite !andb_true_iff. intros ((((Ha & Hc) & Ht) & He) & _).
  destruct (fSourceTree s) as [t|]; [|discriminate].
  destruct (fEntry s) as [entry|]; [|discriminate].
  exists t, entry. repeat split; assumption.
Qed.

Lemma ready_distinct s : ready s = true -> distinct_keys (fLeafCountCollections s) = true.
Proof. unfold ready. rewrite !andb_true_iff. now intros (_ & Hd). Qed.

Lemma report_progress_spec env i s :
  exists s' prog,
    report_progress env i s = (Ok tt, s') /\
    fTrace s' = fTrace s ++ prog /\
    forallb is_progress_event prog = true /\
    progress_reports 0 prog
      = (if is_some (fProgressCallback s) then [(to_size_t i, 0%nat)] else []) /\
    fLeafCountCollections s' = fLeafCountCollections s /\
    fImportTransformations s' = fImportTransformations s /\
    same_setup s s'.
Proof.
  unfold report_progress. destruct (fProgressCallback s) as [cb|] eqn:Hcb.
  - unfold Call.
    destruct (to_size_t (szWritePayload env (fTrace s)) <? fNbytesNext cb);
      eexists; eexists; (split; [reflexivity|]); proj;
      (split; [reflexivity|]); unfold same_setup; proj;
      rewrite ?Hcb; repeat split; reflexivity.
  - exists s, []. rewrite app_nil_r. repeat split; try reflexivity.
Qed.

Lemma GetEntry_collections i s t cs0 :
  fSourceTree s = Some t ->
  deliver t i (tree_BranchAddress t) (fLeafCountCollections s) = Some cs0 ->
  GetEntry i s = (Ok tt, with_fLeafCountCollections cs0
                           (with_fTrace (fTrace s ++ [EvGetEntry i]) s)).
Proof.
  intros Ht Hd. unfold GetEntry, bind, deref, emit, modify. proj. rewrite Ht. proj.
  rewrite Hd. reflexivity.
Qed.

(** An importer that is ready converts entry [i] without incident.  The
    interactions are, in this order: the entry is read, every collection
    emits its records, the top-level transformations run, the entry is
    submitted with the collections' offsets as they are by then, progress is
    reported.  The importer is ready for the next entry. *)
Lemma import_entry_ok env i s :
  ready s = true ->
  exists s' t cs0 evT entry prog,
    import_entry env i s = (Ok tt, s') /\
    fSourceTree s = Some t /\
    deliver t i (tree_BranchAddress t) (fLeafCountCollections s) = Some cs0 /\
    same_but_cells (fLeafCountCollections s) cs0 /\
    fLeafCountCollections s'
      = map (collection_after (fImportBranches s) (fImportFields s)) cs0 /\
    fTrace s'
      = fTrace s ++
        EvGetEntry i ::
        flat_map (collection_events (fImportBranches s) (fImportFields s)) cs0 ++
        evT ++ EvFill (captured_offsets entry (fLeafCountCollections s')) :: prog /\
    forallb is_conversion_event evT = true /\
    (forall key, ~ In (EvCollectionFill key) evT) /\
    forallb is_progress_event prog = true /\
    progress_reports 0 prog
      = (if is_some (fProgressCallback s) then [(to_size_t i, 0%nat)] else []) /\
    fEntry s = Some entry /\
    same_setup s s' /\
    ready s' = true /\
    run_import_transformations (fImportBranches s) (fImportFields s)
                               (fImportTransformations s)
      = (Ok tt, fImportTransformations s', evT).
Proof.
  intro Hready.
  destruct (ready_parts s Hready) as (t & entry & Ht & Haddr & Hcs & Hts & Hentry).
  destruct (deliver_ok t i (tree_BranchAddress t) (fLeafCountCollections s) Haddr)
    as (cs0 & Hdel & Hsb).
  pose proof (same_but_cells_ok _ _ _ _ Hsb Hcs) as Hcs0.
  destruct (import_collections_ok _ _ _ Hcs0) as (HIC & Hcs').
  destruct (run_import_transformations_ok _ _ _ Hts) as (ts' & evT & HRT & Hts').
  destruct (run_import_transformations_events _ _ _ _ _ _ HRT) as (HevT & HnfT & _).
  set (br := fImportBranches s) in *. set (fl := fImportFields s) in *.
  set (cs' := map (collection_after br fl) cs0) in *.
  set (evC := flat_map (collection_events br fl) cs0) in *.
  set (s3 := with_fTrace
               ((((fTrace s ++ [EvGetEntry i]) ++ evC) ++ evT)
                ++ [EvFill (captured_offsets entry cs')])
               (with_fTrace (((fTrace s ++ [EvGetEntry i]) ++ evC) ++ evT)
                  (with_fImportTransformations ts'
                     (with_fTrace ((fTrace s ++ [EvGetEntry i]) ++ evC)
                        (with_fLeafCountCollections cs'
                           (with_fLeafCountCollections cs0
                              (with_fTrace (fTrace s ++ [EvGetEntry i]) s))))))).
  destruct (report_progress_spec env i s3)
    as (s' & prog & HP & Htr & Hprog & Hrep & Hc' & Ht' & Hsame).
  assert (Hrun : import_entry env i s = (Ok tt, s')).
  { unfold import_entry. unfold bind at 1.
    rewrite (GetEntry_collections i s t cs0 Ht Hdel).
    unfold bind at 1. unfold on_collections. proj. fold br fl. rewrite HIC.
    unfold bind at 1. unfold on_transformations. proj. fold br fl. rewrite HRT.
    unfold bind at 1. unfold deref. proj. rewrite Hentry.
    unfold bind at 1. unfold emit, modify. proj.
    exact HP. }
  exists s', t, cs0, evT, entry, prog.
  split; [exact Hrun|]. split; [exact Ht|]. split; [exact Hdel|]. split; [exact Hsb|].
  split; [rewrite Hc'; reflexivity|].
  split.
  { rewrite Htr, Hc'. unfold s3. proj. rewrite <- !app_assoc. reflexivity. }
  split; [exact HevT|]. split; [exact HnfT|]. split; [exact Hprog|].
  split; [exact Hrep|]. split; [exact Hentry|].
  assert (Hsame' : same_setup s s').
  { eapply same_setup_trans; [|exact Hsame]. unfold same_setup, s3. proj.
    repeat split; reflexivity. }
  split; [exact Hsame'|].
  destruct Hsame' as (_ & _ & _ & Hst & _ & _ & _ & Hse & Hsb' & Hsf & _).
  split; [|rewrite Ht'; unfold s3; proj; exact HRT].
  unfold ready. rewrite Hst, Ht, Hse, Hentry, Hsb', Hsf, Hc', Ht'. unfold s3. proj.
  fold br fl.
  rewrite (addresses_ok_same_keys (fLeafCountCollections s) cs').
  - fold (collections_ok br fl cs'). rewrite Haddr, Hcs', Hts'. cbn [andb is_some].
    rewrite (distinct_keys_same_keys (fLeafCountCollections s) cs').
    + now apply ready_distinct.
    + unfold cs'. rewrite map_fst_collection_after. now apply same_but_cells_keys.
  - unfold cs'. rewrite map_fst_collection_after. now apply same_but_cells_keys.
Qed.

(** *** The whole loop *)

Lemma submitted_from_skip cur ev rest :
  forallb (fun e => is_conversion_event e || is_progress_event e) ev = true ->
  submitted_from cur (ev ++ rest) = submitted_from cur rest.
Proof.
  induction ev as [|e ev IH]; intro H; [reflexivity|].
  cbn in H. apply andb_true_iff in H. destruct H as [He Hev].
  destruct e; try discriminate He; cbn; now apply IH.
Qed.

Lemma forallb_weaken {A} (p q : A -> bool) (l : list A) :
  (forall a, p a = true -> q a = true) -> forallb p l = true -> forallb q l = true.
Proof.
  intros Hpq. induction l as [|a l IH]; cbn; [reflexivity|].
  rewrite !andb_true_iff. intros [Ha Hl]. split; auto.
Qed.

Lemma fills_skip ev :
  forallb (fun e => is_conversion_event e || is_progress_event e) ev = true ->
  filter is_EvFill ev = [].
Proof.
  induction ev as [|e ev IH]; intro H; [reflexivity|].
  cbn in H. apply andb_true_iff in H. destruct H as [He Hev].
  destruct e; try discriminate He; cbn; now apply IH.
Qed.

Lemma collection_events_conversion br fl cs :
  forallb is_conversion_event (flat_map (collection_events br fl) cs) = true.
Proof.
  induction cs as [|[key c] cs IH]; [reflexivity|].
  cbn. apply forallb_app_true; [|exact IH].
  unfold collection_events. cbn.
  destruct (import_collection br fl key c) as [[o c'] ev] eqn:HI.
  now destruct (import_collection_events _ _ _ _ _ _ _ HI).
Qed.

Lemma progress_reports_app n a b :
  progress_reports n (a ++ b) = progress_reports n a ++ progress_reports (n + fills a) b.
Proof.
  revert n. induction a as [|e a IH]; intro n.
  - cbn. now rewrite Nat.add_0_r.
  - unfold fills in *.
    destruct e; cbn; rewrite ?IH; try reflexivity.
    cbn. now rewrite Nat.add_succ_r.
Qed.

Lemma progress_reports_shift n l :
  progress_reports n l = map (fun zk => (fst zk, (snd zk + n)%nat)) (progress_reports 0 l).
Proof.
  revert n. induction l as [|e l IH]; intro n; [reflexivity|].
  destruct e; cbn; rewrite ?(IH n); try reflexivity.
  rewrite (IH (S n)), (IH 1%nat), map_map. apply map_ext. intros [z k]. cbn. f_equal. lia.
Qed.

Lemma progress_reports_skip n ev :
  forallb is_conversion_event ev = true -> progress_reports n ev = [].
Proof.
  induction ev as [|e ev IH]; intro H; [reflexivity|].
  cbn in H. apply andb_true_iff in H. destruct H as [He Hev].
  destruct e; try discriminate He; cbn; now apply IH.
Qed.

Lemma fills_progress ev : forallb is_progress_event ev = true -> fills ev = 0%nat.
Proof.
  intro H. unfold fills. rewrite fills_skip; [reflexivity|].
  eapply forallb_weaken; [|exact H]. intros a Ha. rewrite Ha. apply orb_true_r.
Qed.

Lemma fills_conversion ev : forallb is_conversion_event ev = true -> fills ev = 0%nat.
Proof.
  intro H. unfold fills. rewrite fills_skip; [reflexivity|].
  eapply forallb_weaken; [|exact H]. intros a Ha. now rewrite Ha.
Qed.

Lemma entry_range_S i n : entry_range i (S n) = i :: entry_range (i + 1) n.
Proof.
  unfold entry_range. cbn [seq map]. rewrite Z.add_0_r. f_equal.
  rewrite <- seq_shift, map_map. apply map_ext. intro k. lia.
Qed.

(** From a ready importer the loop converts [n] entries without incident.
    The entries submitted are [i .. i+n-1], in this order, one per round. *)
Lemma import_loop_ok env n :
  forall i s,
    ready s = true ->
    exists s' evs,
      import_loop env n i s = (Ok tt, s') /\
      fTrace s' = fTrace s ++ evs /\
      (forall cur rest,
         (forall c, submitted_from c rest = submitted_from None rest) ->
         submitted_from cur (evs ++ rest) = entry_range i n ++ submitted_from None rest) /\
      fills evs = n /\
      progress_reports 0 evs
        = (if is_some (fProgressCallback s)
           then map (fun k => (to_size_t (i + Z.of_nat k), S k)) (seq 0 n) else []) /\
      same_setup s s' /\
      ready s' = true.
Proof.
  induction n as [|n IH]; intros i s Hready.
  - exists s, []. cbn. rewrite app_nil_r.
    repeat split; auto; try apply same_setup_refl.
    now destruct (fProgressCallback s).
  - destruct (import_entry_ok env i s Hready)
      as (s1 & t & cs0 & evT & entry & prog & Hrun & _ & _ & _ & _ & Htr & HevT & _ & Hprog
          & Hrep & _ & Hsame & Hready1 & _).
    destruct (IH (i + 1) s1 Hready1) as (s' & evs & Hloop & Htr' & Hsub & Hfills & Hreps
                                         & Hsame' & Hready').
    set (conv := flat_map (collection_events (fImportBranches s) (fImportFields s)) cs0 ++ evT)
      in *.
    assert (Hconv : forallb (fun e => is_conversion_event e || is_progress_event e) conv = true).
    { unfold conv. apply forallb_app_true;
        (eapply forallb_weaken; [|try apply collection_events_conversion; try exact HevT]);
        intros a Ha; now rewrite Ha. }
    assert (Hprog' : forallb (fun e => is_conversion_event e || is_progress_event e) prog = true).
    { eapply forallb_weaken; [|exact Hprog]. intros a Ha. rewrite Ha. apply orb_true_r. }
    set (offs := captured_offsets entry (fLeafCountCollections s1)) in *.
    exists s', ((EvGetEntry i :: conv ++ EvFill offs :: prog) ++ evs).
    split.
    { cbn [import_loop]. unfold bind. rewrite Hrun. exact Hloop. }
    split.
    { rewrite Htr', Htr. unfold conv. rewrite <- !app_assoc. cbn. rewrite <- !app_assoc.
      reflexivity. }
    split.
    { intros cur rest Hrest. rewrite entry_range_S.
      cbn [app submitted_from]. rewrite <- !app_assoc.
      rewrite (submitted_from_skip (Some i) conv _ Hconv).
      cbn [app submitted_from]. f_equal.
      rewrite (submitted_from_skip (Some i) prog _ Hprog').
      now apply Hsub. }
    split.
    { unfold fills in *. cbn [app filter is_EvFill]. rewrite !filter_app.
      rewrite (fills_skip conv Hconv). cbn [app filter is_EvFill].
      rewrite (fills_skip prog Hprog'). cbn. now rewrite Hfills. }
    split; [|split; [eapply same_setup_trans; eauto|exact Hready']].
    assert (Hconv0 : forallb is_conversion_event conv = true).
    { unfold conv. apply forallb_app_true; [apply collection_events_conversion|exact HevT]. }
    assert (Hcb : is_some (fProgressCallback s1) = is_some (fProgressCallback s))
      by (destruct Hsame as (_ & _ & _ & _ & _ & _ & _ & _ & _ & _ & _ & _ & H); exact H).
    cbn [app progress_reports]. rewrite <- app_assoc.
    rewrite progress_reports_app, (progress_reports_skip 0 conv Hconv0).
    rewrite (fills_conversion conv Hconv0). cbn [app Nat.add progress_reports].
    rewrite progress_reports_app, (fills_progress prog Hprog), Nat.add_0_r.
    rewrite (progress_reports_shift 1 prog), (progress_reports_shift 1 evs), Hrep, Hreps, Hcb.
    destruct (is_some (fProgressCallback s)); [|reflexivity].
    cbn [map fst snd app Nat.add seq]. rewrite Z.add_0_r. f_equal.
    rewrite <- seq_shift, !map_map. apply map_ext. intro k. cbn. f_equal; [f_equal; lia|lia].
Qed.

(** ** What schema preparation leaves alone *)

Lemma prep_frame_refl s : prep_frame s s.
Proof.
  unfold prep_frame. repeat split; try reflexivity.
  exists []. now rewrite app_nil_r.
Qed.

Lemma prep_frame_trans s1 s2 s3 : prep_frame s1 s2 -> prep_frame s2 s3 -> prep_frame s1 s3.
Proof.
  unfold prep_frame.
  intros (A1 & A2 & A3 & A4 & A5 & A6 & A7 & A8 & A9 & rep1 & A10 & A11)
         (B1 & B2 & B3 & B4 & B5 & B6 & B7 & B8 & B9 & rep2 & B10 & B11).
  repeat split; try congruence.
  exists (rep1 ++ rep2). split.
  - now rewrite B10, A10, app_assoc.
  - now apply forallb_app_true.
Qed.

(** A state that differs from [s] in the schema only. *)
Lemma prep_frame_schema s s' :
  fNTupleName s' = fNTupleName s -> fDestFileName s' = fDestFileName s ->
  fSourceFile s' = fSourceFile s -> fDestFile s' = fDestFile s ->
  fWriteOptions s' = fWriteOptions s -> fIsQuiet s' = fIsQuiet s ->
  fMaxEntries s' = fMaxEntries s -> fProgressCallback s' = fProgressCallback s ->
  option_map tree_GetEntries (fSourceTree s') = option_map tree_GetEntries (fSourceTree s) ->
  fTrace s' = fTrace s ->
  prep_frame s s'.
Proof.
  intros. unfold prep_frame. repeat split; try assumption.
  exists []. rewrite app_nil_r. now split.
Qed.

Ltac frame_schema :=
  apply prep_frame_schema; proj; try reflexivity.

(** The relation kept is reflexive and transitive. *)
Section Preserving.
Variable R : RNTupleImporter -> RNTupleImporter -> Prop.
Hypothesis R_refl : forall s, R s s.
Hypothesis R_trans : forall s1 s2 s3, R s1 s2 -> R s2 s3 -> R s1 s3.

Lemma preserving_ret {A} (a : A) : preserving R (ret a).
Proof. intros s o s' H. inv H. apply R_refl. Qed.

Lemma preserving_stop {A} (o : Outcome A) : preserving R (stop o).
Proof. intros s o' s' H. inv H. apply R_refl. Qed.

Lemma preserving_deref {A} (p : option A) : preserving R (deref p).
Proof. intros s o s' H. unfold deref in H. destruct p; inv H; apply R_refl. Qed.

Lemma preserving_bind {A B} (m : M A) (k : A -> M B) :
  preserving R m -> (forall a, preserving R (k a)) -> preserving R (bind m k).
Proof.
  intros Hm Hk s o s' H. unfold bind in H.
  destruct (m s) as [o1 s1] eqn:Hms. pose proof (Hm _ _ _ Hms) as H1.
  destruct o1; try (inv H; assumption).
  eapply R_trans; [exact H1|]. eapply Hk; eauto.
Qed.

Lemma preserving_modify (f : RNTupleImporter -> RNTupleImporter) :
  (forall s, R s (f s)) -> preserving R (modify f).
Proof. intros Hf s o s' H. inv H. apply Hf. Qed.

(** A statement that first looks at the importer. *)
Lemma preserving_read {A} (m : RNTupleImporter -> M A) :
  (forall s0, preserving R (m s0)) -> preserving R (fun s => m s s).
Proof. intros Hm s o s' H. eapply Hm; eauto. Qed.

Lemma preserving_for_each {A B} (body : A -> B -> M B) (xs : list A) :
  (forall x acc, preserving R (body x acc)) -> forall acc, preserving R (for_each body xs acc).
Proof.
  intro Hbody. induction xs as [|x xs IH]; intro acc; cbn.
  - apply preserving_ret.
  - apply preserving_bind; [apply Hbody|]. intro acc'. apply IH.
Qed.
End Preserving.

Lemma framed_ret {A} (a : A) : framed (ret a).
Proof. apply preserving_ret, prep_frame_refl. Qed.

Lemma framed_stop {A} (o : Outcome A) : framed (stop o).
Proof. apply preserving_stop, prep_frame_refl. Qed.

Lemma framed_deref {A} (p : option A) : framed (deref p).
Proof. apply preserving_deref, prep_frame_refl. Qed.

Lemma framed_bind {A B} (m : M A) (k : A -> M B) :
  framed m -> (forall a, framed (k a)) -> framed (bind m k).
Proof. apply preserving_bind, prep_frame_trans. Qed.

Lemma framed_modify (f : RNTupleImporter -> RNTupleImporter) :
  (forall s, prep_frame s (f s)) -> framed (modify f).
Proof. apply preserving_modify. Qed.

Lemma framed_read {A} (m : RNTupleImporter -> M A) :
  (forall s0, framed (m s0)) -> framed (fun s => m s s).
Proof. apply preserving_read. Qed.

Lemma framed_for_each {A B} (body : A -> B -> M B) (xs : list A) :
  (forall x acc, framed (body x acc)) -> forall acc, framed (for_each body xs acc).
Proof. apply preserving_for_each; [apply prep_frame_refl|apply prep_frame_trans]. Qed.

Lemma framed_SetBranchAddress name a : framed (SetBranchAddress name a).
Proof.
  intros s o s' H. unfold SetBranchAddress, bind, deref, modify in H.
  destruct (fSourceTree s) as [t|] eqn:Ht; inv H; [|apply prep_frame_refl].
  frame_schema. now rewrite Ht.
Qed.

Lemma framed_AddToModel f : framed (AddToModel f).
Proof.
  intros s o s' H. unfold AddToModel, bind, deref, modify in H.
  destruct (fModel s) as [m|]; inv H; [|apply prep_frame_refl].
  frame_schema.
Qed.

Lemma framed_ResetSchema : framed ResetSchema.
Proof.
  apply framed_modify. intro s. frame_schema. now destruct (fSourceTree s).
Qed.

Lemma framed_ReportSchema : framed ReportSchema.
Proof.
  intros s o s' H. unfold ReportSchema, emit, modify in H. inv H.
  unfold prep_frame. cbn. repeat split.
  eexists. split; [reflexivity|].
  induction (fImportFields s); [reflexivity|assumption].
Qed.

Lemma framed_prepare_count_leaf b firstLeaf : framed (prepare_count_leaf b firstLeaf).
Proof.
  unfold prepare_count_leaf. intros s o s' H.
  destruct (StdMap.emplace _ _ _) as [m inserted].
  revert H. generalize s o s'. change (framed
    (SetBranchAddress (branch_GetName b)
       (if inserted then AddrCountVal (leaf_GetName firstLeaf) else AddrFreed) ;;;
     modify (with_fLeafCountCollections m))).
  apply framed_bind; [apply framed_SetBranchAddress|]. intros _.
  apply framed_modify. intro s0. frame_schema.
Qed.

Lemma framed_prepare_leaf env b firstLeaf l acc : framed (prepare_leaf env b firstLeaf l acc).
Proof.
  intros s o s' H. unfold prepare_leaf in H.
  destruct (LeafClass_eqb (leaf_IsA l) TLeafObject); [inv H; apply prep_frame_refl|].
  destruct (RFieldBase_Create env _ _) as [field|e]; [|inv H; apply prep_frame_refl].
  cbv zeta in H.
  match type of H with
  | context [match ?x with (maxLength, s2) => _ end] => destruct x as [maxLength s2] eqn:Hs2
  end.
  assert (F2 : prep_frame s s2).
  { clear H.
    destruct (isCString b firstLeaf); destruct (leaf_LeafCount l);
      try destruct (negb _ && negb _); try destruct (StdMap.index _ _ _);
      inv Hs2; frame_schema. }
  clear Hs2.
  destruct (isLeafList b); [inv H; exact F2|].
  destruct (leaf_LeafCount l) as [countleafName|].
  - destruct (StdMap.index default_collection countleafName (fLeafCountCollections s2))
      as [c m].
    destruct (fCollectionModel c); inv H;
      (eapply prep_frame_trans; [exact F2|frame_schema]).
  - eapply prep_frame_trans; [exact F2|]. revert H. generalize s2 o s'.
    apply framed_bind; [apply framed_AddToModel|]. intros _.
    apply framed_bind; [|intros; apply framed_ret].
    apply framed_modify. intro s0. frame_schema.
Qed.

Lemma framed_prepare_branch env b : framed (prepare_branch env b).
Proof.
  unfold prepare_branch.
  destruct (branch_GetListOfLeaves b) as [|firstLeaf leaves] eqn:Hleaves; [apply framed_stop|].
  destruct (isLeafList b && isClass firstLeaf); [apply framed_stop|].
  destruct (isLeafList b && isCountLeaf firstLeaf); [apply framed_stop|].
  destruct (isCountLeaf firstLeaf); [apply framed_prepare_count_leaf|].
  apply framed_bind; [apply framed_for_each; intros; apply framed_prepare_leaf|].
  intros [branchBufferSize recordItems]. cbn [fst snd].
  apply framed_bind.
  { destruct recordItems; [apply framed_ret|].
    apply framed_bind; [|intros; apply framed_AddToModel].
    apply framed_modify. intro s. frame_schema. }
  intros _. apply framed_bind.
  { intros s o s' H. inv H. apply prep_frame_refl. }
  intro idx. apply framed_bind.
  { destruct (isClass firstLeaf); [destruct (TClass_GetClass env _)|];
      try apply framed_SetBranchAddress; apply framed_stop. }
  intros _. apply framed_bind.
  { intros s o s' H. destruct (rev (fImportFields s)) as [|back front]; [inv H; apply prep_frame_refl|].
    destruct (Buffer_is_null (fFieldBuffer back)); inv H; [frame_schema|apply prep_frame_refl]. }
  intros _. apply framed_modify. intro s. frame_schema.
Qed.

Lemma framed_capture_fields idxs : framed (capture_fields idxs).
Proof.
  unfold capture_fields. apply framed_for_each. intros idx e s o s' H.
  destruct (nth_error (fImportFields s) idx); inv H; apply prep_frame_refl.
Qed.

Lemma framed_add_projected_fields env name idxs : framed (add_projected_fields env name idxs).
Proof.
  unfold add_projected_fields. apply framed_for_each. intros idx [] s o s' H.
  destruct (nth_error (fImportFields s) idx) as [f|]; [|inv H; apply prep_frame_refl].
  revert H. apply framed_bind; [apply framed_stop|]. intros; apply framed_AddToModel.
Qed.

Lemma framed_open_collection i c : framed (open_collection i c).
Proof.
  unfold open_collection.
  apply framed_bind; [apply framed_deref|]. intro sub.
  apply framed_bind; [apply framed_capture_fields|]. intro entry.
  apply framed_bind; [apply framed_AddToModel|]. intros _.
  apply framed_ret.
Qed.

Lemma framed_project_collection env key c : framed (project_collection env key c).
Proof.
  unfold project_collection.
  apply framed_bind; [apply framed_add_projected_fields|]. intros _.
  apply framed_bind; [apply framed_stop|]. intro pf.
  apply framed_AddToModel.
Qed.

Lemma framed_finish_collections env todo :
  forall done i, framed (finish_collections env done todo i).
Proof.
  induction todo as [|[key c] todo IH]; intros done i; cbn [finish_collections].
  - apply framed_modify. intro s. frame_schema.
  - intros s o s' H.
    destruct (open_collection i c s) as [o1 s1] eqn:HO.
    pose proof (framed_open_collection i c _ _ _ HO) as Hopen.
    destruct o1 as [c'| | |];
      try solve [inv H; eapply prep_frame_trans; [exact Hopen|frame_schema]].
    destruct (project_collection env key c' s1) as [o2 s2] eqn:HP.
    pose proof (framed_project_collection env key c' _ _ _ HP) as Hproj.
    pose proof (prep_frame_trans _ _ _ Hopen Hproj) as Hboth.
    destruct o2 as [[]| | |];
      try solve [inv H; eapply prep_frame_trans; [exact Hboth|frame_schema]].
    eapply prep_frame_trans; [exact Hboth|]. eapply IH; eauto.
Qed.

(** Schema preparation writes nothing to the destination: whatever its
    outcome, all it adds to the trace are lines of the schema report. *)
Lemma framed_PrepareSchema env : framed (PrepareSchema env).
Proof.
  unfold PrepareSchema.
  apply framed_bind; [apply framed_ResetSchema|]. intros _.
  apply framed_bind;
    [apply (framed_read (fun s0 => deref (fSourceTree s0))); intro; apply framed_deref|].
  intro tree.
  apply framed_bind; [apply framed_for_each; intros; apply framed_prepare_branch|]. intros _.
  apply framed_bind;
    [apply (framed_read (fun s0 => finish_collections env [] (fLeafCountCollections s0) 0));
     intro; apply framed_finish_collections|].
  intros _.
  apply framed_bind;
    [apply (framed_read (fun s0 => deref (fModel s0))); intro; apply framed_deref|].
  intro m.
  apply framed_bind; [apply framed_modify; intro s; frame_schema|]. intros _.
  apply framed_bind; [apply framed_modify; intro s; frame_schema|]. intros _.
  intros s o s' H. destruct (fIsQuiet s); [inv H; apply prep_frame_refl|].
  eapply framed_ReportSchema; eauto.
Qed.

(** ** The number and the order of the entries imported *)

Lemma submitted_from_neutral cur ev rest :
  forallb is_neutral ev = true ->
  submitted_from cur (ev ++ rest) = submitted_from cur rest.
Proof.
  induction ev as [|e ev IH]; intro H; [reflexivity|].
  cbn in H. apply andb_true_iff in H. destruct H as [He Hev].
  destruct e; try discriminate He; cbn; now apply IH.
Qed.

Lemma fills_neutral ev : forallb is_neutral ev = true -> fills ev = 0%nat.
Proof.
  unfold fills. induction ev as [|e ev IH]; intro H; [reflexivity|].
  cbn in H. apply andb_true_iff in H. destruct H as [He Hev].
  destruct e; try discriminate He; cbn; now apply IH.
Qed.

Lemma fills_app a b : fills (a ++ b) = (fills a + fills b)%nat.
Proof. unfold fills. now rewrite filter_app, length_app. Qed.

Lemma report_is_neutral rep :
  forallb is_EvReportSchema rep = true -> forallb is_neutral rep = true.
Proof. apply forallb_weaken. intros [] H; try discriminate H; reflexivity. Qed.

Lemma entries_to_import_min fMaxEntries nEntries :
  entries_to_import fMaxEntries nEntries =
  if 0 <=? fMaxEntries then Z.min fMaxEntries nEntries else nEntries.
Proof.
  unfold entries_to_import.
  destruct (0 <=? fMaxEntries) eqn:H0; cbn; [|reflexivity].
  destruct (fMaxEntries <? nEntries) eqn:H1; lia.
Qed.

Lemma ready_irrelevant s m cb tr :
  ready (with_fProgressCallback cb (with_fModel m (with_fTrace tr s))) = ready s.
Proof. reflexivity. Qed.

(** After a successful preparation that leaves the importer ready, [Import]
    returns success.  Its interactions are: the schema report, the sink and
    the writer, the entries [0 .. nEntries-1] one after the other, the final
    report, and the commit of the dataset. *)
Lemma Import_ok env s dest t s1 :
  fDestFile s = Some dest ->
  file_FindKey (fNTupleName s) dest = false ->
  fSourceTree s = Some t ->
  PrepareSchema env s = (Ok tt, s1) ->
  ready s1 = true ->
  exists s' rep loop fin,
    Import env s = (Ok tt, s') /\
    fTrace s1 = fTrace s ++ rep /\
    forallb is_EvReportSchema rep = true /\
    fTrace s' = fTrace s ++ rep ++ import_events s s1 loop fin /\
    (forall cur rest,
       (forall c, submitted_from c rest = submitted_from None rest) ->
       submitted_from cur (loop ++ rest)
       = entry_range 0 (Z.to_nat (entries_to_import (fMaxEntries s) (tree_GetEntries t)))
         ++ submitted_from None rest) /\
    fills loop = Z.to_nat (entries_to_import (fMaxEntries s) (tree_GetEntries t)) /\
    progress_reports 0 loop
      = (if fIsQuiet s then []
         else map (fun k => (to_size_t (0 + Z.of_nat k), S k))
                  (seq 0 (Z.to_nat (entries_to_import (fMaxEntries s) (tree_GetEntries t))))) /\
    (exists nbytes,
       fin = if fIsQuiet s then []
             else EvFinish nbytes (to_size_t (entries_to_import (fMaxEntries s) (tree_GetEntries t)))
                  :: Finish nbytes (to_size_t (entries_to_import (fMaxEntries s) (tree_GetEntries t)))).
Proof.
  intros Hdest Hkey Htree Hprep Hready.
  destruct (framed_PrepareSchema env _ _ _ Hprep)
    as (F1 & F2 & F3 & F4 & F5 & F6 & F7 & F8 & F9 & rep & Frep & Hrep).
  rewrite Htree in F9. destruct (fSourceTree s1) as [t1|] eqn:Ht1; [|discriminate F9].
  cbn in F9. injection F9 as Hentries.
  set (n := entries_to_import (fMaxEntries s) (tree_GetEntries t)).
  set (cb := if fIsQuiet s then None else Some (mkCallback gUpdateFrequencyBytes)).
  set (s2 := with_fProgressCallback cb
               (with_fModel None
                  (with_fTrace (fTrace s1 ++ [EvOpenSink (fNTupleName s) (fWriteOptions s);
                                              EvCreateWriter (fModel s1)]) s1))).
  assert (Hready2 : ready s2 = true) by exact Hready.
  destruct (import_loop_ok env (Z.to_nat n) 0 s2 Hready2)
    as (s3 & loop & Hloop & Htr3 & Hsub & Hfills & Hreps & Hsame & _).
  destruct Hsame as (S1 & S2 & S3 & S4 & S5 & S6 & S7 & S8 & S9 & S10 & S11 & S12 & S13).
  assert (Hbody :
    exists s4 fin,
      import_entries env
        (with_fTrace (fTrace s1 ++ [EvOpenSink (fNTupleName s) (fWriteOptions s);
                                    EvCreateWriter (fModel s1)]) s1)
      = (Ok tt, s4) /\
      fTrace s4 = fTrace s3 ++ fin /\ fNTupleName s4 = fNTupleName s /\
      (exists nbytes,
         fin = if fIsQuiet s then []
               else EvFinish nbytes (to_size_t n) :: Finish nbytes (to_size_t n))).
  { unfold import_entries. unfold bind at 1. cbn [modify]. unfold bind at 1. cbn [modify].
    unfold bind at 1. unfold deref. proj.
    rewrite Ht1. unfold bind at 1. proj.
    rewrite F6, F7, Hentries. fold n cb. fold s2.
    unfold bind. rewrite Hloop.
    assert (Hcb3 : is_some (fProgressCallback s3) = negb (fIsQuiet s)).
    { rewrite S13. unfold s2, cb. proj. now destruct (fIsQuiet s). }
    destruct (fProgressCallback s3) as [cb3|].
    - eexists. eexists. split; [reflexivity|]. unfold emit, modify. proj.
      split; [reflexivity|].
      split; [now rewrite S1; unfold s2; proj|].
      eexists. destruct (fIsQuiet s); [discriminate Hcb3|reflexivity].
    - exists s3, []. split; [reflexivity|]. rewrite app_nil_r. split; [reflexivity|].
      split; [now rewrite S1; unfold s2; proj|].
      exists 0. destruct (fIsQuiet s); [reflexivity|discriminate Hcb3]. }
  destruct Hbody as (s4 & fin & Hbody & Htr4 & Hname4 & Hfin).
  eexists. exists rep, loop, fin.
  split.
  { unfold Import. unfold bind at 1. unfold deref. rewrite Hdest.
    unfold bind at 1. rewrite Hkey.
    unfold bind at 1. unfold discard. rewrite Hprep.
    unfold bind at 1. unfold emit, modify. rewrite F1, F5.
    unfold with_writer. rewrite Hbody. reflexivity. }
  split; [exact Frep|]. split; [exact Hrep|].
  split.
  { unfold writer_destroyed, bind, emit, modify. proj.
    rewrite Htr4, Htr3, Hname4. unfold s2. proj. rewrite Frep.
    unfold import_events. rewrite <- !app_assoc. reflexivity. }
  split; [exact Hsub|]. split; [exact Hfills|].
  split; [|exact Hfin].
  rewrite Hreps. unfold s2, cb. proj. now destruct (fIsQuiet s).
Qed.

(** ** Finding a collection *)

Lemma find_In {V} key (c : V) m : StdMap.find key m = Some c -> In (key, c) m.
Proof.
  induction m as [|[k v] m IH]; cbn; intro H; [discriminate|].
  destruct (String.eqb key k) eqn:Hk.
  - apply String.eqb_eq in Hk. inv H. now left.
  - right. now apply IH.
Qed.

Lemma In_find_distinct {V} key (c : V) m :
  distinct_keys m = true -> In (key, c) m -> StdMap.find key m = Some c.
Proof.
  induction m as [|[k v] m IH]; cbn; intros Hd Hin; [contradiction|].
  apply andb_true_iff in Hd. destruct Hd as [Hk Hd].
  destruct Hin as [Hin|Hin].
  - inv Hin. now rewrite String.eqb_refl.
  - pose proof (IH Hd Hin) as Hf.
    destruct (String.eqb key k) eqn:Hkk; [|exact Hf].
    apply String.eqb_eq in Hkk. subst. rewrite Hf in Hk. discriminate Hk.
Qed.

(** ** A count of zero *)

Lemma import_collection_zero br fl key c :
  fCountVal c = Some 0 ->
  import_collection br fl key c
  = (Ok tt, with_fTransformations (map ResetEntry (fTransformations c)) c, []).
Proof. intro H. unfold import_collection. rewrite H. reflexivity. Qed.

(** C5: let the count cell of the collection under [key] hold 0 once entry
    [i] has been read.  Then the loop over the elements of that collection
    does not run: no transformation is invoked and no record is filled for
    it (its part of the trace is empty), its transformations are reset, and
    its writer's offset stays where it was.  In the conversion of the whole
    entry, which succeeds, no record is filled under [key], and when the
    outer entry is submitted the collection's offset is the offset it had
    before the entry: the projected sequence of this record has length 0. *)
Theorem zero_count_emits_nothing env i s key c :
  ready s = true ->
  StdMap.find key (fLeafCountCollections (snd (GetEntry i s))) = Some c ->
  fCountVal c = Some 0 ->
  import_collection (fImportBranches s) (fImportFields s) key c
    = (Ok tt, with_fTransformations (map ResetEntry (fTransformations c)) c, []) /\
  exists s' evs c',
    import_entry env i s = (Ok tt, s') /\
    fTrace s' = fTrace s ++ evs /\
    ~ In (EvCollectionFill key) evs /\
    StdMap.find key (fLeafCountCollections s') = Some c' /\
    fCollectionWriter c' = fCollectionWriter c /\
    projected_length c c' = Some 0.
Proof.
  intros Hready Hfind Hzero.
  pose proof (ready_distinct s Hready) as Hdist.
  pose proof (import_collection_zero (fImportBranches s) (fImportFields s) key c Hzero) as Hcoll.
  split; [exact Hcoll|].
  destruct (import_entry_ok env i s Hready)
    as (s' & t & cs0 & evT & entry & prog & Hrun & Ht & Hdel & Hsb & Hcs' & Htr & HevT & HnfT
        & Hprog & _ & Hentry & _ & Hready' & _).
  rewrite (GetEntry_collections i s t cs0 Ht Hdel) in Hfind. proj in Hfind.
  set (br := fImportBranches s) in *. set (fl := fImportFields s) in *.
  assert (Hdist0 : distinct_keys cs0 = true).
  { rewrite (distinct_keys_same_keys _ _ (same_but_cells_keys _ _ Hsb)). exact Hdist. }
  set (c' := with_fTransformations (map ResetEntry (fTransformations c)) c).
  assert (Hafter : snd (collection_after br fl (key, c)) = c').
  { unfold collection_after. cbn. now rewrite Hcoll. }
  eexists s', _, c'.
  split; [exact Hrun|]. split; [exact Htr|]. split.
  { intro Hin. destruct Hin as [Hin|Hin]; [discriminate Hin|].
    apply in_app_or in Hin. destruct Hin as [Hin|Hin].
    - apply in_flat_map in Hin. destruct Hin as ([k c1] & Hin1 & Hin2).
      unfold collection_events in Hin2. cbn [fst snd] in Hin2.
      destruct (import_collection br fl k c1) as [[o1 c2] ev1] eqn:HI. cbn [fst snd] in Hin2.
      destruct (import_collection_events _ _ _ _ _ _ _ HI) as (_ & Hk & _).
      pose proof (Hk _ Hin2) as Hkey. subst k.
      pose proof (In_find_distinct key c1 cs0 Hdist0 Hin1) as Hf.
      rewrite Hfind in Hf. inv Hf. rewrite Hcoll in HI. inv HI. contradiction.
    - apply in_app_or in Hin. destruct Hin as [Hin|Hin]; [now apply (HnfT key)|].
      destruct Hin as [Hin|Hin]; [discriminate Hin|].
      rewrite forallb_forall in Hprog. specialize (Hprog _ Hin). discriminate Hprog. }
  split.
  { rewrite Hcs', find_collection_after, Hfind. cbn [option_map]. now rewrite Hafter. }
  split; [reflexivity|].
  unfold projected_length, c'. cbn.
  destruct (ready_parts s Hready) as (_ & _ & _ & _ & Hcs & _).
  pose proof (same_but_cells_ok _ _ _ _ Hsb Hcs) as Hcs0.
  unfold collections_ok in Hcs0. rewrite forallb_forall in Hcs0.
  pose proof (Hcs0 _ (find_In _ _ _ Hfind)) as Hok.
  destruct (collection_ok_parts _ _ _ Hok) as (v & o & e & _ & Ho & _).
  cbn in Ho. rewrite Ho. f_equal. lia.
Qed.

Lemma zero_count_emits_nothing_witness :
  ready (Scenario.prepared Scenario.tree) = true /\
  exists c,
    StdMap.find "n" (fLeafCountCollections (snd (GetEntry 0 (Scenario.prepared Scenario.tree))))
      = Some c /\
    fCountVal c = Some 0 /\
    import_collection (fImportBranches (Scenario.prepared Scenario.tree))
                      (fImportFields (Scenario.prepared Scenario.tree)) "n" c
      = (Ok tt, with_fTransformations (map ResetEntry (fTransformations c)) c, []).
Proof.
  split; [vm_compute; reflexivity|].
  eexists. split; [vm_compute; reflexivity|]. split; [reflexivity|].
  eapply (zero_count_emits_nothing (Scenario.env [] true) 0 (Scenario.prepared Scenario.tree) "n");
    vm_compute; reflexivity.
Defined.

(** ** Reads of the element transformations *)

(** Projections of updated collections, and nothing else, are computed. *)
Ltac projc :=
  cbn [fCollectionModel fCollectionWriter fCollectionEntry fFieldName fMaxLength fCountVal
       fImportFieldIndexes fTransformations
       with_fCollectionModel with_fCollectionWriter with_fCollectionEntry with_fFieldName
       with_fCountVal with_fImportFieldIndexes with_fTransformations fst snd].

Tactic Notation "projc" "in" hyp(H) :=
  cbn [fCollectionModel fCollectionWriter fCollectionEntry fFieldName fMaxLength fCountVal
       fImportFieldIndexes fTransformations
       with_fCollectionModel with_fCollectionWriter with_fCollectionEntry with_fFieldName
       with_fCountVal with_fImportFieldIndexes with_fTransformations fst snd] in H.

Lemma size_t_modulus_eq : size_t_modulus = 18446744073709551616.
Proof. reflexivity. Qed.















(** ** The size of a branch buffer *)

Lemma compare_refl k : String.compare k k = Eq.
Proof.
  pose proof (String.compare_antisym k k) as H.
  destruct (String.compare k k); cbn in H; congruence.
Qed.

Lemma compare_neq_eqb k k' : String.compare k k' <> Eq -> String.eqb k k' = false.
Proof.
  intro H. apply String.eqb_neq. intro Heq. apply H. subst. apply compare_refl.
Qed.

Lemma find_put_same {V} k (v : V) m : StdMap.find k (StdMap.put k v m) = Some v.
Proof.
  induction m as [|[k0 v0] m IH]; cbn.
  - now rewrite String.eqb_refl.
  - destruct (String.compare k k0) eqn:Hc; cbn.
    + now rewrite String.eqb_refl.
    + now rewrite String.eqb_refl.
    + rewrite compare_neq_eqb by congruence. exact IH.
Qed.

Lemma find_put_other {V} k k' (v : V) m :
  k' <> k -> StdMap.find k' (StdMap.put k v m) = StdMap.find k' m.
Proof.
  intro Hne. apply String.eqb_neq in Hne.
  induction m as [|[k0 v0] m IH]; cbn.
  - now rewrite Hne.
  - destruct (String.compare k k0) eqn:Hc; cbn.
    + apply String.compare_eq_iff in Hc. subst k0. now rewrite Hne.
    + now rewrite Hne.
    + now rewrite IH.
Qed.

Lemma find_replace_same {V} k (v : V) m :
  StdMap.find k (StdMap.replace k v m) = option_map (fun _ => v) (StdMap.find k m).
Proof.
  induction m as [|[k0 v0] m IH]; cbn; [reflexivity|].
  destruct (String.eqb k k0) eqn:Hk; cbn; rewrite Hk; [reflexivity|exact IH].
Qed.

Lemma find_replace_other {V} k k' (v : V) m :
  k' <> k -> StdMap.find k' (StdMap.replace k v m) = StdMap.find k' m.
Proof.
  intro Hne.
  induction m as [|[k0 v0] m IH]; cbn; [reflexivity|].
  destruct (String.eqb k k0) eqn:Hk; cbn.
  - apply String.eqb_eq in Hk. subst k0.
    apply String.eqb_neq in Hne. now rewrite Hne.
  - now rewrite IH.
Qed.

(** Looking a collection up with [operator[]] does not change the maximum
    that is found under any key. *)
Lemma maxLength_of_index key cs :
  fMaxLength (fst (StdMap.index default_collection key cs)) = maxLength_of cs (Some key) /\
  forall k, maxLength_of (snd (StdMap.index default_collection key cs)) k = maxLength_of cs k.
Proof.
  unfold StdMap.index, maxLength_of.
  destruct (StdMap.find key cs) as [c|] eqn:Hf; cbn [fst snd].
  - split; [reflexivity|]. intros [k|]; reflexivity.
  - split; [reflexivity|]. intros [k|]; [|reflexivity].
    destruct (String.eqb k key) eqn:Hk.
    + apply String.eqb_eq in Hk. subst k. now rewrite find_put_same, Hf.
    + apply String.eqb_neq in Hk. now rewrite find_put_other.
Qed.

Lemma maxLength_of_replace key c c' cs :
  StdMap.find key cs = Some c ->
  fMaxLength c' = fMaxLength c ->
  forall k, maxLength_of (StdMap.replace key c' cs) k = maxLength_of cs k.
Proof.
  intros Hf Hmax [k|]; [|reflexivity]. unfold maxLength_of.
  destruct (String.eqb k key) eqn:Hk.
  - apply String.eqb_eq in Hk. subst k. rewrite find_replace_same, Hf. cbn. exact Hmax.
  - apply String.eqb_neq in Hk. now rewrite find_replace_other.
Qed.

Lemma index_find key cs :
  StdMap.find key (snd (StdMap.index default_collection key cs))
  = Some (fst (StdMap.index default_collection key cs)).
Proof.
  unfold StdMap.index. destruct (StdMap.find key cs) as [c|] eqn:Hf; cbn [fst snd].
  - exact Hf.
  - apply find_put_same.
Qed.

(** The maximum is only looked at for a counted array of a branch that is
    neither a C string nor of class type. *)
Lemma leafBufferSize_irrelevant b firstLeaf l field m1 m2 :
  negb (isCString b firstLeaf) && negb (isClass firstLeaf) && isLeafCountArray l = false ->
  leafBufferSize b firstLeaf l field m1 = leafBufferSize b firstLeaf l field m2.
Proof.
  unfold leafBufferSize.
  destruct (isCString b firstLeaf), (isClass firstLeaf), (isLeafCountArray l);
    cbn; intro H; try reflexivity; discriminate H.
Qed.

(** One leaf: the size it assigns, and what it leaves alone. *)
Lemma prepare_leaf_size env b firstLeaf l acc s acc' s' :
  prepare_leaf env b firstLeaf l acc s = (Ok acc', s') ->
  fImportBranches s' = fImportBranches s /\
  (forall k, maxLength_of (fLeafCountCollections s') k = maxLength_of (fLeafCountCollections s) k) /\
  exists field,
    RFieldBase_Create env (fieldName b l) (fieldType b firstLeaf l) = Success field /\
    fst acc' = leafBufferSize b firstLeaf l field
                 (maxLength_of (fLeafCountCollections s) (leaf_LeafCount l)).
Proof.
  intro H. unfold prepare_leaf in H.
  destruct (LeafClass_eqb (leaf_IsA l) TLeafObject); [discriminate H|].
  destruct (RFieldBase_Create env _ _) as [field|e]; [|discriminate H].
  cbv zeta in H.
  match type of H with
  | context [match ?x with (maxLength, s2) => _ end] => destruct x as [maxLength s2] eqn:Hs2
  end.
  assert (F2 : fImportBranches s2 = fImportBranches s /\
               fImportFields s2 = fImportFields s /\
               (forall k, maxLength_of (fLeafCountCollections s2) k
                          = maxLength_of (fLeafCountCollections s) k) /\
               leafBufferSize b firstLeaf l field maxLength
               = leafBufferSize b firstLeaf l field
                   (maxLength_of (fLeafCountCollections s) (leaf_LeafCount l))).
  { clear H. unfold isLeafCountArray, has_LeafCounter in *.
    destruct (leaf_LeafCount l) as [countleafName|] eqn:Hcount.
    - destruct (negb (isCString b firstLeaf) && negb (isClass firstLeaf)) eqn:Hcond.
      + destruct (maxLength_of_index countleafName
                    (fLeafCountCollections
                       (if isCString b firstLeaf
                        then with_fImportTransformations
                               (fImportTransformations s ++
                                [RCStringTransformation (List.length (fImportBranches s))
                                                        (List.length (fImportFields s))]) s
                        else s))) as (Hmax & Hkeep).
        destruct (StdMap.index _ _ _) as [c m]. cbn [fst snd] in Hmax, Hkeep. inv Hs2.
        destruct (isCString b firstLeaf); proj; proj in Hkeep; proj in Hmax;
          repeat split; auto; now rewrite Hmax.
      + inv Hs2.
        assert (Hirr : leafBufferSize b firstLeaf l field 0
                       = leafBufferSize b firstLeaf l field
                           (maxLength_of (fLeafCountCollections s) (Some countleafName)))
          by (apply leafBufferSize_irrelevant; now rewrite Hcond).
        destruct (isCString b firstLeaf); proj; repeat split; auto.
    - inv Hs2. destruct (isCString b firstLeaf); proj; repeat split; auto. }
  destruct F2 as (Fbr & Ffl & Fmax & Fsize). clear Hs2.
  destruct (isLeafList b).
  - inv H. split; [exact Fbr|]. split; [exact Fmax|]. exists field. split; [reflexivity|exact Fsize].
  - destruct (leaf_LeafCount l) as [countleafName|].
    + pose proof (maxLength_of_index countleafName (fLeafCountCollections s2)) as (Hmax & Hkeep).
      pose proof (index_find countleafName (fLeafCountCollections s2)) as Hfind.
      destruct (StdMap.index default_collection countleafName (fLeafCountCollections s2))
        as [c m]. cbn [fst snd] in *. cbv beta iota in H.
      destruct (fCollectionModel c); [|discriminate H]. inv H. proj.
      split; [exact Fbr|]. split.
      * intro k. rewrite (maxLength_of_replace countleafName c _ m Hfind); [|reflexivity].
        now rewrite Hkeep.
      * exists field. split; [reflexivity|exact Fsize].
    + cbv beta iota delta [bind AddToModel deref modify ret] in H.
      destruct (fModel s2); [|discriminate H]. inv H. proj.
      split; [exact Fbr|]. split; [exact Fmax|]. exists field. split; [reflexivity|exact Fsize].
Qed.

(** All leaves of a branch: the size that is left in [branchBufferSize] is
    the one assigned for the last leaf. *)
Lemma prepare_leaves_size env b firstLeaf leaves :
  forall acc s acc' s',
    for_each (prepare_leaf env b firstLeaf) leaves acc s = (Ok acc', s') ->
    fImportBranches s' = fImportBranches s /\
    (forall k, maxLength_of (fLeafCountCollections s') k
               = maxLength_of (fLeafCountCollections s) k) /\
    forall front l,
      leaves = front ++ [l] ->
      exists field,
        RFieldBase_Create env (fieldName b l) (fieldType b firstLeaf l) = Success field /\
        fst acc' = leafBufferSize b firstLeaf l field
                     (maxLength_of (fLeafCountCollections s) (leaf_LeafCount l)).
Proof.
  induction leaves as [|x rest IH]; intros acc s acc' s' H.
  - inv H. split; [reflexivity|]. split; [reflexivity|].
    intros [|x0 front0] l Hl; discriminate Hl.
  - cbn [for_each] in H. unfold bind in H.
    destruct (prepare_leaf env b firstLeaf x acc s) as [o1 s1] eqn:Hx.
    destruct o1 as [acc1| | |]; try discriminate H.
    destruct (prepare_leaf_size _ _ _ _ _ _ _ _ Hx) as (Hbr1 & Hmax1 & field & Hcreate & Hsize).
    destruct (IH _ _ _ _ H) as (Hbr & Hmax & Hlast).
    split; [congruence|]. split; [intro k; now rewrite Hmax, Hmax1|].
    intros front l Hl. destruct rest as [|y rest'].
    + destruct front as [|x0 [|x1 front1]]; try discriminate Hl. inv Hl.
      inv H. exists field. split; assumption.
    + destruct front as [|x' front']; [discriminate Hl|]. inv Hl.
      destruct (Hlast front' l H2) as (field' & Hcreate' & Hsize').
      exists field'. split; [exact Hcreate'|]. now rewrite Hsize', Hmax1.
Qed.

Lemma keeps_branches_bind {A B} (m : M A) (k : A -> M B) :
  keeps_branches m -> (forall a, keeps_branches (k a)) -> keeps_branches (bind m k).
Proof. apply preserving_bind. intros; congruence. Qed.

Lemma keeps_branches_SetBranchAddress name a : keeps_branches (SetBranchAddress name a).
Proof.
  intros s o s' H. cbv beta iota delta [SetBranchAddress bind deref modify] in H.
  destruct (fSourceTree s); inv H; reflexivity.
Qed.

Lemma keeps_branches_AddToModel f : keeps_branches (AddToModel f).
Proof.
  intros s o s' H. cbv beta iota delta [AddToModel bind deref modify] in H.
  destruct (fModel s); inv H; reflexivity.
Qed.

(** C7 (amended): for a branch whose first leaf is no count leaf, a
    successful [prepare_branch] appends exactly one import branch, named
    after the branch, whose buffer has the size assigned for the last leaf
    [l] of the branch (the only leaf, unless the branch is a leaf list).
    In size_t arithmetic this size is:
    the leaf's maximum, for a C string;
    sizeof(void * ) times the leaf's count, for a branch of class type;
    the fMaxLength registered under the leaf counter's name (0 when none is
    registered) times the value size of the field, for a counted array;
    the leaf's offset plus the value size of the field, otherwise. *)
Theorem branch_buffer_size env b firstLeaf front l s s' :
  branch_GetListOfLeaves b = front ++ [l] ->
  hd_error (branch_GetListOfLeaves b) = Some firstLeaf ->
  isCountLeaf firstLeaf = false ->
  prepare_branch env b s = (Ok tt, s') ->
  exists field,
    RFieldBase_Create env (fieldName b l) (fieldType b firstLeaf l) = Success field /\
    fImportBranches s' =
      fImportBranches s ++
      [mkImportBranch (branch_GetName b)
         (if isCString b firstLeaf then to_size_t (leaf_GetMaximum l)
          else if isClass firstLeaf
               then to_size_t (sizeof_voidp * to_size_t (leaf_Countval l))
          else if isLeafCountArray l
               then to_size_t
                      (to_size_t (maxLength_of (fLeafCountCollections s) (leaf_LeafCount l))
                       * field_GetValueSize field)
          else to_size_t (to_size_t (leaf_GetOffset l) + field_GetValueSize field))].
Proof.
  intros Hleaves Hfirst Hcount H. unfold prepare_branch in H.
  destruct (branch_GetListOfLeaves b) as [|firstLeaf' leaves] eqn:Hl; [discriminate Hfirst|].
  cbn [hd_error] in Hfirst. inv Hfirst.
  destruct (isLeafList b && isClass firstLeaf); [discriminate H|].
  destruct (isLeafList b && isCountLeaf firstLeaf); [discriminate H|].
  rewrite Hcount in H.
  cbv beta iota delta [bind] in H.
  destruct (for_each (prepare_leaf env b firstLeaf) (firstLeaf :: leaves) (0, []) s)
    as [o1 s1] eqn:Hloop.
  destruct o1 as [[branchBufferSize recordItems]| | |]; try discriminate H.
  destruct (prepare_leaves_size _ _ _ _ _ _ _ _ Hloop) as (Hbr1 & _ & Hlast).
  destruct (Hlast front l Hleaves) as (field & Hcreate & Hsize).
  cbn [fst snd] in H, Hsize.
  exists field. split; [exact Hcreate|].
  fold (leafBufferSize b firstLeaf l field
          (maxLength_of (fLeafCountCollections s) (leaf_LeafCount l))).
  rewrite <- Hsize, <- Hbr1.
  (* the record field of a leaf list *)
  assert (Hrec : keeps_branches
            (match recordItems with
             | [] => ret tt
             | _ :: _ =>
                 modify (fun s => with_fImportFields
                                    (fImportFields s ++
                                     [mkImportField (RRecordField (branch_GetName b) recordItems)
                                                    NullBuffer false false false]) s) ;;;
                 AddToModel (TopField (RRecordField (branch_GetName b) recordItems))
             end)).
  { destruct recordItems.
    - apply preserving_ret. reflexivity.
    - apply keeps_branches_bind; [|intros; apply keeps_branches_AddToModel].
      apply preserving_modify. reflexivity. }
  match type of H with
  | match ?x with _ => _ end = _ => destruct x as [o2 s2] eqn:Hrec2
  end.
  assert (Hbr2 : fImportBranches s2 = fImportBranches s1).
  { apply (Hrec s1 o2 s2). rewrite <- Hrec2. destruct recordItems; reflexivity. }
  destruct o2; try discriminate H.
  (* the address of the branch *)
  assert (Hset : forall idx, keeps_branches
            (if isClass firstLeaf
             then if TClass_GetClass env (branch_GetClassName b)
                  then SetBranchAddress (branch_GetName b) (AddrBranchBuffer idx)
                  else stop (Failed ("unable to load class " +++ branch_GetClassName b
                                     +++ " for branch " +++ branch_GetName b))
             else SetBranchAddress (branch_GetName b) (AddrBranchBuffer idx))).
  { intro idx. destruct (isClass firstLeaf); [destruct (TClass_GetClass env _)|];
      try apply keeps_branches_SetBranchAddress. apply preserving_stop. reflexivity. }
  match type of H with
  | match ?x with _ => _ end = _ => destruct x as [o3 s3] eqn:Hset3
  end.
  assert (Hbr3 : fImportBranches s3 = fImportBranches s2)
    by (exact (Hset _ s2 o3 s3 Hset3)).
  destruct o3; try discriminate H.
  destruct (rev (fImportFields s3)) as [|back frontf]; [discriminate H|].
  destruct (Buffer_is_null (fFieldBuffer back)); inv H; proj; congruence.
Qed.

(** ** Schema preparation leaves the importer ready *)

Lemma find_None_not_In {V} k (m : list (string * V)) :
  StdMap.find k m = None -> forall v, ~ In (k, v) m.
Proof.
  induction m as [|[k0 v0] m IH]; cbn; intros H v Hin; [contradiction|].
  destruct (String.eqb k k0) eqn:Hk; [discriminate H|].
  destruct Hin as [Hin|Hin].
  - inv Hin. rewrite String.eqb_refl in Hk. discriminate Hk.
  - exact (IH H v Hin).
Qed.

Lemma In_put {V} k (v : V) m k' v' :
  In (k', v') (StdMap.put k v m) -> (k', v') = (k, v) \/ In (k', v') m.
Proof.
  induction m as [|[k0 v0] m IH]; cbn.
  - intros [H|[]]. now left.
  - destruct (String.compare k k0); cbn.
    + intros [H|H]; [now left|right; now right].
    + intros [H|H]; [now left|now right].
    + intros [H|H]; [right; now left|].
      destruct (IH H) as [H'|H']; [now left|right; now right].
Qed.

Lemma In_put_old {V} k (v : V) m k' v' :
  StdMap.find k m = None -> In (k', v') m -> In (k', v') (StdMap.put k v m).
Proof.
  induction m as [|[k0 v0] m IH]; cbn; intros Hf Hin; [contradiction|].
  destruct (String.eqb k k0) eqn:Hk; [discriminate Hf|].
  destruct (String.compare k k0) eqn:Hc; cbn.
  - apply String.compare_eq_iff in Hc. subst. rewrite String.eqb_refl in Hk. discriminate Hk.
  - now right.
  - destruct Hin as [Hin|Hin]; [now left|right; now apply IH].
Qed.


Lemma find_put_is_some {V} k (v : V) m key :
  is_some (StdMap.find key m) = true -> is_some (StdMap.find key (StdMap.put k v m)) = true.
Proof.
  intro H. destruct (String.eqb key k) eqn:Hk.
  - apply String.eqb_eq in Hk. subst. now rewrite find_put_same.
  - apply String.eqb_neq in Hk. now rewrite find_put_other.
Qed.

Lemma map_fst_replace {V} k (v : V) m : map fst (StdMap.replace k v m) = map fst m.
Proof.
  induction m as [|[k0 v0] m IH]; cbn; [reflexivity|].
  destruct (String.eqb k k0); cbn; [reflexivity|now rewrite IH].
Qed.

Lemma nth_error_Some_lt {A} (l : list A) n : (n < List.length l)%nat <-> nth_error l n <> None.
Proof. symmetry. apply nth_error_Some. Qed.

Lemma tok_transformation_ok br fl t :
  tok (List.length br) fl t -> transformation_ok br fl t = true.
Proof.
  intros (Hlt & f & Hf & Hnull). unfold transformation_ok.
  destruct (nth_error br (fImportBranchIdx t)) eqn:Hb.
  - now rewrite Hf, Hnull.
  - apply nth_error_None in Hb. lia.
Qed.

Lemma tok_weaken n n' fl ext t : (n <= n')%nat -> tok n fl t -> tok n' (fl ++ ext) t.
Proof.
  intros Hle (Hlt & f & Hf & Hnull). split; [lia|].
  exists f. split; [|exact Hnull].
  rewrite nth_error_app1; [exact Hf|]. apply nth_error_Some. congruence.
Qed.

Lemma tok_same n fl t : tok n fl t -> tok n (fl ++ []) t.
Proof. now rewrite app_nil_r. Qed.

(** Giving the last field a buffer keeps every transformation in order. *)
Lemma tok_set_last n front back buf t :
  Buffer_is_null buf = false ->
  tok n (front ++ [back]) t -> tok n (front ++ [with_fFieldBuffer buf back]) t.
Proof.
  intros Hbuf (Hlt & f & Hf & Hnull). split; [exact Hlt|].
  destruct (Nat.lt_ge_cases (fImportFieldIdx t) (List.length front)) as [Hi|Hi].
  - exists f. rewrite nth_error_app1 in Hf |- * by assumption. now split.
  - assert (Hidx : fImportFieldIdx t = List.length front).
    { assert (fImportFieldIdx t < List.length (front ++ [back]))%nat
        by (apply nth_error_Some; congruence).
      rewrite length_app in H. cbn in H. lia. }
    exists (with_fFieldBuffer buf back). rewrite Hidx, nth_error_app2, Nat.sub_diag by lia.
    split; [reflexivity|exact Hbuf].
Qed.

Lemma doomed_put k c cs :
  StdMap.find k cs = None -> doomed cs -> doomed (StdMap.put k c cs).
Proof.
  intros Hf (k0 & c0 & Hin & Hm). exists k0, c0. split; [|exact Hm].
  now apply In_put_old.
Qed.

Lemma address_ok_put k c cs na :
  address_ok cs na = true -> address_ok (StdMap.put k c cs) na = true.
Proof.
  unfold address_ok. destruct (snd na); auto. apply find_put_is_some.
Qed.

Lemma addresses_ok_put k c cs addrs :
  forallb (address_ok cs) addrs = true ->
  forallb (address_ok (StdMap.put k c cs)) addrs = true.
Proof. apply forallb_weaken. intros na. apply address_ok_put. Qed.

Lemma forallb_set_address (p : string * Address -> bool) name a addrs :
  (forall n, p (n, a) = true) ->
  forallb p addrs = true -> forallb p (set_address name a addrs) = true.
Proof.
  intro Hnew. induction addrs as [|[n a0] addrs IH]; cbn; intro H.
  - now rewrite Hnew.
  - apply andb_true_iff in H. destruct H as [H0 H].
    destruct (String.eqb n name); cbn.
    + now rewrite Hnew, H.
    + now rewrite H0, IH.
Qed.

Lemma schema_inv_more_names n names names' s :
  (forall k, In k names -> In k names') -> schema_inv n names s -> schema_inv n names' s.
Proof.
  intros Hsub [H1 H2 H3 H4 H5]. constructor; auto.
  intros k c Hin Hm. apply Hsub. eapply H4; eauto.
Qed.

(** A count leaf. *)
Lemma prepare_count_leaf_inv n names b firstLeaf s s' :
  schema_inv n names s ->
  ~ In (leaf_GetName firstLeaf) names ->
  prepare_count_leaf b firstLeaf s = (Ok tt, s') ->
  schema_inv n (names ++ [leaf_GetName firstLeaf]) s' /\
  fImportBranches s' = fImportBranches s /\ fImportFields s' = fImportFields s.
Proof.
  intros [Htop Hsub Hcell Hnames Haddr] Hnew H.
  unfold prepare_count_leaf, StdMap.emplace in H.
  destruct (StdMap.find (leaf_GetName firstLeaf) (fLeafCountCollections s)) as [c|] eqn:Hfind;
    cbv beta iota delta [bind SetBranchAddress deref modify] in H;
    destruct (fSourceTree s) as [t|] eqn:Ht; try discriminate H; inv H.
  - (* the key is taken *)
    split; [|split; reflexivity].
    pose proof (find_In _ _ _ Hfind) as Hin.
    destruct (fCollectionModel c) eqn:Hm.
    + exfalso. apply Hnew. eapply Hnames; [exact Hin|congruence].
    + constructor; proj; auto.
      * intros k c0 Hin0 Hm0. apply in_or_app. left. eapply Hnames; eauto.
      * left. now exists (leaf_GetName firstLeaf), c.
  - (* the collection is inserted *)
    split; [|split; reflexivity].
    constructor; proj.
    + exact Htop.
    + intros k c t0 Hin Ht0. apply In_put in Hin. destruct Hin as [Hin|Hin].
      * inv Hin. destruct Ht0.
      * eapply Hsub; eauto.
    + intros k c Hin Hm. apply In_put in Hin. destruct Hin as [Hin|Hin].
      * inv Hin. discriminate.
      * eapply Hcell; eauto.
    + intros k c Hin Hm. apply in_or_app. apply In_put in Hin. destruct Hin as [Hin|Hin].
      * inv Hin. right. now left.
      * left. eapply Hnames; eauto.
    + destruct Haddr as [Hd|Ha]; [left; now apply doomed_put|right].
      intros t0 Ht0. proj in Ht0. inv Ht0. cbn [tree_BranchAddress tree_SetBranchAddress with_BranchAddress].
      apply forallb_set_address.
      * intro nm. unfold address_ok. cbn. now rewrite find_put_same.
      * apply addresses_ok_put. now apply Ha.
Qed.

Lemma schema_inv_collections n names s :
  schema_inv n names s ->
  collections_inv n names (fImportFields s) (fLeafCountCollections s).
Proof. intros [H1 H2 H3 H4 H5]. split; [exact H2|split; [exact H3|exact H4]]. Qed.

Lemma In_index k cs k0 c0 :
  In (k0, c0) (snd (StdMap.index default_collection k cs)) ->
  In (k0, c0) cs \/ c0 = default_collection.
Proof.
  unfold StdMap.index. destruct (StdMap.find k cs); cbn [snd]; [now left|].
  intro H. apply In_put in H. destruct H as [H|H]; [inv H; now right|now left].
Qed.

Lemma collections_inv_index n names fl k cs :
  collections_inv n names fl cs ->
  collections_inv n names fl (snd (StdMap.index default_collection k cs)).
Proof.
  intros (Hsub & Hcell & Hnames). split; [|split].
  - intros k0 c0 t Hin Ht. apply In_index in Hin. destruct Hin as [Hin|Hin].
    + eapply Hsub; eauto.
    + subst. destruct Ht.
  - intros k0 c0 Hin Hm. apply In_index in Hin. destruct Hin as [Hin|Hin].
    + eapply Hcell; eauto.
    + subst. now elim Hm.
  - intros k0 c0 Hin Hm. apply In_index in Hin. destruct Hin as [Hin|Hin].
    + eapply Hnames; eauto.
    + subst. now elim Hm.
Qed.

Lemma collections_inv_fields n names fl ext cs :
  collections_inv n names fl cs -> collections_inv n names (fl ++ ext) cs.
Proof.
  intros (Hsub & Hcell & Hnames). split; [|split; assumption].
  intros k c t Hin Ht. eapply tok_weaken; [reflexivity|]. eapply Hsub; eauto.
Qed.

Lemma collections_inv_replace n names fl k c c' m :
  collections_inv n names fl m ->
  StdMap.find k m = Some c ->
  fCollectionModel c <> None ->
  fCountVal c' = fCountVal c ->
  (forall t, In t (fTransformations c') -> In t (fTransformations c) \/ tok n fl t) ->
  collections_inv n names fl (StdMap.replace k c' m).
Proof.
  intros (Hsub & Hcell & Hnames) Hfind Hm Hcv Hts.
  pose proof (find_In _ _ _ Hfind) as Hin.
  assert (Hkey : forall k0 c0, In (k0, c0) (StdMap.replace k c' m) ->
                               In (k0, c0) m \/ (c0 = c' /\ k0 = k)).
  { clear - Hfind. induction m as [|[k1 c1] m IH]; cbn in *; [intros ? ? []|].
    intros k0 c0. destruct (String.eqb k k1) eqn:Hk; cbn.
    - apply String.eqb_eq in Hk. subst k1.
      intros [H|H]; [inv H; now right|left; now right].
    - intros [H|H]; [left; now left|].
      destruct (IH Hfind _ _ H) as [H'|H']; [left; now right|now right]. }
  split; [|split].
  - intros k0 c0 t Hin0 Ht. destruct (Hkey _ _ Hin0) as [H|[-> ->]].
    + eapply Hsub; eauto.
    + destruct (Hts t Ht) as [Hold|Hnew]; [eapply Hsub; eauto|exact Hnew].
  - intros k0 c0 Hin0 Hm0. destruct (Hkey _ _ Hin0) as [H|[-> ->]].
    + eapply Hcell; eauto.
    + rewrite Hcv. eapply Hcell; eauto.
  - intros k0 c0 Hin0 Hm0. destruct (Hkey _ _ Hin0) as [H|[-> ->]].
    + eapply Hnames; eauto.
    + eapply Hnames; eauto.
Qed.

Lemma doomed_index k cs :
  doomed cs -> doomed (snd (StdMap.index default_collection k cs)).
Proof.
  unfold StdMap.index. destruct (StdMap.find k cs) eqn:Hf; cbn [snd]; [auto|].
  now apply doomed_put.
Qed.

Lemma doomed_replace k c c' m :
  StdMap.find k m = Some c -> fCollectionModel c <> None ->
  doomed m -> doomed (StdMap.replace k c' m).
Proof.
  intros Hfind Hm (k0 & c0 & Hin & Hnone).
  exists k0, c0. split; [|exact Hnone].
  revert Hfind Hin. induction m as [|[k1 c1] m IH]; cbn; [intros _ []|].
  destruct (String.eqb k k1) eqn:Hk; cbn.
  - intros Hf [H|H]; [|now right]. inv Hf. inv H. congruence.
  - intros Hf [H|H]; [now left|right; now apply IH].
Qed.

Lemma addresses_ok_index k cs addrs :
  forallb (address_ok cs) addrs = true ->
  forallb (address_ok (snd (StdMap.index default_collection k cs))) addrs = true.
Proof.
  unfold StdMap.index. destruct (StdMap.find k cs); cbn [snd]; [auto|].
  apply addresses_ok_put.
Qed.

Lemma addresses_ok_replace k c cs addrs :
  forallb (address_ok cs) addrs = true ->
  forallb (address_ok (StdMap.replace k c cs)) addrs = true.
Proof.
  intro H. rewrite (addresses_ok_same_keys cs); [exact H|apply map_fst_replace].
Qed.

Lemma isCString_not_leaf_list b firstLeaf : isCString b firstLeaf = true -> isLeafList b = false.
Proof.
  unfold isCString. rewrite !andb_true_iff, negb_true_iff. tauto.
Qed.

(** One leaf, while the branch it belongs to has not been registered yet. *)
Lemma prepare_leaf_inv env n names b firstLeaf l acc s acc' s' :
  schema_inv n names s ->
  (List.length (fImportBranches s) < n)%nat ->
  prepare_leaf env b firstLeaf l acc s = (Ok acc', s') ->
  schema_inv n names s' /\
  fImportBranches s' = fImportBranches s /\ fSourceTree s' = fSourceTree s.
Proof.
  intros Hinv Hn H.
  pose proof (schema_inv_collections _ _ _ Hinv) as Hcs.
  destruct Hinv as [Htop _ _ _ Haddr].
  unfold prepare_leaf in H.
  destruct (LeafClass_eqb (leaf_IsA l) TLeafObject); [discriminate H|].
  destruct (RFieldBase_Create env _ _) as [field|e]; [|discriminate H].
  cbv zeta in H.
  match type of H with
  | context [match ?x with (maxLength, s2) => _ end] => destruct x as [maxLength s2] eqn:Hs2
  end.
  (* the importer once the size has been computed *)
  assert (F2 : fImportBranches s2 = fImportBranches s /\
               fImportFields s2 = fImportFields s /\
               fSourceTree s2 = fSourceTree s /\
               fImportTransformations s2 =
                 (if isCString b firstLeaf
                  then fImportTransformations s ++
                       [RCStringTransformation (List.length (fImportBranches s))
                                               (List.length (fImportFields s))]
                  else fImportTransformations s) /\
               collections_inv n names (fImportFields s) (fLeafCountCollections s2) /\
               (doomed (fLeafCountCollections s) -> doomed (fLeafCountCollections s2)) /\
               (forall addrs, forallb (address_ok (fLeafCountCollections s)) addrs = true ->
                              forallb (address_ok (fLeafCountCollections s2)) addrs = true)).
  { clear H.
    destruct (leaf_LeafCount l) as [countleafName|];
      [destruct (negb (isCString b firstLeaf) && negb (isClass firstLeaf))|].
    - pose proof (collections_inv_index n names (fImportFields s) countleafName _ Hcs) as Hci.
      pose proof (doomed_index countleafName (fLeafCountCollections s)) as Hdi.
      pose proof (addresses_ok_index countleafName (fLeafCountCollections s)) as Hai.
      destruct (isCString b firstLeaf); proj in Hs2;
        destruct (StdMap.index default_collection countleafName (fLeafCountCollections s))
          as [c m]; cbn [snd] in *; inv Hs2; proj;
        repeat (split; [solve [auto]|]); auto.
    - inv Hs2. destruct (isCString b firstLeaf); proj;
        repeat (split; [solve [auto]|]); auto.
    - inv Hs2. destruct (isCString b firstLeaf); proj;
        repeat (split; [solve [auto]|]); auto. }
  destruct F2 as (Fbr & Ffl & Ftree & Fts & Fcs & Fdoom & Faddr). clear Hs2.
  assert (Haddr2 : forall cs',
             (doomed (fLeafCountCollections s2) -> doomed cs') ->
             (forall addrs, forallb (address_ok (fLeafCountCollections s2)) addrs = true ->
                            forallb (address_ok cs') addrs = true) ->
             doomed cs' \/
             (forall t, fSourceTree s = Some t ->
                        forallb (address_ok cs') (tree_BranchAddress t) = true)).
  { intros cs' Hd Ha. destruct Haddr as [Hdoom|Hok]; [left; auto|right].
    intros t Ht. apply Ha, Faddr. now apply Hok. }
  destruct (isLeafList b) eqn:Hlist.
  - (* a leaf of a leaf list: the field joins the record *)
    inv H. split; [|split; assumption].
    assert (HnotC : isCString b firstLeaf = false).
    { destruct (isCString b firstLeaf) eqn:Hc; [|reflexivity].
      apply isCString_not_leaf_list in Hc. congruence. }
    rewrite HnotC in Fts.
    destruct Fcs as (Hsub & Hcell & Hnames).
    constructor; rewrite ?Ffl, ?Fts; auto.
    unfold addresses_ok. rewrite Ftree. apply Haddr2; auto.
  - destruct (leaf_LeafCount l) as [countleafName|].
    + (* a counted array: the field joins its collection *)
      pose proof (collections_inv_index n names (fImportFields s) countleafName _ Fcs) as Hci.
      pose proof (doomed_index countleafName (fLeafCountCollections s2)) as Hdi.
      pose proof (addresses_ok_index countleafName (fLeafCountCollections s2)) as Hai.
      pose proof (index_find countleafName (fLeafCountCollections s2)) as Hfind.
      destruct (StdMap.index default_collection countleafName (fLeafCountCollections s2))
        as [c m]. cbn [fst snd] in *. cbv beta iota in H.
      destruct (fCollectionModel c) as [sub|] eqn:Hm; [|discriminate H]. inv H. proj.
      split; [|split; assumption].
      set (f' := mkImportField (CreatedField field) (OwnedValue (List.length (fImportFields s)))
                               true true (isClass firstLeaf)).
      assert (Hnewtok : forall bi, (bi < n)%nat ->
                 tok n (fImportFields s2 ++ [f'])
                     (RLeafArrayTransformation bi (List.length (fImportFields s)) 0)).
      { intros bi Hbi. split; [exact Hbi|]. exists f'. cbn [fImportFieldIdx].
        rewrite Ffl, nth_error_app2, Nat.sub_diag by lia. now split. }
      assert (HtokC : forall bi, (bi < n)%nat ->
                 tok n (fImportFields s2 ++ [f'])
                     (RCStringTransformation bi (List.length (fImportFields s)))).
      { intros bi Hbi. split; [exact Hbi|]. exists f'. cbn [fImportFieldIdx].
        rewrite Ffl, nth_error_app2, Nat.sub_diag by lia. now split. }
      constructor; proj.
      * rewrite Fts. intros t Ht. destruct (isCString b firstLeaf).
        -- apply in_app_or in Ht. destruct Ht as [Ht|[Ht|[]]].
           ++ rewrite Ffl. eapply tok_weaken; [reflexivity|]. now apply Htop.
           ++ subst t. now apply HtokC.
        -- rewrite Ffl. eapply tok_weaken; [reflexivity|]. now apply Htop.
      * apply (collections_inv_replace n names (fImportFields s2 ++ [f']) countleafName c _ m);
          [rewrite Ffl; now apply collections_inv_fields|exact Hfind|congruence|reflexivity|].
        projc. intros t Ht. apply in_app_or in Ht. destruct Ht as [Ht|[Ht|[]]]; [now left|right].
        subst t. now apply Hnewtok.
      * apply (collections_inv_replace n names (fImportFields s2 ++ [f']) countleafName c _ m);
          [rewrite Ffl; now apply collections_inv_fields|exact Hfind|congruence|reflexivity|].
        projc. intros t Ht. apply in_app_or in Ht. destruct Ht as [Ht|[Ht|[]]]; [now left|right].
        subst t. now apply Hnewtok.
      * apply (collections_inv_replace n names (fImportFields s2 ++ [f']) countleafName c _ m);
          [rewrite Ffl; now apply collections_inv_fields|exact Hfind|congruence|reflexivity|].
        projc. intros t Ht. apply in_app_or in Ht. destruct Ht as [Ht|[Ht|[]]]; [now left|right].
        subst t. now apply Hnewtok.
      * unfold addresses_ok. proj. rewrite Ftree. apply Haddr2.
        -- intro Hd. apply (doomed_replace countleafName c); [exact Hfind|congruence|auto].
        -- intros addrs Ha. apply addresses_ok_replace. auto.
    + (* a field of its own *)
      cbv beta iota delta [bind AddToModel deref modify ret] in H.
      destruct (fModel s2); [|discriminate H]. inv H. proj.
      split; [|split; assumption].
      destruct Fcs as (Hsub & Hcell & Hnames).
      constructor; proj.
      * rewrite Fts, Ffl. intros t Ht. destruct (isCString b firstLeaf).
        -- apply in_app_or in Ht. destruct Ht as [Ht|[Ht|[]]].
           ++ eapply tok_weaken; [reflexivity|]. now apply Htop.
           ++ subst t. split; [exact Hn|]. eexists. cbn [fImportFieldIdx].
              rewrite nth_error_app2, Nat.sub_diag by lia. split; reflexivity.
        -- eapply tok_weaken; [reflexivity|]. now apply Htop.
      * rewrite Ffl. intros k c t Hin Ht. eapply tok_weaken; [reflexivity|]. eapply Hsub; eauto.
      * exact Hcell.
      * exact Hnames.
      * unfold addresses_ok. proj. rewrite Ftree. apply Haddr2; auto.
Qed.

Lemma prepare_leaves_inv env n names b firstLeaf leaves :
  forall acc s acc' s',
    schema_inv n names s ->
    (List.length (fImportBranches s) < n)%nat ->
    for_each (prepare_leaf env b firstLeaf) leaves acc s = (Ok acc', s') ->
    schema_inv n names s' /\
    fImportBranches s' = fImportBranches s /\ fSourceTree s' = fSourceTree s.
Proof.
  induction leaves as [|l leaves IH]; intros acc s acc' s' Hinv Hn H.
  - inv H. split; [assumption|split; reflexivity].
  - cbn [for_each] in H. unfold bind in H.
    destruct (prepare_leaf env b firstLeaf l acc s) as [o1 s1] eqn:Hl.
    destruct o1 as [acc1| | |]; try discriminate H.
    destruct (prepare_leaf_inv _ _ _ _ _ _ _ _ _ _ Hinv Hn Hl) as (Hinv1 & Hbr1 & Htree1).
    destruct (IH _ _ _ _ Hinv1 ltac:(now rewrite Hbr1) H) as (Hinv' & Hbr' & Htree').
    split; [exact Hinv'|]. split; congruence.
Qed.

(** Changes of the importer that keep the invariant. *)
Lemma schema_inv_more_fields n names s ext :
  schema_inv n names s ->
  schema_inv n names (with_fImportFields (fImportFields s ++ ext) s).
Proof.
  intros [Htop Hsub Hcell Hnames Haddr]. constructor; proj; auto.
  - intros t Ht. eapply tok_weaken; [reflexivity|]. now apply Htop.
  - intros k c t Hin Ht. eapply tok_weaken; [reflexivity|]. eapply Hsub; eauto.
Qed.

Lemma schema_inv_model n names s m :
  schema_inv n names s -> schema_inv n names (with_fModel m s).
Proof. intros [Htop Hsub Hcell Hnames Haddr]. constructor; proj; auto. Qed.

Lemma schema_inv_branch_address n names s t name idx :
  fSourceTree s = Some t ->
  schema_inv n names s ->
  schema_inv n names
    (with_fSourceTree (Some (tree_SetBranchAddress name (AddrBranchBuffer idx) t)) s).
Proof.
  intros Ht [Htop Hsub Hcell Hnames Haddr]. constructor; proj; auto.
  destruct Haddr as [Hd|Ha]; [now left|right].
  intros t0 Ht0. proj in Ht0. inv Ht0.
  cbn [tree_BranchAddress tree_SetBranchAddress with_BranchAddress].
  apply forallb_set_address; [reflexivity|]. now apply Ha.
Qed.

Lemma schema_inv_set_last n names s front back buf :
  fImportFields s = front ++ [back] ->
  Buffer_is_null buf = false ->
  schema_inv n names s ->
  schema_inv n names (with_fImportFields (front ++ [with_fFieldBuffer buf back]) s).
Proof.
  intros Hfl Hbuf [Htop Hsub Hcell Hnames Haddr]. rewrite Hfl in *.
  constructor; proj; auto.
  - intros t Ht. apply tok_set_last; auto.
  - intros k c t Hin Ht. apply tok_set_last; eauto.
Qed.

Lemma schema_inv_push_branch names s ib :
  schema_inv (S (List.length (fImportBranches s))) names s ->
  schema_inv (List.length (fImportBranches s ++ [ib])) names
             (with_fImportBranches (fImportBranches s ++ [ib]) s).
Proof.
  rewrite length_app. cbn [List.length]. rewrite Nat.add_1_r.
  intros [Htop Hsub Hcell Hnames Haddr]. constructor; proj; auto.
Qed.

Lemma schema_inv_more_branches n n' names s :
  (n <= n')%nat -> schema_inv n names s -> schema_inv n' names s.
Proof.
  intros Hle [Htop Hsub Hcell Hnames Haddr]. constructor; auto.
  - intros t Ht. rewrite <- (app_nil_r (fImportFields s)).
    eapply tok_weaken; [exact Hle|]. now apply Htop.
  - intros k c t Hin Ht. rewrite <- (app_nil_r (fImportFields s)).
    eapply tok_weaken; [exact Hle|]. eapply Hsub; eauto.
Qed.

(** One branch. *)
Lemma prepare_branch_inv env names b s s' :
  schema_inv (List.length (fImportBranches s)) names s ->
  (forall k, In k (count_leaf_names b) -> ~ In k names) ->
  prepare_branch env b s = (Ok tt, s') ->
  schema_inv (List.length (fImportBranches s')) (names ++ count_leaf_names b) s'.
Proof.
  intros Hinv Hnew H. unfold prepare_branch in H. unfold count_leaf_names in *.
  destruct (branch_GetListOfLeaves b) as [|firstLeaf leaves] eqn:Hleaves; [discriminate H|].
  destruct (isLeafList b && isClass firstLeaf); [discriminate H|].
  destruct (isLeafList b && isCountLeaf firstLeaf); [discriminate H|].
  destruct (isCountLeaf firstLeaf).
  - destruct (prepare_count_leaf_inv _ _ _ _ _ _ Hinv (Hnew _ (or_introl eq_refl)) H)
      as (Hinv' & Hbr & _).
    now rewrite Hbr.
  - rewrite app_nil_r.
    cbv beta iota delta [bind] in H.
    destruct (for_each (prepare_leaf env b firstLeaf) (firstLeaf :: leaves) (0, []) s)
      as [o1 s1] eqn:Hloop.
    destruct o1 as [[branchBufferSize recordItems]| | |]; try discriminate H.
    destruct (prepare_leaves_inv env (S (List.length (fImportBranches s))) names b firstLeaf
                _ _ _ _ _ (schema_inv_more_branches _ _ _ _ (Nat.le_succ_diag_r _) Hinv)
                (Nat.lt_succ_diag_r _) Hloop) as (Hinv1 & Hbr1 & Htree1).
    cbn [fst snd] in H. rewrite <- Hbr1 in Hinv1.
    (* the record field of a leaf list *)
    match type of H with
    | match ?x with _ => _ end = _ => destruct x as [o2 s2] eqn:Hrec
    end.
    assert (Hinv2 : o2 = Ok tt ->
                    schema_inv (S (List.length (fImportBranches s1))) names s2 /\
                    fImportBranches s2 = fImportBranches s1).
    { intros ->. destruct recordItems as [|item items].
      - inv Hrec. now split.
      - cbv beta iota delta [bind AddToModel deref modify] in Hrec. proj in Hrec.
        destruct (fModel s1); inv Hrec. split; [|reflexivity].
        apply schema_inv_model.
        exact (schema_inv_more_fields _ _ s1 _ Hinv1). }
    destruct o2 as [[]| | |]; try discriminate H.
    destruct (Hinv2 eq_refl) as (Hi2 & Hbr2). rewrite <- Hbr2 in Hi2. clear Hinv2 Hrec.
    (* the address of the branch *)
    match type of H with
    | match ?x with _ => _ end = _ => destruct x as [o3 s3] eqn:Hset
    end.
    assert (Hinv3 : o3 = Ok tt ->
                    schema_inv (S (List.length (fImportBranches s2))) names s3 /\
                    fImportBranches s3 = fImportBranches s2).
    { intros ->.
      assert (Hsba : forall idx s3',
                 SetBranchAddress (branch_GetName b) (AddrBranchBuffer idx) s2 = (Ok tt, s3') ->
                 schema_inv (S (List.length (fImportBranches s2))) names s3' /\
                 fImportBranches s3' = fImportBranches s2).
      { intros idx s3' Hsb. cbv beta iota delta [SetBranchAddress bind deref modify] in Hsb.
        destruct (fSourceTree s2) as [t|] eqn:Ht; inv Hsb. split; [|reflexivity].
        now apply schema_inv_branch_address. }
      destruct (isClass firstLeaf); [destruct (TClass_GetClass env _)|];
        try (eapply Hsba; exact Hset). discriminate Hset. }
    destruct o3 as [[]| | |]; try discriminate H.
    destruct (Hinv3 eq_refl) as (Hi3 & Hbr3). rewrite <- Hbr3 in Hi3. clear Hinv3 Hset.
    (* the buffer of the last field, and the branch *)
    destruct (rev (fImportFields s3)) as [|back front] eqn:Hrev; [discriminate H|].
    assert (Hfl : fImportFields s3 = rev front ++ [back]).
    { rewrite <- (rev_involutive (fImportFields s3)), Hrev. reflexivity. }
    destruct (Buffer_is_null (fFieldBuffer back)); inv H; proj.
    + apply (schema_inv_push_branch names
               (with_fImportFields (rev front ++ [with_fFieldBuffer _ back]) s3)).
      proj. apply schema_inv_set_last; auto. now destruct (isClass firstLeaf).
    + now apply schema_inv_push_branch.
Qed.

Lemma NoDup_app_disjoint {A} (l1 l2 : list A) k :
  NoDup (l1 ++ l2) -> In k l2 -> ~ In k l1.
Proof.
  induction l1 as [|a l1 IH]; cbn; intros Hnd Hin2 Hin1; [contradiction|].
  inv Hnd. destruct Hin1 as [->|Hin1].
  - apply H1. apply in_or_app. now right.
  - exact (IH H2 Hin2 Hin1).
Qed.

Lemma NoDup_app_left {A} (l1 l2 : list A) : NoDup (l1 ++ l2) -> NoDup l1.
Proof.
  induction l1 as [|a l1 IH]; cbn; intro H; [constructor|].
  inv H. constructor; [|auto].
  intro Hin. apply H2. apply in_or_app. now left.
Qed.

(** All branches. *)
Lemma prepare_branches_inv env branches :
  forall names s s',
    schema_inv (List.length (fImportBranches s)) names s ->
    NoDup (names ++ flat_map count_leaf_names branches) ->
    for_each (fun b (_ : unit) => prepare_branch env b) branches tt s = (Ok tt, s') ->
    schema_inv (List.length (fImportBranches s'))
               (names ++ flat_map count_leaf_names branches) s'.
Proof.
  induction branches as [|b branches IH]; intros names s s' Hinv Hnd H.
  - inv H. cbn. now rewrite app_nil_r.
  - cbn [for_each] in H. unfold bind in H.
    destruct (prepare_branch env b s) as [o1 s1] eqn:Hb.
    destruct o1 as [[]| | |]; try discriminate H.
    cbn [flat_map] in *. rewrite app_assoc in *.
    apply (IH _ s1); [|exact Hnd|exact H].
    apply (prepare_branch_inv env names b s s1 Hinv); [|exact Hb].
    intros k Hk. apply (NoDup_app_disjoint names (count_leaf_names b) k); [|exact Hk].
    exact (NoDup_app_left _ _ Hnd).
Qed.

(** The last phase changes nothing but the model and the collections. *)
(** A sequence that ends well has gone well at each step. *)
Lemma bind_Ok {A B} (m : M A) (k : A -> M B) s b s' :
  bind m k s = (Ok b, s') -> exists a s1, m s = (Ok a, s1) /\ k a s1 = (Ok b, s').
Proof.
  unfold bind. destruct (m s) as [[a| | |] s1]; intro H; try discriminate H.
  exists a, s1. split; [reflexivity|exact H].
Qed.

Lemma only_model_refl s : only_model s s.
Proof. unfold only_model. repeat split; reflexivity. Qed.

Lemma only_model_trans s1 s2 s3 : only_model s1 s2 -> only_model s2 s3 -> only_model s1 s3.
Proof. unfold only_model. intuition congruence. Qed.

Lemma only_model_AddToModel f : preserving only_model (AddToModel f).
Proof.
  intros s o s' H. cbv beta iota delta [AddToModel bind deref modify] in H.
  destruct (fModel s); inv H; unfold only_model; proj; repeat split; reflexivity.
Qed.

Lemma only_model_capture_fields idxs : preserving only_model (capture_fields idxs).
Proof.
  unfold capture_fields.
  apply preserving_for_each; [apply only_model_refl|apply only_model_trans|].
  intros idx e s o s' H.
  destruct (nth_error (fImportFields s) idx); inv H; apply only_model_refl.
Qed.

Lemma only_model_add_projected_fields env name idxs :
  preserving only_model (add_projected_fields env name idxs).
Proof.
  unfold add_projected_fields.
  apply preserving_for_each; [apply only_model_refl|apply only_model_trans|].
  intros idx [] s o s' H.
  destruct (nth_error (fImportFields s) idx) as [f|]; [|inv H; apply only_model_refl].
  revert H. apply preserving_bind; [apply only_model_trans| |].
  - apply preserving_stop, only_model_refl.
  - intros. apply only_model_AddToModel.
Qed.

Lemma only_model_open_collection i c :
  preserving only_model (open_collection i c).
Proof.
  unfold open_collection.
  apply preserving_bind; [apply only_model_trans|apply preserving_deref, only_model_refl|].
  intro sub.
  apply preserving_bind; [apply only_model_trans|apply only_model_capture_fields|].
  intro entry.
  apply preserving_bind; [apply only_model_trans|apply only_model_AddToModel|]. intros _.
  apply preserving_ret, only_model_refl.
Qed.

Lemma only_model_project_collection env key c :
  preserving only_model (project_collection env key c).
Proof.
  unfold project_collection.
  apply preserving_bind; [apply only_model_trans|apply only_model_add_projected_fields|].
  intros _.
  apply preserving_bind; [apply only_model_trans|apply preserving_stop, only_model_refl|].
  intro pf. apply only_model_AddToModel.
Qed.

Lemma only_model_finish_collection env key i c :
  preserving only_model (finish_collection env key i c).
Proof.
  unfold finish_collection.
  apply preserving_bind; [apply only_model_trans|apply only_model_open_collection|].
  intro c'.
  apply preserving_bind; [apply only_model_trans|apply only_model_project_collection|].
  intros _. apply preserving_ret, only_model_refl.
Qed.

(** What [open_collection] hands back. *)
Lemma open_collection_Ok i c s c' s' :
  open_collection i c s = (Ok c', s') ->
  exists sub entry,
    fCollectionModel c = Some sub /\
    c' = with_fCollectionWriter (Some 0)
           (with_fCollectionModel None
              (with_fFieldName ("_collection" +++ to_string i)
                 (with_fCollectionEntry (Some entry) c))).
Proof.
  intro H. cbv beta iota zeta delta [open_collection bind deref ret] in H.
  destruct (fCollectionModel c) as [sub|] eqn:Hm; [|discriminate H].
  repeat match type of H with
         | (let (_, _) := ?m in _) = _ =>
             destruct m as [[?| | |] ?]; try discriminate H
         end.
  inv H. eexists. eexists. split; reflexivity.
Qed.

(** A loop over the collections that runs to its end has run every
    iteration to its end. *)
Lemma finish_collections_Ok_step env key c rest done i s s' :
  finish_collections env done ((key, c) :: rest) i s = (Ok tt, s') ->
  exists c' s1,
    finish_collection env key i c s = (Ok c', s1) /\
    finish_collections env ((key, c') :: done) rest (i + 1) s1 = (Ok tt, s').
Proof.
  cbn [finish_collections]. unfold finish_collection, bind, ret.
  destruct (open_collection i c s) as [[c'| | |] s1]; try discriminate.
  destruct (project_collection env key c' s1) as [[[]| | |] s2]; try discriminate.
  intro H. exists c', s2. split; [reflexivity|exact H].
Qed.

Lemma finish_collection_finished env key i c s c' s' :
  finish_collection env key i c s = (Ok c', s') -> finished (key, c) (key, c').
Proof.
  intro H. unfold finish_collection in H.
  apply bind_Ok in H. destruct H as (c1 & s1 & HO & H).
  apply bind_Ok in H. destruct H as ([] & s2 & _ & H). unfold ret in H. inv H.
  destruct (open_collection_Ok _ _ _ _ _ HO) as (sub & entry & Hm & ->).
  unfold finished. projc. rewrite Hm. repeat split; congruence.
Qed.

Lemma finish_collections_finished env todo :
  forall done i s s',
    finish_collections env done todo i s = (Ok tt, s') ->
    exists todo',
      fLeafCountCollections s' = rev done ++ todo' /\
      Forall2 finished todo todo' /\
      fSourceTree s' = fSourceTree s /\ fImportBranches s' = fImportBranches s /\
      fImportFields s' = fImportFields s /\
      fImportTransformations s' = fImportTransformations s.
Proof.
  induction todo as [|[key c] todo IH]; intros done i s s' H.
  - cbn [finish_collections] in H. inv H. exists []. proj. rewrite app_nil_r.
    repeat split; constructor.
  - apply finish_collections_Ok_step in H. destruct H as (c' & s1 & HF & H).
    pose proof (finish_collection_finished _ _ _ _ _ _ _ HF) as Hfin.
    destruct (only_model_finish_collection env key i c _ _ _ HF)
      as (Ht1 & Hb1 & Hf1 & _ & Hts1 & _).
    destruct (IH _ _ _ _ H) as (todo' & Hcs & Hall & Ht & Hb & Hf & Hts).
    exists ((key, c') :: todo'). cbn [rev] in Hcs. rewrite <- app_assoc in Hcs.
    split; [exact Hcs|]. split; [now constructor|]. repeat split; congruence.
Qed.

Lemma finished_find cs cs' k :
  Forall2 finished cs cs' ->
  is_some (StdMap.find k cs') = is_some (StdMap.find k cs).
Proof.
  induction 1 as [|[k1 c1] [k2 c2] cs cs' Hfin _ IH]; [reflexivity|].
  destruct Hfin as (Hk & _). cbn in Hk. subst k2. cbn [StdMap.find].
  destruct (String.eqb k k1); [reflexivity|exact IH].
Qed.

Lemma finished_In cs cs' kc' :
  Forall2 finished cs cs' -> In kc' cs' -> exists kc, In kc cs /\ finished kc kc'.
Proof.
  induction 1 as [|kc1 kc2 cs cs' Hfin _ IH]; intros Hin; [contradiction|].
  destruct Hin as [<-|Hin].
  - exists kc1. split; [now left|exact Hfin].
  - destruct (IH Hin) as (kc & Hkc & Hf). exists kc. split; [now right|exact Hf].
Qed.

Lemma finished_not_doomed cs cs' : Forall2 finished cs cs' -> ~ doomed cs.
Proof.
  intros Hall (k & c & Hin & Hnone).
  induction Hall as [|kc1 kc2 cs cs' Hfin _ IH]; [contradiction|].
  destruct Hin as [->|Hin]; [|exact (IH Hin)].
  destruct Hfin as (_ & Hm & _). exact (Hm Hnone).
Qed.

(** Clearing the schema on a tree that holds no address of the importer. *)
Lemma ResetSchema_inv s t s0 :
  fSourceTree s = Some t -> untouched t = true ->
  ResetSchema s = (Ok tt, s0) ->
  schema_inv 0 [] s0 /\ fImportBranches s0 = [] /\
  exists t0, fSourceTree s0 = Some t0 /\
             tree_GetListOfBranches t0 = tree_GetListOfBranches t.
Proof.
  intros Ht Hu H. unfold ResetSchema, modify in H. inv H. proj. rewrite Ht. cbn [option_map].
  split; [|split; [reflexivity|eexists; split; [reflexivity|reflexivity]]].
  split; proj; try (intros; contradiction).
  right. intros t0 Ht0. revert Ht0. proj. cbn [option_map]. intro Ht0. inv Ht0.
  cbn [tree_BranchAddress with_BranchAddress].
  unfold untouched in Hu. rewrite forallb_forall in Hu.
  apply forallb_forall. intros na Hna. apply in_map_iff in Hna.
  destruct Hna as ([n a] & <- & Hin). specialize (Hu _ Hin). cbn in Hu.
  destruct a; try discriminate Hu. reflexivity.
Qed.

(** *** The keys of the map stay distinct *)

Lemma distinct_put {V} k (v : V) m :
  StdMap.find k m = None -> distinct_keys m = true -> distinct_keys (StdMap.put k v m) = true.
Proof.
  induction m as [|[k0 v0] m IH]; cbn [StdMap.find StdMap.put distinct_keys];
    intros Hf Hd; [reflexivity|].
  apply andb_true_iff in Hd. destruct Hd as [Hk0 Hd].
  destruct (String.eqb k k0) eqn:Hkk; [discriminate Hf|].
  destruct (String.compare k k0) eqn:Hc; cbn [distinct_keys StdMap.find].
  - apply String.compare_eq_iff in Hc. subst. now rewrite String.eqb_refl in Hkk.
  - rewrite Hkk, Hf, Hk0, Hd. reflexivity.
  - rewrite find_put_other, Hk0, (IH Hf Hd); [reflexivity|].
    intro Heq. subst. now rewrite String.eqb_refl in Hkk.
Qed.

Lemma distinct_index dflt k (m : Collections) :
  distinct_keys m = true -> distinct_keys (snd (StdMap.index dflt k m)) = true.
Proof.
  intro Hd. unfold StdMap.index. destruct (StdMap.find k m) eqn:Hf; cbn [snd]; [exact Hd|].
  now apply distinct_put.
Qed.

Lemma distinct_replace k c (m : Collections) :
  distinct_keys (StdMap.replace k c m) = distinct_keys m.
Proof. apply distinct_keys_same_keys, map_fst_replace. Qed.

Lemma keeps_distinct_bind {A B} (m : M A) (k : A -> M B) :
  keeps_distinct m -> (forall a, keeps_distinct (k a)) -> keeps_distinct (bind m k).
Proof. apply preserving_bind. intros; auto. Qed.

Lemma keeps_distinct_for_each {A B} (body : A -> B -> M B) (xs : list A) :
  (forall x acc, keeps_distinct (body x acc)) ->
  forall acc, keeps_distinct (for_each body xs acc).
Proof. apply preserving_for_each; intros; auto. Qed.

Lemma keeps_distinct_SetBranchAddress name a : keeps_distinct (SetBranchAddress name a).
Proof.
  intros s o s' H. cbv beta iota delta [SetBranchAddress bind deref modify] in H.
  destruct (fSourceTree s); inv H; auto.
Qed.

Lemma keeps_distinct_AddToModel f : keeps_distinct (AddToModel f).
Proof.
  intros s o s' H. cbv beta iota delta [AddToModel bind deref modify] in H.
  destruct (fModel s); inv H; auto.
Qed.

Lemma keeps_distinct_prepare_count_leaf b firstLeaf :
  keeps_distinct (prepare_count_leaf b firstLeaf).
Proof.
  intros s o s' H D. unfold prepare_count_leaf, StdMap.emplace in H.
  destruct (StdMap.find (leaf_GetName firstLeaf) (fLeafCountCollections s)) eqn:Hfind;
    cbv beta iota delta [bind SetBranchAddress deref modify] in H;
    destruct (fSourceTree s); inv H; proj; auto.
  now apply distinct_put.
Qed.

Lemma keeps_distinct_prepare_leaf env b firstLeaf l acc :
  keeps_distinct (prepare_leaf env b firstLeaf l acc).
Proof.
  intros s o s' H D. unfold prepare_leaf in H.
  destruct (LeafClass_eqb (leaf_IsA l) TLeafObject); [inv H; exact D|].
  destruct (RFieldBase_Create env _ _) as [field|e]; [|inv H; exact D].
  cbv zeta in H.
  match type of H with
  | context [match ?x with (maxLength, s2) => _ end] => destruct x as [maxLength s2] eqn:Hs2
  end.
  assert (D2 : distinct_keys (fLeafCountCollections s2) = true).
  { clear H.
    destruct (leaf_LeafCount l) as [countleafName|];
      [destruct (negb (isCString b firstLeaf) && negb (isClass firstLeaf))|].
    - pose proof (distinct_index default_collection countleafName _ D) as Di.
      destruct (isCString b firstLeaf); proj in Hs2;
        destruct (StdMap.index default_collection countleafName (fLeafCountCollections s))
          as [c m]; cbn [snd] in *; inv Hs2; proj; exact Di.
    - inv Hs2. destruct (isCString b firstLeaf); proj; exact D.
    - inv Hs2. destruct (isCString b firstLeaf); proj; exact D. }
  clear Hs2.
  destruct (isLeafList b); [inv H; exact D2|].
  destruct (leaf_LeafCount l) as [countleafName|].
  - pose proof (distinct_index default_collection countleafName _ D2) as Di.
    destruct (StdMap.index default_collection countleafName (fLeafCountCollections s2))
      as [c m]. cbn [snd] in Di. cbv beta iota in H.
    destruct (fCollectionModel c); inv H; proj; [|exact Di].
    rewrite distinct_replace. exact Di.
  - cbv beta iota delta [bind AddToModel deref modify ret] in H.
    destruct (fModel s2); inv H; proj; exact D2.
Qed.

Lemma keeps_distinct_prepare_branch env b : keeps_distinct (prepare_branch env b).
Proof.
  unfold prepare_branch.
  destruct (branch_GetListOfLeaves b) as [|firstLeaf leaves];
    [apply preserving_stop; auto|].
  destruct (isLeafList b && isClass firstLeaf); [apply preserving_stop; auto|].
  destruct (isLeafList b && isCountLeaf firstLeaf); [apply preserving_stop; auto|].
  destruct (isCountLeaf firstLeaf); [apply keeps_distinct_prepare_count_leaf|].
  apply keeps_distinct_bind;
    [apply keeps_distinct_for_each; intros; apply keeps_distinct_prepare_leaf|].
  intros [branchBufferSize recordItems]. cbn [fst snd].
  apply keeps_distinct_bind.
  { destruct recordItems.
    - apply preserving_ret; auto.
    - apply keeps_distinct_bind; [|intros; apply keeps_distinct_AddToModel].
      apply preserving_modify. intro s. proj. auto. }
  intros _.
  apply keeps_distinct_bind; [intros s o s' H; inv H; auto|]. intro idx.
  apply keeps_distinct_bind.
  { destruct (isClass firstLeaf); [destruct (TClass_GetClass env _)|];
      try apply keeps_distinct_SetBranchAddress. apply preserving_stop; auto. }
  intros _.
  apply keeps_distinct_bind.
  { intros s o s' H.
    destruct (rev (fImportFields s)) as [|back front]; [inv H; auto|].
    destruct (Buffer_is_null (fFieldBuffer back)); inv H; proj; auto. }
  intros _. apply preserving_modify. intro s. proj. auto.
Qed.

Lemma finished_keys cs cs' : Forall2 finished cs cs' -> map fst cs' = map fst cs.
Proof.
  induction 1 as [|kc kc' cs cs' Hfin _ IH]; [reflexivity|].
  destruct Hfin as (Hk & _). cbn [map]. now rewrite Hk, IH.
Qed.

Lemma distinct_names_NoDup l : distinct_names l = true -> NoDup l.
Proof.
  induction l as [|k l IH]; cbn [distinct_names]; intro H; [constructor|].
  apply andb_true_iff in H. destruct H as [Hk Hl]. constructor; [|auto].
  intro Hin. apply negb_true_iff in Hk.
  assert (Hex : existsb (String.eqb k) l = true); [|congruence].
  apply existsb_exists. exists k. split; [exact Hin|apply String.eqb_refl].
Qed.

Lemma PrepareSchema_steps env :
  PrepareSchema env =
  (ResetSchema ;;;
   tree <- (fun s => deref (fSourceTree s) s) ;;
   for_each (fun b (_ : unit) => prepare_branch env b) (tree_GetListOfBranches tree) tt ;;;
   (fun s => finish_collections env [] (fLeafCountCollections s) 0 s) ;;;
   m <- (fun s => deref (fModel s) s) ;;
   modify (with_fModel (Some (model_Freeze m))) ;;;
   modify (fun s => with_fEntry
                      (Some (capture_entry (fImportFields s) (fLeafCountCollections s))) s) ;;;
   (fun s => if fIsQuiet s then (Ok tt, s) else ReportSchema s)).
Proof. reflexivity. Qed.

(** A successful preparation on a tree that holds no address of the importer
    and whose count leaves have distinct names leaves the importer ready. *)
Lemma PrepareSchema_ready env s t s1 :
  fSourceTree s = Some t -> untouched t = true ->
  count_leaves_distinct t = true ->
  PrepareSchema env s = (Ok tt, s1) ->
  ready s1 = true.
Proof.
  intros Ht Hu Hnd H. apply distinct_names_NoDup in Hnd. rewrite PrepareSchema_steps in H.
  apply bind_Ok in H as ([] & s0 & HR & H).
  destruct (ResetSchema_inv _ _ _ Ht Hu HR) as (Hinv0 & Hbr0 & t0 & Ht0 & Hbs).
  apply bind_Ok in H as (tree & s0' & HD & H).
  unfold deref in HD. rewrite Ht0 in HD. inv HD.
  apply bind_Ok in H as ([] & s2 & HL & H).
  rewrite Hbs in HL.
  assert (Hinv2 : schema_inv (List.length (fImportBranches s2))
                    ([] ++ flat_map count_leaf_names (tree_GetListOfBranches t)) s2).
  { apply (prepare_branches_inv env _ [] s0' s2); [now rewrite Hbr0|exact Hnd|exact HL]. }
  apply bind_Ok in H as ([] & s3 & HF & H).
  destruct (finish_collections_finished _ _ _ _ _ _ HF)
    as (cs' & Hcs & Hall & Ht3 & Hb3 & Hf3 & Hts3).
  cbn [rev app] in Hcs.
  apply bind_Ok in H as (m & s3' & HD & H).
  unfold deref in HD. destruct (fModel s3); inv HD.
  apply bind_Ok in H as ([] & s4 & HM & H). unfold modify in HM. inv HM.
  apply bind_Ok in H as ([] & s5 & HM & H). unfold modify in HM. inv HM.
  assert (Hs1 : fSourceTree s1 = fSourceTree s3' /\ fImportBranches s1 = fImportBranches s3' /\
                fImportFields s1 = fImportFields s3' /\
                fLeafCountCollections s1 = fLeafCountCollections s3' /\
                fImportTransformations s1 = fImportTransformations s3' /\
                is_some (fEntry s1) = true).
  { revert H. proj. destruct (fIsQuiet s3'); intro H.
    - inv H. proj. repeat split; reflexivity.
    - unfold ReportSchema, emit, modify in H. inv H. proj. repeat split; reflexivity. }
  clear H.
  destruct Hs1 as (E1 & E2 & E3 & E4 & E5 & E6).
  destruct Hinv2 as [Htop Hsub Hcell Hnames Haddr].
  assert (Hd2 : distinct_keys (fLeafCountCollections s2) = true).
  { apply (keeps_distinct_for_each (fun b (_ : unit) => prepare_branch env b)
             (tree_GetListOfBranches t)
             (fun b _ => keeps_distinct_prepare_branch env b) tt _ _ _ HL).
    unfold ResetSchema, modify in HR. inv HR. reflexivity. }
  unfold ready. rewrite E1, E2, E3, E4, E5, E6, Ht3, Hb3, Hf3, Hts3.
  rewrite !andb_true_iff. split; [split; [split; [split|]|reflexivity]|].
  4: { rewrite (distinct_keys_same_keys _ _ (finished_keys _ _ Hall)). exact Hd2. }
  - destruct Haddr as [Hd|Ha]; [elim (finished_not_doomed _ _ Hall Hd)|].
    destruct (fSourceTree s2) as [t2|] eqn:Ht2.
    + specialize (Ha t2 Ht2). rewrite forallb_forall in Ha. apply forallb_forall.
      intros na Hna. specialize (Ha na Hna). unfold address_ok in *.
      destruct (snd na); try assumption. now rewrite (finished_find _ _ _ Hall).
    + exfalso.
      pose proof (framed_for_each (fun b (_ : unit) => prepare_branch env b)
                    (tree_GetListOfBranches t)
                    (fun b _ => framed_prepare_branch env b) tt _ _ _ HL) as Hfr.
      destruct Hfr as (_ & _ & _ & _ & _ & _ & _ & _ & Hn & _).
      rewrite Ht2, Ht0 in Hn. discriminate Hn.
  - apply forallb_forall. intros kc' Hin.
    destruct (finished_In _ _ _ Hall Hin) as ([k c] & Hkc & Hk & Hm & Hcv & Htr & Hw & He).
    cbn [fst snd] in *. unfold collection_ok. rewrite Hw, He, Htr.
    rewrite !andb_true_iff. repeat split.
    + specialize (Hcell _ _ Hkc Hm). destruct (fCountVal (snd kc')) eqn:E; [reflexivity|].
      congruence.
    + apply forallb_forall. intros tr Htrin. apply tok_transformation_ok.
      exact (Hsub _ _ _ Hkc Htrin).
  - apply forallb_forall. intros tr Htrin. apply tok_transformation_ok. exact (Htop _ Htrin).
Qed.

(** ** The number of entries written *)

(** C4: let the destination hold no key of the ntuple's name, let the tree
    hold no address of the importer and name each of its count leaves once,
    and let schema preparation succeed.  Then [Import] returns success and
    the entries it has submitted to the writer are exactly the entries
    0, 1, .., n-1 of the tree, each once and in this order, where n is
    min(fMaxEntries, GetEntries) for a limit that is not negative and
    GetEntries for a negative limit (the default is -1). *)
Theorem Import_writes_min_entries env s dest t s1 :
  fDestFile s = Some dest ->
  file_FindKey (fNTupleName s) dest = false ->
  fSourceTree s = Some t ->
  untouched t = true ->
  count_leaves_distinct t = true ->
  PrepareSchema env s = (Ok tt, s1) ->
  exists s' evs,
    Import env s = (Ok tt, s') /\
    fTrace s' = fTrace s ++ evs /\
    submitted evs =
      entry_range 0 (Z.to_nat (if 0 <=? fMaxEntries s
                               then Z.min (fMaxEntries s) (tree_GetEntries t)
                               else tree_GetEntries t)) /\
    fills evs = Z.to_nat (if 0 <=? fMaxEntries s
                          then Z.min (fMaxEntries s) (tree_GetEntries t)
                          else tree_GetEntries t).
Proof.
  intros Hdest Hkey Htree Huntouched Hnames Hprep.
  pose proof (PrepareSchema_ready env s t s1 Htree Huntouched Hnames Hprep) as Hready.
  destruct (Import_ok env s dest t s1 Hdest Hkey Htree Hprep Hready)
    as (s' & rep & loop & fin & Hrun & _ & Hrep & Htr & Hsub & Hfills & _ & nbytes & Hfin).
  rewrite entries_to_import_min in Hsub, Hfills.
  assert (Hfin' : forallb is_neutral (fin ++ [EvCommitDataset (fNTupleName s)]) = true).
  { rewrite Hfin. now destruct (fIsQuiet s). }
  exists s', (rep ++ import_events s s1 loop fin).
  split; [exact Hrun|]. split; [exact Htr|]. split.
  - unfold submitted. rewrite (submitted_from_neutral None rep _ (report_is_neutral rep Hrep)).
    unfold import_events. cbn [submitted_from].
    rewrite Hsub.
    + rewrite <- (app_nil_r (fin ++ _)), (submitted_from_neutral None _ [] Hfin').
      cbn. now rewrite app_nil_r.
    + intro c. rewrite <- (app_nil_r (fin ++ _)), !(submitted_from_neutral _ _ [] Hfin').
      reflexivity.
  - rewrite fills_app, (fills_neutral rep (report_is_neutral rep Hrep)).
    unfold import_events.
    change (fills (EvOpenSink (fNTupleName s) (fWriteOptions s) :: EvCreateWriter (fModel s1)
                   :: loop ++ fin ++ [EvCommitDataset (fNTupleName s)]))
      with (fills (loop ++ fin ++ [EvCommitDataset (fNTupleName s)])).
    rewrite fills_app, (fills_neutral _ Hfin'), Hfills. lia.
Qed.

(** ** Name collision *)

(** C3: when the destination file already holds a key of the ntuple's name,
    [Import] returns the failure at once: the importer, its trace of
    interactions and the destination file are exactly what they were, so
    neither schema preparation nor any write has taken place. *)
Theorem Import_key_exists (env : Collaborators) (s : RNTupleImporter) (dest : TFile) :
  fDestFile s = Some dest ->
  file_FindKey (fNTupleName s) dest = true ->
  Import env s =
    (Failed ("Key '" +++ fNTupleName s +++ "' already exists in file " +++ fDestFileName s), s).
Proof.
  intros Hdest Hkey.
  unfold Import, bind, deref.
  rewrite Hdest, Hkey.
  reflexivity.
Qed.

Lemma Import_key_exists_witness :
  fDestFile (Scenario.importer ["tree"] Scenario.tree) = Some (mkTFile false ["tree"] []) /\
  file_FindKey (fNTupleName (Scenario.importer ["tree"] Scenario.tree))
               (mkTFile false ["tree"] []) = true /\
  Import (Scenario.env ["tree"] true) (Scenario.importer ["tree"] Scenario.tree) =
    (Failed "Key 'tree' already exists in file out.root",
     Scenario.importer ["tree"] Scenario.tree).
Proof.
  split; [reflexivity|]. split; [reflexivity|].
  apply (Import_key_exists (Scenario.env ["tree"] true)
           (Scenario.importer ["tree"] Scenario.tree) (mkTFile false ["tree"] []));
    reflexivity.
Defined.
(** ** Classification of C strings *)

Lemma LeafClass_eqb_eq (a b : LeafClass) : LeafClass_eqb a b = true <-> a = b.
Proof. destruct a, b; simpl; split; intro H; try reflexivity; discriminate H. Qed.

Lemma has_LeafCounter_false (l : TLeaf) :
  has_LeafCounter l = false <-> leaf_LeafCount l = None.
Proof.
  unfold has_LeafCounter. destruct (leaf_LeafCount l); split; intro H;
    try reflexivity; discriminate H.
Qed.

(** The statements of [prepare_branch] for a branch that is no counter. *)
Lemma prepare_branch_steps env b firstLeaf leaves :
  branch_GetListOfLeaves b = firstLeaf :: leaves ->
  (isLeafList b && isClass firstLeaf) = false ->
  (isLeafList b && isCountLeaf firstLeaf) = false ->
  isCountLeaf firstLeaf = false ->
  prepare_branch env b =
  (acc <- for_each (prepare_leaf env b firstLeaf) (firstLeaf :: leaves) (0, []) ;;
   (match snd acc with
    | [] => ret tt
    | _ :: _ =>
        modify (fun s => with_fImportFields
                           (fImportFields s ++
                            [mkImportField (RRecordField (branch_GetName b) (snd acc))
                                           NullBuffer false false false]) s) ;;;
        AddToModel (TopField (RRecordField (branch_GetName b) (snd acc)))
    end) ;;;
   idx <- (fun s => (Ok (List.length (fImportBranches s)), s)) ;;
   (if isClass firstLeaf
    then if TClass_GetClass env (branch_GetClassName b)
         then SetBranchAddress (branch_GetName b) (AddrBranchBuffer idx)
         else stop (Failed ("unable to load class " +++ branch_GetClassName b
                            +++ " for branch " +++ branch_GetName b))
    else SetBranchAddress (branch_GetName b) (AddrBranchBuffer idx)) ;;;
   (fun s =>
      match rev (fImportFields s) with
      | [] => (UB, s)
      | back :: front =>
          if Buffer_is_null (fFieldBuffer back)
          then (Ok tt,
                with_fImportFields
                  (rev front ++
                   [with_fFieldBuffer
                      (if isClass firstLeaf then BranchPointee idx else BranchBuffer idx)
                      back]) s)
          else (Ok tt, s)
      end) ;;;
   modify (fun s => with_fImportBranches
                      (fImportBranches s ++ [mkImportBranch (branch_GetName b) (fst acc)]) s)).
Proof.
  intros Hl H1 H2 H3. unfold prepare_branch. rewrite Hl, H1, H2, H3. reflexivity.
Qed.

(** A branch that is no leaf list has one leaf at most. *)
Lemma no_leaf_list_single b firstLeaf rest :
  branch_GetListOfLeaves b = firstLeaf :: rest -> isLeafList b = false -> rest = [].
Proof.
  intros Hl Hlist. unfold isLeafList, branch_GetNleaves in Hlist. rewrite Hl in Hlist.
  apply Z.ltb_ge in Hlist. cbn [List.length] in Hlist.
  destruct rest; [reflexivity|cbn [List.length] in Hlist; lia].
Qed.

(** C6 (amended): the first leaf of a branch is classified as a C string
    exactly when the branch is no leaf list, the leaf is a TLeafC, it has
    no leaf counter and its count is 1.  When a leaf so classified is no
    count leaf, the visit of its branch asks the factory for a field of
    type std::string under the name of the branch and for nothing else:
    when the factory fails, the visit returns that failure and changes
    nothing; when it delivers, the visit succeeds and the field delivered
    has become an import field that owns its value buffer, has been added
    to the model, and has got a string transformation. *)
Theorem isCString_classification (env : Collaborators) (b : TBranch) (firstLeaf : TLeaf) :
  (isCString b firstLeaf = true <->
     isLeafList b = false /\ leaf_IsA firstLeaf = TLeafC /\
     leaf_LeafCount firstLeaf = None /\ leaf_Countval firstLeaf = 1) /\
  (forall rest s t m,
     branch_GetListOfLeaves b = firstLeaf :: rest ->
     isCString b firstLeaf = true ->
     isCountLeaf firstLeaf = false ->
     fSourceTree s = Some t ->
     fModel s = Some m ->
     fieldName b firstLeaf = branch_GetName b /\
     fieldType b firstLeaf firstLeaf = "std::string" /\
     match RFieldBase_Create env (branch_GetName b) "std::string" with
     | Failure e => prepare_branch env b s = (Failed e, s)
     | Success field =>
         exists s',
           prepare_branch env b s = (Ok tt, s') /\
           fImportFields s'
           = fImportFields s ++
             [mkImportField (CreatedField field)
                            (OwnedValue (List.length (fImportFields s))) true false false] /\
           fModel s' = Some (model_Add (TopField (CreatedField field)) m) /\
           fImportTransformations s'
           = fImportTransformations s ++
             [RCStringTransformation (List.length (fImportBranches s))
                                     (List.length (fImportFields s))]
     end).
Proof.
  assert (Hiff : isCString b firstLeaf = true <->
            isLeafList b = false /\ leaf_IsA firstLeaf = TLeafC /\
            leaf_LeafCount firstLeaf = None /\ leaf_Countval firstLeaf = 1).
  { unfold isCString.
    rewrite !andb_true_iff, !negb_true_iff, LeafClass_eqb_eq, has_LeafCounter_false, Z.eqb_eq.
    tauto. }
  split; [exact Hiff|].
  intros rest s t m Hl Hc Hcl Ht Hm.
  destruct (proj1 Hiff Hc) as (Hlist & Hisa & Hcount & Hval).
  pose proof (no_leaf_list_single b firstLeaf rest Hl Hlist) as ->.
  assert (Hname : fieldName b firstLeaf = branch_GetName b).
  { unfold fieldName. now rewrite Hlist. }
  assert (Hclass : isClass firstLeaf = false) by (unfold isClass; now rewrite Hisa).
  assert (Hobj : LeafClass_eqb (leaf_IsA firstLeaf) TLeafObject = false)
    by (now rewrite Hisa).
  assert (Htype : fieldType b firstLeaf firstLeaf = "std::string").
  { unfold fieldType, isFixedSizeArray, has_LeafCounter.
    rewrite Hc, Hclass, Hcount, Hval. reflexivity. }
  split; [exact Hname|]. split; [exact Htype|].
  destruct (RFieldBase_Create env (branch_GetName b) "std::string") as [field|e]
    eqn:Hcreate;
    (rewrite (prepare_branch_steps env b firstLeaf [] Hl);
       [|now rewrite Hlist|now rewrite Hlist|exact Hcl]);
    unfold bind at 1; cbn [for_each]; unfold bind at 1;
    unfold prepare_leaf at 1; rewrite Hobj, Hname, Htype, Hcreate; [|reflexivity].
  rewrite Hcount, Hlist, Hc.
  cbv beta iota zeta. cbv beta iota delta [bind AddToModel deref modify ret].
  proj. rewrite Hm. proj. cbn [fst snd]. rewrite Hclass.
  cbv beta iota delta [SetBranchAddress bind deref modify]. proj. rewrite Ht.
  proj. rewrite rev_unit. cbn [Buffer_is_null fFieldBuffer].
  eexists. split; [reflexivity|]. proj. repeat split.
Qed.

Lemma isCString_classification_witness :
  isCString Scenario.branch_s Scenario.leaf_s = true /\
  exists s',
    prepare_branch (Scenario.env [] true) Scenario.branch_s
                   (snd (ResetSchema (Scenario.importer [] Scenario.tree))) = (Ok tt, s') /\
    fImportFields s'
    = [mkImportField (CreatedField (mkRField "s" "std::string" 32)) (OwnedValue 0)
                     true false false].
Proof.
  split; [reflexivity|].
  assert (E : RFieldBase_Create (Scenario.env [] true) (branch_GetName Scenario.branch_s)
                "std::string" = Success (mkRField "s" "std::string" 32)) by reflexivity.
  destruct (proj2 (isCString_classification (Scenario.env [] true) Scenario.branch_s
                     Scenario.leaf_s)
              [] (snd (ResetSchema (Scenario.importer [] Scenario.tree)))
              (tree_SetImplicitMT false Scenario.tree) CreateBare
              eq_refl eq_refl eq_refl eq_refl eq_refl) as (_ & _ & H).
  rewrite E in H. destruct H as (s' & Hrun & Hfields & _).
  exists s'. split; [exact Hrun|exact Hfields].
Defined.

(** C6, as worded, fails for a leaf that is classified as a C string and
    is a count leaf as well: the visit of its branch ends at line 186, no
    field is asked for and none is made.  The tree of one such branch is
    prepared successfully without a single import field. *)
Lemma C_string_counter_yields_no_field :
  isCString Scenario.branch_c Scenario.leaf_c = true /\
  fst (PrepareSchema (Scenario.env [] true)
         (Scenario.importer [] Scenario.tree_string_counter)) = Ok tt /\
  fImportFields (Scenario.prepared Scenario.tree_string_counter) = [] /\
  ~ (forall env b firstLeaf s s',
       branch_GetListOfLeaves b = [firstLeaf] ->
       isCString b firstLeaf = true ->
       prepare_branch env b s = (Ok tt, s') ->
       exists f, In f (fImportFields s')).
Proof.
  split; [reflexivity|]. split; [vm_compute; reflexivity|].
  split; [vm_compute; reflexivity|].
  intro H.
  destruct (H (Scenario.env [] true) Scenario.branch_c Scenario.leaf_c
              (snd (ResetSchema (Scenario.importer [] Scenario.tree_string_counter)))
              (snd (prepare_branch (Scenario.env [] true) Scenario.branch_c
                      (snd (ResetSchema
                              (Scenario.importer [] Scenario.tree_string_counter)))))
              eq_refl eq_refl ltac:(vm_compute; reflexivity))
    as (f & Hin).
  vm_compute in Hin. exact Hin.
Qed.

(** ** Results that are dropped *)

(** C1: a branch with two leaves whose first leaf is of class type makes
    schema preparation fail.  [Import] does not return that failure: it
    drops the result of [PrepareSchema].  If a dropped failure raises, the
    import ends with an exception and nothing has reached the destination;
    if it does not, [Import] goes on to open the sink and to create the
    writer on the half-built model, and the first entry dereferences the
    null [fEntry]. *)
Theorem Import_drops_failed_preparation :
  (forall throws,
     fst (PrepareSchema (Scenario.env [] throws)
            (Scenario.importer [] Scenario.tree_class_in_leaf_list))
     = Failed "unsupported: classes in leaf list, branch ev") /\
  (forall throws e,
     fst (Import (Scenario.env [] throws)
            (Scenario.importer [] Scenario.tree_class_in_leaf_list)) <> Failed e) /\
  (let r := Import (Scenario.env [] true)
              (Scenario.importer [] Scenario.tree_class_in_leaf_list) in
   fst r = Thrown "unsupported: classes in leaf list, branch ev" /\
   fTrace (snd r) = []) /\
  (let r := Import (Scenario.env [] false)
              (Scenario.importer [] Scenario.tree_class_in_leaf_list) in
   fst r = UB /\
   filter is_destination_event (fTrace (snd r)) =
     [EvOpenSink "tree" 505;
      EvCreateWriter
        (Some (mkModel [TopField (CreatedField (mkRField "x" "float" 4))] false))]).
Proof.
  split; [intros []; vm_compute; reflexivity|].
  split; [intros [] e; vm_compute; discriminate|].
  split; vm_compute; split; reflexivity.
Qed.

(** C2: when the destination file cannot be opened, neither overload of
    [Create] returns a failure: the result of [SetupDestination] is dropped.
    If a dropped failure raises, [Create] ends with an exception; if it does
    not, [Create] hands out an importer whose [fDestFile] is null, on which
    [Import] dereferences the null pointer.  A source file that cannot be
    opened is, in contrast, returned as a failure. *)
Theorem Create_drops_failed_destination :
  (forall throws e,
     Create (Scenario.env [] throws) "in.root" "tree" "nowhere.root" <> Failed e /\
     Create_from_tree (Scenario.env [] throws) Scenario.tree "nowhere.root" <> Failed e) /\
  Create (Scenario.env [] true) "in.root" "tree" "nowhere.root"
    = Thrown "cannot open dest file nowhere.root" /\
  Create_from_tree (Scenario.env [] true) Scenario.tree "nowhere.root"
    = Thrown "cannot open dest file nowhere.root" /\
  (exists importer,
     Create (Scenario.env [] false) "in.root" "tree" "nowhere.root" = Ok importer /\
     fDestFile importer = None /\
     fst (Import (Scenario.env [] false) importer) = UB) /\
  (exists importer,
     Create_from_tree (Scenario.env [] false) Scenario.tree "nowhere.root" = Ok importer /\
     fDestFile importer = None /\
     fst (Import (Scenario.env [] false) importer) = UB) /\
  Create (Scenario.env [] false) "nowhere.root" "tree" "out.root"
    = Failed "cannot open source file nowhere.root".
Proof.
  split; [intros [] e; split; vm_compute; discriminate|].
  split; [vm_compute; reflexivity|].
  split; [vm_compute; reflexivity|].
  split; [eexists; split; [vm_compute; reflexivity|split; vm_compute; reflexivity]|].
  split; [eexists; split; [vm_compute; reflexivity|split; vm_compute; reflexivity]|].
  vm_compute; reflexivity.
Qed.

(** ** Progress reports *)

(** C9: on the tree with three entries the progress hook is called after
    each entry has been submitted, and is told 0, 1 and 2 entries when 1, 2
    and 3 entries have been submitted: the loop passes the index of the
    entry, not the number of entries written.  The lines printed carry the
    same numbers.  The final call reports 3, the number of entries
    written. *)
Theorem progress_reports_entry_index :
  let tr := fTrace (snd (Import (Scenario.env [] true) (Scenario.importer [] Scenario.tree))) in
  fst (Import (Scenario.env [] true) (Scenario.importer [] Scenario.tree)) = Ok tt /\
  progress_reports 0 tr = [(0, 1%nat); (1, 2%nat); (2, 3%nat)] /\
  filter (fun e => match e with EvPrintWrote _ _ => true | _ => false end) tr =
    [EvPrintWrote 60 0; EvPrintWrote 120 1; EvPrintWrote 180 2] /\
  final_reports 0 tr = [(3, 3%nat)].
Proof.
  vm_compute. repeat split; reflexivity.
Qed.

(** ** Size of the branch buffer *)

(** C7, as worded, fails for C strings: the buffer of the string branch [s]
    is given the leaf's maximum, 10 bytes, whereas offset plus element
    width is 0 + 32. *)
Lemma C_string_buffer_is_not_offset_plus_width :
  isCString Scenario.branch_s Scenario.leaf_s = true /\
  leafBufferSize Scenario.branch_s Scenario.leaf_s Scenario.leaf_s
                 (mkRField "s" "std::string" 32) 0 = 10 /\
  spec_buffer_size Scenario.branch_s Scenario.leaf_s Scenario.leaf_s
                   (mkRField "s" "std::string" 32) 0 = 32 /\
  fImportBranches (Scenario.prepared Scenario.tree) =
    [mkImportBranch "a" 8; mkImportBranch "s" 10] /\
  ~ (forall b firstLeaf l field maxLength,
       leafBufferSize b firstLeaf l field maxLength
       = spec_buffer_size b firstLeaf l field maxLength).
Proof.
  split; [reflexivity|]. split; [reflexivity|]. split; [reflexivity|].
  split; [vm_compute; reflexivity|].
  intro H.
  specialize (H Scenario.branch_s Scenario.leaf_s Scenario.leaf_s
                (mkRField "s" "std::string" 32) 0).
  vm_compute in H. discriminate H.
Qed.

(** ** The scenarios, checked against the theorems *)

Lemma Import_writes_min_entries_witness :
  fDestFile (with_fMaxEntries 2 (Scenario.importer [] Scenario.tree))
    = Some (mkTFile false [] []) /\
  file_FindKey (fNTupleName (with_fMaxEntries 2 (Scenario.importer [] Scenario.tree)))
               (mkTFile false [] []) = false /\
  untouched (tree_SetImplicitMT false Scenario.tree) = true /\
  count_leaves_distinct (tree_SetImplicitMT false Scenario.tree) = true /\
  fst (PrepareSchema (Scenario.env [] true)
         (with_fMaxEntries 2 (Scenario.importer [] Scenario.tree))) = Ok tt /\
  exists s' evs,
    Import (Scenario.env [] true) (with_fMaxEntries 2 (Scenario.importer [] Scenario.tree))
      = (Ok tt, s') /\
    fTrace s' = fTrace (with_fMaxEntries 2 (Scenario.importer [] Scenario.tree)) ++ evs /\
    submitted evs = [0; 1] /\
    fills evs = 2%nat.
Proof.
  split; [reflexivity|]. split; [reflexivity|].
  split; [reflexivity|]. split; [reflexivity|].
  split; [vm_compute; reflexivity|].
  apply (Import_writes_min_entries (Scenario.env [] true)
           (with_fMaxEntries 2 (Scenario.importer [] Scenario.tree))
           (mkTFile false [] []) (tree_SetImplicitMT false Scenario.tree)
           (snd (PrepareSchema (Scenario.env [] true)
                   (with_fMaxEntries 2 (Scenario.importer [] Scenario.tree)))));
    vm_compute; reflexivity.
Defined.

Lemma branch_buffer_size_witness :
  prepare_branch (Scenario.env [] true) Scenario.branch_s
                 (snd (ResetSchema (Scenario.importer [] Scenario.tree)))
    = (Ok tt, snd (prepare_branch (Scenario.env [] true) Scenario.branch_s
                     (snd (ResetSchema (Scenario.importer [] Scenario.tree))))) /\
  exists field,
    RFieldBase_Create (Scenario.env [] true)
                      (fieldName Scenario.branch_s Scenario.leaf_s)
                      (fieldType Scenario.branch_s Scenario.leaf_s Scenario.leaf_s)
      = Success field /\
    fImportBranches (snd (prepare_branch (Scenario.env [] true) Scenario.branch_s
                            (snd (ResetSchema (Scenario.importer [] Scenario.tree)))))
      = [mkImportBranch "s" 10].
Proof.
  split; [vm_compute; reflexivity|].
  destruct (branch_buffer_size (Scenario.env [] true) Scenario.branch_s Scenario.leaf_s []
              Scenario.leaf_s
              (snd (ResetSchema (Scenario.importer [] Scenario.tree)))
              (snd (prepare_branch (Scenario.env [] true) Scenario.branch_s
                      (snd (ResetSchema (Scenario.importer [] Scenario.tree))))))
    as (field & Hcreate & Hbranches).
  - reflexivity.
  - reflexivity.
  - reflexivity.
  - vm_compute. reflexivity.
  - exists field. split; [exact Hcreate|]. rewrite Hbranches. reflexivity.
Defined.

(** When a dropped failure raises, a failed preparation makes [Import] end
    with an exception before the sink is opened: all that has been added to
    the trace are lines of the schema report. *)
Lemma Import_failed_preparation_raises env s dest e s1 :
  unchecked_failure_throws env = true ->
  fDestFile s = Some dest ->
  file_FindKey (fNTupleName s) dest = false ->
  PrepareSchema env s = (Failed e, s1) ->
  Import env s = (Thrown e, s1) /\
  exists rep, fTrace s1 = fTrace s ++ rep /\ forallb is_EvReportSchema rep = true.
Proof.
  intros Hthrows Hdest Hkey Hprep. split.
  - unfold Import. unfold bind at 1. unfold deref. rewrite Hdest.
    unfold bind at 1. rewrite Hkey.
    unfold bind at 1. unfold discard. rewrite Hprep, Hthrows. reflexivity.
  - now destruct (framed_PrepareSchema env _ _ _ Hprep)
      as (_ & _ & _ & _ & _ & _ & _ & _ & _ & Hrep).
Qed.

(** When a dropped failure does not raise, a failed preparation does not
    stop [Import]: the sink is opened and the writer is created on the model
    as the failed preparation has left it. *)
Lemma Import_failed_preparation_goes_on env s dest e s1 :
  unchecked_failure_throws env = false ->
  fDestFile s = Some dest ->
  file_FindKey (fNTupleName s) dest = false ->
  PrepareSchema env s = (Failed e, s1) ->
  Import env s =
    with_writer (import_entries env)
      (with_fTrace (fTrace s1 ++ [EvOpenSink (fNTupleName s1) (fWriteOptions s1);
                                  EvCreateWriter (fModel s1)]) s1).
Proof.
  intros Hthrows Hdest Hkey Hprep.
  unfold Import. unfold bind at 1. unfold deref. rewrite Hdest.
  unfold bind at 1. rewrite Hkey.
  unfold bind at 1. unfold discard. rewrite Hprep, Hthrows.
  unfold bind at 1. unfold emit, modify. reflexivity.
Qed.

(** * Further properties *)

(** ** Creating an importer *)

(** X1: [Create] from file names returns a failure exactly when the source
    cannot be used, and then with the message of line 91 (the file does not
    open or is a zombie) or of line 95 (the file holds no tree of that
    name).  It returns no other failure: a destination that cannot be
    opened never shows as a returned failure. *)
Theorem Create_fails_iff_source_unusable env sourceFileName treeName destFileName e :
  Create env sourceFileName treeName destFileName = Failed e <->
  source_tree env sourceFileName treeName = Failure e.
Proof.
  unfold Create, source_tree, returning_importer.
  cbv beta iota delta [bind modify discard SetupDestination].
  proj.
  destruct (TFile_Open env sourceFileName READ) as [f|].
  - destruct (file_IsZombie f).
    + split; intro H; inv H; reflexivity.
    + destruct (file_GetTree treeName (file_Trees f)) as [t|].
      * proj. split; [|discriminate].
        destruct (TFile_Open env destFileName UPDATE) as [d|]; proj.
        -- destruct (file_IsZombie d); [destruct (unchecked_failure_throws env)|];
             discriminate.
        -- destruct (unchecked_failure_throws env); discriminate.
      * split; intro H; inv H; reflexivity.
  - split; intro H; inv H; reflexivity.
Qed.

(** X2: [Create] from file names hands out an importer exactly when the
    source can be used and the destination either opens or its failure,
    which is dropped, does not raise.  The importer is then named after the
    tree, holds the tree with implicit multi-threading switched off, the
    destination name, the default compression, and the defaults of a new
    importer: no limit on the entries (-1), not quiet, an empty schema. *)
Theorem Create_returns_importer_iff env sourceFileName treeName destFileName importer :
  Create env sourceFileName treeName destFileName = Ok importer <->
  exists t,
    source_tree env sourceFileName treeName = Success t /\
    (destination_ok env destFileName || negb (unchecked_failure_throws env)) = true /\
    importer =
      mkImporter treeName destFileName (TFile_Open env sourceFileName READ)
                 (Some (tree_SetImplicitMT false t)) (TFile_Open env destFileName UPDATE)
                 (kDefaultCompressionSettings env) None None [] [] [] [] false (-1) None [].
Proof.
  unfold Create, source_tree, destination_ok, returning_importer.
  cbv beta iota delta [bind modify discard SetupDestination].
  proj.
  destruct (TFile_Open env sourceFileName READ) as [f|].
  2: { split; [discriminate|]. intros (t & H & _). discriminate H. }
  destruct (file_IsZombie f).
  { split; [discriminate|]. intros (t & H & _). discriminate H. }
  destruct (file_GetTree treeName (file_Trees f)) as [t|].
  2: { split; [discriminate|]. intros (t & H & _). discriminate H. }
  proj.
  destruct (TFile_Open env destFileName UPDATE) as [d|]; proj.
  - destruct (file_IsZombie d); [destruct (unchecked_failure_throws env)|]; cbn [negb orb].
    + split; [discriminate|]. intros (t' & _ & H & _). discriminate H.
    + split.
      * intro H. inv H. exists t. repeat split.
      * intros (t' & Ht & _ & ->). inv Ht. reflexivity.
    + split.
      * intro H. inv H. exists t. repeat split.
      * intros (t' & Ht & _ & ->). inv Ht. reflexivity.
  - destruct (unchecked_failure_throws env); cbn [negb orb].
    + split; [discriminate|]. intros (t' & _ & H & _). discriminate H.
    + split.
      * intro H. inv H. exists t. repeat split.
      * intros (t' & Ht & _ & ->). inv Ht. reflexivity.
Qed.

(** ** What the visit of the branches changes *)

(** Every statement of the two loops of [PrepareSchema] changes the
    importer through a handful of updates.  A reflexive and transitive
    relation that these updates keep is kept by the loops. *)
Section Steps.
Variable R : RNTupleImporter -> RNTupleImporter -> Prop.
Hypothesis R_refl : forall s, R s s.
Hypothesis R_trans : forall s1 s2 s3, R s1 s2 -> R s2 s3 -> R s1 s3.
Hypothesis R_tree : forall s t name a,
  fSourceTree s = Some t ->
  R s (with_fSourceTree (Some (tree_SetBranchAddress name a t)) s).
Hypothesis R_model : forall s m f,
  fModel s = Some m -> R s (with_fModel (Some (model_Add f m)) s).
Hypothesis R_fields : forall s v, R s (with_fImportFields v s).
Hypothesis R_branches : forall s v, R s (with_fImportBranches v s).
Hypothesis R_collections : forall s v, R s (with_fLeafCountCollections v s).
Hypothesis R_transformations : forall s v, R s (with_fImportTransformations v s).

Ltac stepR :=
  lazymatch goal with
  | |- R ?s ?s => apply R_refl
  | |- R ?s (with_fImportFields ?v ?x) =>
      apply (R_trans s x); [stepR|apply R_fields]
  | |- R ?s (with_fImportBranches ?v ?x) =>
      apply (R_trans s x); [stepR|apply R_branches]
  | |- R ?s (with_fLeafCountCollections ?v ?x) =>
      apply (R_trans s x); [stepR|apply R_collections]
  | |- R ?s (with_fImportTransformations ?v ?x) =>
      apply (R_trans s x); [stepR|apply R_transformations]
  end.

Lemma steps_bind {A B} (m : M A) (k : A -> M B) :
  preserving R m -> (forall a, preserving R (k a)) -> preserving R (bind m k).
Proof. now apply preserving_bind. Qed.

Lemma steps_SetBranchAddress name a : preserving R (SetBranchAddress name a).
Proof.
  intros s o s' H. cbv beta iota delta [SetBranchAddress bind deref modify] in H.
  destruct (fSourceTree s) as [t|] eqn:Ht; inv H; [now apply R_tree|apply R_refl].
Qed.

Lemma steps_AddToModel f : preserving R (AddToModel f).
Proof.
  intros s o s' H. cbv beta iota delta [AddToModel bind deref modify] in H.
  destruct (fModel s) as [m|] eqn:Hm; inv H; [now apply R_model|apply R_refl].
Qed.

Lemma steps_prepare_count_leaf b firstLeaf : preserving R (prepare_count_leaf b firstLeaf).
Proof.
  unfold prepare_count_leaf. intros s o s' H.
  destruct (StdMap.emplace _ _ _) as [m inserted].
  revert H. generalize s o s'. change (preserving R
    (SetBranchAddress (branch_GetName b)
       (if inserted then AddrCountVal (leaf_GetName firstLeaf) else AddrFreed) ;;;
     modify (with_fLeafCountCollections m))).
  apply steps_bind; [apply steps_SetBranchAddress|]. intros _.
  apply preserving_modify. intro s0. apply R_collections.
Qed.

Lemma steps_prepare_leaf env b firstLeaf l acc :
  preserving R (prepare_leaf env b firstLeaf l acc).
Proof.
  intros s o s' H. unfold prepare_leaf in H.
  destruct (LeafClass_eqb (leaf_IsA l) TLeafObject); [inv H; apply R_refl|].
  destruct (RFieldBase_Create env _ _) as [field|e]; [|inv H; apply R_refl].
  cbv zeta in H.
  match type of H with
  | context [match ?x with (maxLength, s2) => _ end] => destruct x as [maxLength s2] eqn:Hs2
  end.
  assert (F2 : R s s2).
  { clear H.
    destruct (isCString b firstLeaf); destruct (leaf_LeafCount l);
      try destruct (negb _ && negb _); try destruct (StdMap.index _ _ _);
      inv Hs2; stepR. }
  clear Hs2.
  destruct (isLeafList b); [inv H; exact F2|].
  destruct (leaf_LeafCount l) as [countleafName|].
  - destruct (StdMap.index default_collection countleafName (fLeafCountCollections s2))
      as [c m].
    destruct (fCollectionModel c); inv H; (eapply R_trans; [exact F2|stepR]).
  - eapply R_trans; [exact F2|]. revert H. generalize s2 o s'.
    apply steps_bind; [apply steps_AddToModel|]. intros _.
    apply steps_bind; [|intros; now apply preserving_ret].
    apply preserving_modify. intro s0. apply R_fields.
Qed.

Lemma steps_prepare_branch env b : preserving R (prepare_branch env b).
Proof.
  unfold prepare_branch.
  destruct (branch_GetListOfLeaves b) as [|firstLeaf leaves];
    [now apply preserving_stop|].
  destruct (isLeafList b && isClass firstLeaf); [now apply preserving_stop|].
  destruct (isLeafList b && isCountLeaf firstLeaf); [now apply preserving_stop|].
  destruct (isCountLeaf firstLeaf); [apply steps_prepare_count_leaf|].
  apply steps_bind;
    [apply preserving_for_each; try assumption; intros; apply steps_prepare_leaf|].
  intros [branchBufferSize recordItems]. cbn [fst snd].
  apply steps_bind.
  { destruct recordItems; [now apply preserving_ret|].
    apply steps_bind; [|intros; apply steps_AddToModel].
    apply preserving_modify. intro s. apply R_fields. }
  intros _. apply steps_bind.
  { intros s o s' H. inv H. apply R_refl. }
  intro idx. apply steps_bind.
  { destruct (isClass firstLeaf); [destruct (TClass_GetClass env _)|];
      try apply steps_SetBranchAddress; now apply preserving_stop. }
  intros _. apply steps_bind.
  { intros s o s' H.
    destruct (rev (fImportFields s)) as [|back front]; [inv H; apply R_refl|].
    destruct (Buffer_is_null (fFieldBuffer back)); inv H; [apply R_fields|apply R_refl]. }
  intros _. apply preserving_modify. intro s. apply R_branches.
Qed.

Lemma steps_prepare_branches env branches :
  preserving R (for_each (fun b (_ : unit) => prepare_branch env b) branches tt).
Proof.
  apply preserving_for_each; try assumption. intros. apply steps_prepare_branch.
Qed.

Lemma steps_capture_fields idxs : preserving R (capture_fields idxs).
Proof.
  unfold capture_fields. apply preserving_for_each; try assumption.
  intros idx e s o s' H.
  destruct (nth_error (fImportFields s) idx); inv H; apply R_refl.
Qed.

Lemma steps_add_projected_fields env name idxs :
  preserving R (add_projected_fields env name idxs).
Proof.
  unfold add_projected_fields. apply preserving_for_each; try assumption.
  intros idx [] s o s' H.
  destruct (nth_error (fImportFields s) idx) as [f|]; [|inv H; apply R_refl].
  revert H. apply steps_bind; [now apply preserving_stop|].
  intros; apply steps_AddToModel.
Qed.

Lemma steps_open_collection i c : preserving R (open_collection i c).
Proof.
  unfold open_collection.
  apply steps_bind; [now apply preserving_deref|]. intro sub.
  apply steps_bind; [apply steps_capture_fields|]. intro entry.
  apply steps_bind; [apply steps_AddToModel|]. intros _.
  now apply preserving_ret.
Qed.

Lemma steps_project_collection env key c : preserving R (project_collection env key c).
Proof.
  unfold project_collection.
  apply steps_bind; [apply steps_add_projected_fields|]. intros _.
  apply steps_bind; [now apply preserving_stop|]. intro pf.
  apply steps_AddToModel.
Qed.

Lemma steps_finish_collections env todo :
  forall done i, preserving R (finish_collections env done todo i).
Proof.
  induction todo as [|[key c] todo IH]; intros done i; cbn [finish_collections].
  - apply preserving_modify. intro s. apply R_collections.
  - intros s o s' H.
    destruct (open_collection i c s) as [o1 s1] eqn:HO.
    pose proof (steps_open_collection i c _ _ _ HO) as Hopen.
    destruct o1 as [c'| | |];
      try solve [inv H; eapply R_trans; [exact Hopen|apply R_collections]].
    destruct (project_collection env key c' s1) as [o2 s2] eqn:HP.
    pose proof (steps_project_collection env key c' _ _ _ HP) as Hproj.
    pose proof (R_trans _ _ _ Hopen Hproj) as Hboth.
    destruct o2 as [[]| | |];
      try solve [inv H; eapply R_trans; [exact Hboth|apply R_collections]].
    eapply R_trans; [exact Hboth|]. eapply IH; eauto.
Qed.
End Steps.

Lemma building_refl s : building s s.
Proof. unfold building. repeat split; reflexivity. Qed.

Lemma building_trans s1 s2 s3 : building s1 s2 -> building s2 s3 -> building s1 s3.
Proof. unfold building. intuition congruence. Qed.

Lemma building_branches env branches :
  preserving building (for_each (fun b (_ : unit) => prepare_branch env b) branches tt).
Proof.
  apply steps_prepare_branches;
    try (intros; unfold building; proj; repeat split; reflexivity).
  - apply building_trans.
  - intros s m f Hm. unfold building. proj. rewrite Hm. repeat split; reflexivity.
Qed.

Lemma building_collections env todo done i :
  preserving building (finish_collections env done todo i).
Proof.
  apply steps_finish_collections;
    try (intros; unfold building; proj; repeat split; reflexivity).
  - apply building_trans.
  - intros s m f Hm. unfold building. proj. rewrite Hm. repeat split; reflexivity.
Qed.

(** How a sequence ends: its first part has run and the rest decides, or
    the first part has not run to its end. *)
Lemma bind_outcome {A B} (m : M A) (k : A -> M B) s o s' :
  bind m k s = (o, s') ->
  (exists a s1, m s = (Ok a, s1) /\ k a s1 = (o, s')) \/
  (is_Ok o = false /\ exists oa, m s = (oa, s') /\ is_Ok oa = false).
Proof.
  unfold bind. destruct (m s) as [[a|e|e|] s1]; intro H.
  - left. exists a, s1. split; [reflexivity|exact H].
  - inv H. right. split; [reflexivity|]. eexists. split; reflexivity.
  - inv H. right. split; [reflexivity|]. eexists. split; reflexivity.
  - inv H. right. split; [reflexivity|]. eexists. split; reflexivity.
Qed.

(** The run of [PrepareSchema]: the schema is cleared and the two loops run,
    which leaves the importer [s3]; either something has gone wrong by then,
    or the model of [s3] is frozen and the entry made. *)
Lemma PrepareSchema_run env s o s1 :
  PrepareSchema env s = (o, s1) ->
  exists s3,
    building (snd (ResetSchema s)) s3 /\
    ((is_Ok o = false /\ s1 = s3) \/
     (exists m, fModel s3 = Some m /\ o = Ok tt /\ s1 = schema_completed m s3)).
Proof.
  intro H. rewrite PrepareSchema_steps in H.
  apply bind_outcome in H.
  destruct H as [([] & s0 & HR & H)|(_ & oa & HR & Hoa)].
  2: { unfold ResetSchema, modify in HR. inv HR. discriminate Hoa. }
  replace (snd (ResetSchema s)) with s0 by (now rewrite HR). clear HR.
  apply bind_outcome in H.
  destruct H as [(t & s0' & HD & H)|(Ho & oa & HD & Hoa)].
  2: { unfold deref in HD. destruct (fSourceTree s0); inv HD.
       - discriminate Hoa.
       - exists s1. split; [apply building_refl|left; split; [exact Ho|reflexivity]]. }
  assert (s0' = s0) by (unfold deref in HD; destruct (fSourceTree s0); now inv HD).
  subst s0'. clear HD.
  apply bind_outcome in H.
  destruct H as [([] & s2 & HL & H)|(Ho & oa & HL & Hoa)].
  2: { exists s1. split; [exact (building_branches env _ _ _ _ HL)|left; split; [exact Ho|reflexivity]]. }
  pose proof (building_branches env _ _ _ _ HL) as B2. clear HL.
  apply bind_outcome in H.
  destruct H as [([] & s3 & HF & H)|(Ho & oa & HF & Hoa)].
  2: { exists s1. split; [|left; split; [exact Ho|reflexivity]].
       exact (building_trans _ _ _ B2 (building_collections env _ _ _ _ _ _ HF)). }
  pose proof (building_trans _ _ _ B2 (building_collections env _ _ _ _ _ _ HF)) as B.
  clear HF B2.
  exists s3. split; [exact B|].
  apply bind_outcome in H.
  destruct H as [(m & s3' & HD & H)|(Ho & oa & HD & Hoa)].
  2: { unfold deref in HD. destruct (fModel s3); inv HD.
       - discriminate Hoa.
       - left; split; [exact Ho|reflexivity]. }
  assert (Hm : fModel s3 = Some m /\ s3' = s3)
    by (unfold deref in HD; destruct (fModel s3); inv HD; split; reflexivity).
  destruct Hm as [Hm ->]. clear HD.
  right. exists m. split; [exact Hm|].
  apply bind_outcome in H.
  destruct H as [([] & s4 & HM & H)|(_ & oa & HM & Hoa)].
  2: { unfold modify in HM. inv HM. discriminate Hoa. }
  unfold modify in HM. inv HM.
  apply bind_outcome in H.
  destruct H as [([] & s5 & HM & H)|(_ & oa & HM & Hoa)].
  2: { unfold modify in HM. inv HM. discriminate Hoa. }
  unfold modify in HM. inv HM.
  unfold schema_completed.
  match type of H with
  | (if ?q then _ else _) = _ => change q with (fIsQuiet s3) in H
  end.
  destruct (fIsQuiet s3).
  - inv H. split; reflexivity.
  - unfold ReportSchema, emit, modify in H. inv H. split; reflexivity.
Qed.

(** ** The end of schema preparation *)

(** X3: [PrepareSchema] leaves an outer entry and a frozen model exactly
    when it succeeds.  After a preparation that has failed, raised or left
    defined behaviour, [fEntry] is null and the model, which exists, is not
    frozen: the importer cannot be used for the loop of [Import]. *)
Theorem PrepareSchema_entry_iff_success env s :
  is_some (fEntry (snd (PrepareSchema env s))) = is_Ok (fst (PrepareSchema env s)) /\
  exists m, fModel (snd (PrepareSchema env s)) = Some m /\
            model_Frozen m = is_Ok (fst (PrepareSchema env s)).
Proof.
  destruct (PrepareSchema env s) as [o s1] eqn:H. cbn [fst snd].
  destruct (PrepareSchema_run env s o s1 H) as (s3 & (_ & He & _ & Hm) & Hcase).
  assert (He0 : fEntry s3 = None) by (rewrite He; reflexivity).
  assert (Hm0 : option_map model_Frozen (fModel s3) = Some false)
    by (rewrite Hm; reflexivity).
  destruct Hcase as [(Ho & ->)|(m & Hm3 & -> & ->)].
  - rewrite He0, Ho. split; [reflexivity|].
    destruct (fModel s3) as [m|]; [|discriminate Hm0].
    exists m. split; [reflexivity|]. now inv Hm0.
  - unfold schema_completed. destruct (fIsQuiet s3); proj; cbn [is_some is_Ok];
      (split; [reflexivity|]); eexists; (split; [reflexivity|]); reflexivity.
Qed.

Lemma PrepareSchema_trace env s :
  fTrace (snd (PrepareSchema env s))
  = fTrace s ++
    (if is_Ok (fst (PrepareSchema env s)) && negb (fIsQuiet s)
     then map schema_line (fImportFields (snd (PrepareSchema env s)))
     else []).
Proof.
  destruct (PrepareSchema env s) as [o s1] eqn:H. cbn [fst snd].
  destruct (PrepareSchema_run env s o s1 H) as (s3 & (Ht & _ & Hq & _) & Hcase).
  assert (Ht0 : fTrace s3 = fTrace s) by (rewrite Ht; reflexivity).
  assert (Hq0 : fIsQuiet s3 = fIsQuiet s) by (rewrite Hq; reflexivity).
  destruct Hcase as [(Ho & ->)|(m & Hm3 & -> & ->)].
  - rewrite Ho, Ht0. cbn [andb]. now rewrite app_nil_r.
  - unfold schema_completed. rewrite <- Hq0. destruct (fIsQuiet s3); proj; cbn [is_Ok andb negb].
    + now rewrite Ht0, app_nil_r.
    + now rewrite Ht0.
Qed.

(** X4: the schema report.  Whatever its outcome, [PrepareSchema] adds to
    the terminal nothing but the report, and only once everything else has
    succeeded: a quiet importer and a preparation that does not succeed
    print nothing; otherwise one line is printed for every import field
    (record fields and the members of collections included), in the order
    in which the fields were made. *)
Theorem PrepareSchema_reports_the_fields env s :
  fTrace (snd (PrepareSchema env s))
  = fTrace s ++
    (if is_Ok (fst (PrepareSchema env s)) && negb (fIsQuiet s)
     then map schema_line (fImportFields (snd (PrepareSchema env s)))
     else []).
Proof. exact (PrepareSchema_trace env s). Qed.

(** ** How [Import] can end *)

Lemma rou_bind {A B} (m : M A) (k : A -> M B) :
  runs_or_undefined m -> (forall a, runs_or_undefined (k a)) -> runs_or_undefined (bind m k).
Proof.
  intros Hm Hk s o s' H. unfold bind in H.
  destruct (m s) as [oa s1] eqn:Hms. pose proof (Hm _ _ _ Hms) as Hoa.
  destruct oa as [a|e|e|].
  - exact (Hk a _ _ _ H).
  - destruct Hoa as [Hoa|Hoa]; discriminate Hoa.
  - destruct Hoa as [Hoa|Hoa]; discriminate Hoa.
  - inv H. now right.
Qed.

Lemma rou_modify f : runs_or_undefined (modify f).
Proof. intros s o s' H. inv H. now left. Qed.

Lemma rou_deref {A} (p : option A) : runs_or_undefined (deref p).
Proof. intros s o s' H. unfold deref in H. destruct p; inv H; [now left|now right]. Qed.

Lemma rou_read {A} (m : RNTupleImporter -> M A) :
  (forall s0, runs_or_undefined (m s0)) -> runs_or_undefined (fun s => m s s).
Proof. intros Hm s o s' H. eapply Hm; eauto. Qed.

Lemma rou_GetEntry i : runs_or_undefined (GetEntry i).
Proof.
  unfold GetEntry.
  apply rou_bind; [apply (rou_read (fun s0 => deref (fSourceTree s0))); intro; apply rou_deref|].
  intro t. apply rou_bind; [apply rou_modify|]. intros _.
  apply rou_bind; [|intro; apply rou_modify].
  apply (rou_read (fun s0 => deref (deliver t i (tree_BranchAddress t)
                                            (fLeafCountCollections s0)))).
  intro; apply rou_deref.
Qed.

Lemma rou_import_entry env i : runs_or_undefined (import_entry env i).
Proof.
  unfold import_entry.
  apply rou_bind; [apply rou_GetEntry|]. intros _.
  apply rou_bind.
  { intros s o s' H. unfold on_collections in H.
    destruct (import_collections _ _ _) as [[o1 cs] ev] eqn:HI. inv H.
    destruct (import_collections_events _ _ _ _ _ _ HI) as (_ & [-> | ->]);
      [now left|now right]. }
  intros _. apply rou_bind.
  { intros s o s' H. unfold on_transformations in H.
    destruct (run_import_transformations _ _ _) as [[o1 ts] ev] eqn:HI. inv H.
    destruct (run_import_transformations_events _ _ _ _ _ _ HI) as (_ & _ & [-> | ->]);
      [now left|now right]. }
  intros _.
  apply rou_bind; [apply (rou_read (fun s0 => deref (fEntry s0))); intro; apply rou_deref|].
  intro entry. apply rou_bind.
  { intros s o s' H. inv H. now left. }
  intros _. intros s o s' H. unfold report_progress in H.
  destruct (fProgressCallback s) as [cb|]; [|inv H; now left].
  destruct (Call cb _ _) as [cb' ev]. inv H. now left.
Qed.

Lemma rou_import_loop env n : forall i, runs_or_undefined (import_loop env n i).
Proof.
  induction n as [|n IH]; intro i; cbn [import_loop].
  - intros s o s' H. inv H. now left.
  - apply rou_bind; [apply rou_import_entry|]. intros _. apply IH.
Qed.

Lemma rou_import_entries env : runs_or_undefined (import_entries env).
Proof.
  unfold import_entries.
  apply rou_bind; [apply rou_modify|]. intros _.
  apply rou_bind; [apply rou_modify|]. intros _.
  apply rou_bind; [apply (rou_read (fun s0 => deref (fSourceTree s0))); intro; apply rou_deref|].
  intro tree. apply rou_bind; [intros s o s' H; inv H; now left|].
  intro nEntries. apply rou_bind; [apply rou_import_loop|]. intros _.
  intros s o s' H. destruct (fProgressCallback s); inv H; now left.
Qed.

Lemma rou_with_writer body :
  runs_or_undefined body -> runs_or_undefined (with_writer body).
Proof.
  intros Hb s o s' H. unfold with_writer in H.
  destruct (body s) as [ob sb] eqn:Hbs. pose proof (Hb _ _ _ Hbs) as Hob.
  destruct ob; inv H; assumption.
Qed.

Lemma bind_cases {A B} (m : M A) (k : A -> M B) s o s' :
  bind m k s = (o, s') ->
  (exists a s1, m s = (Ok a, s1) /\ k a s1 = (o, s')) \/
  (exists e, m s = (Failed e, s') /\ o = Failed e) \/
  (exists e, m s = (Thrown e, s') /\ o = Thrown e) \/
  (m s = (UB, s') /\ o = UB).
Proof.
  unfold bind. destruct (m s) as [[a|e|e|] s1]; intro H.
  - left. exists a, s1. split; [reflexivity|exact H].
  - inv H. right. left. exists e. split; reflexivity.
  - inv H. right. right. left. exists e. split; reflexivity.
  - inv H. right. right. right. split; reflexivity.
Qed.

Lemma Import_steps env :
  Import env =
  (dest <- (fun s => deref (fDestFile s) s) ;;
   (fun s =>
      if file_FindKey (fNTupleName s) dest
      then (Failed ("Key '" +++ fNTupleName s +++ "' already exists in file "
                    +++ fDestFileName s), s)
      else (Ok tt, s)) ;;;
   discard env (PrepareSchema env) ;;;
   (fun s => emit [EvOpenSink (fNTupleName s) (fWriteOptions s);
                   EvCreateWriter (fModel s)] s) ;;;
   with_writer (import_entries env)).
Proof. reflexivity. Qed.

Lemma deref_cases {A} (p : option A) s o s' :
  deref p s = (o, s') ->
  s' = s /\ ((exists a, p = Some a /\ o = Ok a) \/ (p = None /\ o = UB)).
Proof.
  unfold deref. destruct p as [a|]; intro H; inv H; (split; [reflexivity|]).
  - left. exists a. split; reflexivity.
  - right. split; reflexivity.
Qed.

Lemma discard_cases env {A} (m : M A) s o s' :
  discard env m s = (o, s') ->
  exists om, m s = (om, s') /\
    match om with
    | Ok _ => o = Ok tt
    | Failed e => o = if unchecked_failure_throws env then Thrown e else Ok tt
    | Thrown e => o = Thrown e
    | UB => o = UB
    end.
Proof.
  unfold discard. destruct (m s) as [[a|e|e|] s1]; intro H.
  - inv H. eexists. split; reflexivity.
  - destruct (unchecked_failure_throws env); inv H; eexists; split; reflexivity.
  - inv H. eexists. split; reflexivity.
  - inv H. eexists. split; reflexivity.
Qed.

Lemma emit_cases evs s o s' :
  emit evs s = (o, s') -> o = Ok tt /\ s' = with_fTrace (fTrace s ++ evs) s.
Proof. unfold emit, modify. intro H. inv H. split; reflexivity. Qed.

(** The ways in which [Import] ends, read off its statements: the check of
    the key, the preparation whose result is dropped, and the part in which
    the writer lives. *)
Lemma Import_cases env s o s' :
  Import env s = (o, s') ->
  (fDestFile s = None /\ o = UB /\ s' = s) \/
  (exists dest, fDestFile s = Some dest /\
     ((file_FindKey (fNTupleName s) dest = true /\
       o = Failed (key_exists_message s) /\ s' = s) \/
      (file_FindKey (fNTupleName s) dest = false /\
       exists op sp, PrepareSchema env s = (op, sp) /\
         ((exists e, (op = Thrown e \/
                      (op = Failed e /\ unchecked_failure_throws env = true)) /\
                     o = Thrown e /\ s' = sp) \/
          (op = UB /\ o = UB /\ s' = sp) \/
          ((is_Ok op = true \/
            (exists e, op = Failed e /\ unchecked_failure_throws env = false)) /\
           with_writer (import_entries env)
             (with_fTrace (fTrace sp ++ [EvOpenSink (fNTupleName sp) (fWriteOptions sp);
                                         EvCreateWriter (fModel sp)]) sp)
           = (o, s')))))).
Proof.
  intro H. rewrite Import_steps in H.
  apply bind_cases in H.
  destruct H as [(dest & s0 & HD & H)|[(e & HD & _)|[(e & HD & _)|(HD & ->)]]];
    apply deref_cases in HD;
    destruct HD as [-> [(d & Hdest & Ho)|(Hdest & Ho)]]; try discriminate Ho.
  2: { left. repeat split. exact Hdest. }
  inv Ho. right. exists d. split; [exact Hdest|].
  apply bind_cases in H.
  destruct H as [([] & s0' & HK & H)|[(e & HK & ->)|[(e & HK & _)|(HK & _)]]];
    cbv beta in HK;
    destruct (file_FindKey (fNTupleName s) d) eqn:Hkey; inv HK.
  2: { left. repeat split. }
  right. split; [reflexivity|].
  apply bind_cases in H.
  destruct H as [([] & s2 & HPd & H)|[(e & HPd & ->)|[(e & HPd & ->)|(HPd & ->)]]];
    apply discard_cases in HPd; destruct HPd as (op & HP & Hop);
    exists op; eexists; (split; [exact HP|]).
  - right. right.
    apply bind_cases in H.
    destruct H as [([] & s3 & HE & H)|[(e & HE & _)|[(e & HE & _)|(HE & _)]]];
      cbv beta in HE; apply emit_cases in HE; destruct HE as [HE ->]; try discriminate HE.
    destruct op as [[]|e|e|]; try discriminate Hop.
    + split; [left; reflexivity|exact H].
    + destruct (unchecked_failure_throws env) eqn:Hthrows; [discriminate Hop|].
      split; [right; exists e; split; reflexivity|exact H].
  - destruct op as [[]|e'|e'|]; try discriminate Hop.
    destruct (unchecked_failure_throws env); discriminate Hop.
  - left. exists e. destruct op as [[]|e'|e'|]; try discriminate Hop.
    + destruct (unchecked_failure_throws env) eqn:Hthrows; inv Hop.
      split; [right; split; reflexivity|split; reflexivity].
    + inv Hop. split; [left; reflexivity|split; reflexivity].
  - right. left. destruct op as [[]|e'|e'|]; try discriminate Hop.
    + destruct (unchecked_failure_throws env); discriminate Hop.
    + repeat split.
Qed.

(** X5: [Import] returns a failure in one case only, the key of the ntuple's
    name being in the destination file already (line 348), and has then
    changed nothing.  No failure of schema preparation or of a
    transformation is ever returned. *)
Theorem Import_fails_iff_key_exists env s e s' :
  Import env s = (Failed e, s') <->
  exists dest, fDestFile s = Some dest /\
               file_FindKey (fNTupleName s) dest = true /\
               e = key_exists_message s /\ s' = s.
Proof.
  split.
  - intro H. apply Import_cases in H.
    destruct H as [(_ & Ho & _)|(dest & Hdest & [(Hkey & Ho & ->)|(Hkey & op & sp & HP & H)])].
    + discriminate Ho.
    + inv Ho. exists dest. repeat split; assumption.
    + exfalso. destruct H as [(e' & _ & Ho & _)|[(_ & Ho & _)|(_ & H)]];
        try discriminate Ho.
      destruct (rou_with_writer _ (rou_import_entries env) _ _ _ H) as [Ho|Ho];
        discriminate Ho.
  - intros (dest & Hdest & Hkey & -> & ->).
    rewrite Import_steps. unfold bind at 1. unfold deref. rewrite Hdest.
    unfold bind at 1. rewrite Hkey. reflexivity.
Qed.

(** X6: [Import] raises only what schema preparation has raised, or has
    returned as a failure that was dropped unchecked; the loop over the
    entries raises nothing.  The importer is then as preparation has left
    it: nothing has been printed and the destination has not been
    touched. *)
Theorem Import_raises_only_from_preparation env s e s' :
  Import env s = (Thrown e, s') ->
  (fst (PrepareSchema env s) = Thrown e \/
   (fst (PrepareSchema env s) = Failed e /\ unchecked_failure_throws env = true)) /\
  s' = snd (PrepareSchema env s) /\
  fTrace s' = fTrace s /\ fDestFile s' = fDestFile s.
Proof.
  intro H. apply Import_cases in H.
  destruct H as [(_ & Ho & _)|(dest & Hdest & [(Hkey & Ho & _)|(Hkey & op & sp & HP & H)])];
    try discriminate Ho.
  destruct H as [(e' & Hop & Ho & ->)|[(_ & Ho & _)|(_ & H)]]; try discriminate Ho.
  - inv Ho. rewrite HP. cbn [fst snd].
    split; [exact Hop|]. split; [reflexivity|].
    pose proof (PrepareSchema_trace env s) as Ht. rewrite HP in Ht. cbn [fst snd] in Ht.
    pose proof (framed_PrepareSchema env _ _ _ HP) as (_ & _ & _ & Hd & _).
    split; [|exact Hd].
    rewrite Ht. destruct Hop as [-> |[-> _]]; cbn [is_Ok andb]; apply app_nil_r.
  - destruct (rou_with_writer _ (rou_import_entries env) _ _ _ H) as [Ho|Ho];
      discriminate Ho.
Qed.

Lemma Import_raises_only_from_preparation_witness :
  Import (Scenario.env [] true) (Scenario.importer [] Scenario.tree_class_in_leaf_list)
  = (Thrown "unsupported: classes in leaf list, branch ev",
     snd (PrepareSchema (Scenario.env [] true)
            (Scenario.importer [] Scenario.tree_class_in_leaf_list))) /\
  fTrace (snd (PrepareSchema (Scenario.env [] true)
                 (Scenario.importer [] Scenario.tree_class_in_leaf_list))) = [].
Proof.
  assert (H : Import (Scenario.env [] true)
                (Scenario.importer [] Scenario.tree_class_in_leaf_list)
              = (Thrown "unsupported: classes in leaf list, branch ev",
                 snd (PrepareSchema (Scenario.env [] true)
                        (Scenario.importer [] Scenario.tree_class_in_leaf_list))))
    by (vm_compute; reflexivity).
  split; [exact H|].
  exact (proj1 (proj2 (proj2 (Import_raises_only_from_preparation _ _ _ _ H)))).
Defined.

(** ** A quiet importer *)

Lemma silent_bind {A B} (m : M A) (k : A -> M B) :
  silent m -> (forall a, silent (k a)) -> silent (bind m k).
Proof.
  apply preserving_bind. intros s1 s2 s3 H12 H23 Hcb.
  destruct (H12 Hcb) as [Hcb2 Ht2]. destruct (H23 Hcb2) as [Hcb3 Ht3].
  split; [exact Hcb3|congruence].
Qed.

Lemma silent_read {A} (m : RNTupleImporter -> M A) :
  (forall s0, silent (m s0)) -> silent (fun s => m s s).
Proof. intros Hm s o s' H. eapply Hm; eauto. Qed.

Lemma silent_deref {A} (p : option A) : silent (deref p).
Proof. apply preserving_deref. intros s Hcb. split; [exact Hcb|reflexivity]. Qed.

Lemma filter_report_conversion ev :
  forallb is_conversion_event ev = true -> filter is_report ev = [].
Proof.
  induction ev as [|e ev IH]; cbn [forallb filter]; intro H; [reflexivity|].
  apply andb_true_iff in H. destruct H as [He Hev].
  destruct e; try discriminate He; cbn [is_report]; exact (IH Hev).
Qed.

Lemma silent_GetEntry i : silent (GetEntry i).
Proof.
  unfold GetEntry.
  apply silent_bind;
    [apply (silent_read (fun s0 => deref (fSourceTree s0))); intro; apply silent_deref|].
  intro t. apply silent_bind.
  { intros s o s' H Hcb. apply emit_cases in H. destruct H as [_ ->]. proj.
    split; [exact Hcb|]. rewrite filter_app. cbn. apply app_nil_r. }
  intros _. apply silent_bind.
  { apply (silent_read (fun s0 => deref (deliver t i (tree_BranchAddress t)
                                                 (fLeafCountCollections s0)))).
    intro; apply silent_deref. }
  intro cs. intros s o s' H Hcb. unfold modify in H. inv H. proj.
  split; [exact Hcb|reflexivity].
Qed.

Lemma silent_import_entry env i : silent (import_entry env i).
Proof.
  unfold import_entry.
  apply silent_bind; [apply silent_GetEntry|]. intros _.
  apply silent_bind.
  { intros s o s' H Hcb. unfold on_collections in H.
    destruct (import_collections _ _ _) as [[o1 cs] ev] eqn:HI. inv H. proj.
    destruct (import_collections_events _ _ _ _ _ _ HI) as (Hev & _).
    split; [exact Hcb|]. rewrite filter_app, (filter_report_conversion _ Hev).
    apply app_nil_r. }
  intros _. apply silent_bind.
  { intros s o s' H Hcb. unfold on_transformations in H.
    destruct (run_import_transformations _ _ _) as [[o1 ts] ev] eqn:HI. inv H. proj.
    destruct (run_import_transformations_events _ _ _ _ _ _ HI) as (Hev & _).
    split; [exact Hcb|]. rewrite filter_app, (filter_report_conversion _ Hev).
    apply app_nil_r. }
  intros _.
  apply silent_bind;
    [apply (silent_read (fun s0 => deref (fEntry s0))); intro; apply silent_deref|].
  intro entry. apply silent_bind.
  { intros s o s' H Hcb. cbv beta in H. apply emit_cases in H. destruct H as [_ ->]. proj.
    split; [exact Hcb|]. rewrite filter_app. cbn. apply app_nil_r. }
  intros _. intros s o s' H Hcb. unfold report_progress in H. rewrite Hcb in H. inv H.
  split; [exact Hcb|reflexivity].
Qed.

Lemma silent_import_loop env n : forall i, silent (import_loop env n i).
Proof.
  induction n as [|n IH]; intro i; cbn [import_loop].
  - intros s o s' H Hcb. inv H. split; [exact Hcb|reflexivity].
  - apply silent_bind; [apply silent_import_entry|]. intros _. apply IH.
Qed.

Lemma import_entries_steps env :
  import_entries env =
  (modify (with_fModel None) ;;;
   modify (fun s => with_fProgressCallback
                      (if fIsQuiet s then None
                       else Some (mkCallback gUpdateFrequencyBytes)) s) ;;;
   tree <- (fun s => deref (fSourceTree s) s) ;;
   nEntries <- (fun s => (Ok (entries_to_import (fMaxEntries s) (tree_GetEntries tree)), s)) ;;
   import_loop env (Z.to_nat nEntries) 0 ;;;
   (fun s =>
      match fProgressCallback s with
      | None => (Ok tt, s)
      | Some _ =>
          let nbytes := to_size_t (szWritePayload env (fTrace s)) in
          emit (EvFinish nbytes (to_size_t nEntries) :: Finish nbytes (to_size_t nEntries)) s
      end)).
Proof. reflexivity. Qed.

Lemma silent_entries env :
  silent
    (tree <- (fun s => deref (fSourceTree s) s) ;;
     nEntries <- (fun s => (Ok (entries_to_import (fMaxEntries s) (tree_GetEntries tree)), s)) ;;
     import_loop env (Z.to_nat nEntries) 0 ;;;
     (fun s =>
        match fProgressCallback s with
        | None => (Ok tt, s)
        | Some _ =>
            let nbytes := to_size_t (szWritePayload env (fTrace s)) in
            emit (EvFinish nbytes (to_size_t nEntries) :: Finish nbytes (to_size_t nEntries)) s
        end)).
Proof.
  apply silent_bind;
    [apply (silent_read (fun s0 => deref (fSourceTree s0))); intro; apply silent_deref|].
  intro tree. apply silent_bind.
  { intros s o s' H Hcb. inv H. split; [exact Hcb|reflexivity]. }
  intro nEntries. apply silent_bind; [apply silent_import_loop|]. intros _.
  intros s o s' H Hcb. rewrite Hcb in H. inv H. split; [exact Hcb|reflexivity].
Qed.

(** A quiet importer installs no progress hook, and the part of [Import] in
    which the writer lives reports nothing. *)
Lemma import_entries_quiet env s o s' :
  fIsQuiet s = true ->
  import_entries env s = (o, s') ->
  filter is_report (fTrace s') = filter is_report (fTrace s).
Proof.
  intros Hq H. rewrite import_entries_steps in H.
  apply bind_cases in H.
  destruct H as [([] & s1 & HM & H)|[(e & HM & _)|[(e & HM & _)|(HM & _)]]];
    unfold modify in HM; inv HM.
  apply bind_cases in H.
  destruct H as [([] & s2 & HM & H)|[(e & HM & _)|[(e & HM & _)|(HM & _)]]];
    unfold modify in HM; inv HM.
  assert (Hcb : fProgressCallback
                  (with_fProgressCallback
                     (if fIsQuiet (with_fModel None s) then None
                      else Some (mkCallback gUpdateFrequencyBytes))
                     (with_fModel None s)) = None) by (proj; now rewrite Hq).
  destruct (silent_entries env _ _ _ H Hcb) as [_ Ht]. exact Ht.
Qed.

Lemma with_writer_reports body s o s' :
  with_writer body s = (o, s') ->
  filter is_report (fTrace s') = filter is_report (fTrace (snd (body s))).
Proof.
  unfold with_writer. destruct (body s) as [ob sb]. cbn [snd].
  unfold writer_destroyed, bind, emit, modify.
  destruct ob; intro H; inv H; proj; try reflexivity;
    rewrite filter_app; cbn; apply app_nil_r.
Qed.

(** X7: a quiet importer reports nothing.  Whatever the outcome of
    [Import], a quiet importer prints no line of the schema, installs no
    progress hook and therefore reports no progress and no end. *)
Theorem quiet_Import_reports_nothing env s :
  fIsQuiet s = true ->
  filter is_report (fTrace (snd (Import env s))) = filter is_report (fTrace s).
Proof.
  intro Hq. destruct (Import env s) as [o s'] eqn:H. cbn [snd].
  apply Import_cases in H.
  destruct H as [(_ & _ & ->)|(dest & Hdest & [(_ & _ & ->)|(Hkey & op & sp & HP & H)])];
    try reflexivity.
  pose proof (PrepareSchema_trace env s) as Ht. rewrite HP, Hq in Ht.
  cbn [fst snd] in Ht. rewrite andb_false_r, app_nil_r in Ht.
  pose proof (framed_PrepareSchema env _ _ _ HP) as (_ & _ & _ & _ & _ & Hqp & _).
  destruct H as [(e' & _ & _ & ->)|[(_ & _ & ->)|(_ & H)]]; try (now rewrite Ht).
  rewrite (with_writer_reports _ _ _ _ H).
  destruct (import_entries env _) as [oe se] eqn:HE. cbn [snd].
  match type of HE with
  | import_entries env ?st = _ =>
      assert (Hq' : fIsQuiet st = true) by (proj; congruence);
      rewrite (import_entries_quiet env st _ _ Hq' HE)
  end.
  proj. rewrite filter_app, Ht. cbn. apply app_nil_r.
Qed.

Lemma quiet_Import_reports_nothing_witness :
  fIsQuiet (with_fIsQuiet true (Scenario.importer [] Scenario.tree)) = true /\
  fst (Import (Scenario.env [] true) (with_fIsQuiet true (Scenario.importer [] Scenario.tree)))
    = Ok tt /\
  filter is_report
    (fTrace (snd (Import (Scenario.env [] true)
                    (with_fIsQuiet true (Scenario.importer [] Scenario.tree))))) = [].
Proof.
  split; [reflexivity|]. split; [vm_compute; reflexivity|].
  exact (quiet_Import_reports_nothing (Scenario.env [] true)
           (with_fIsQuiet true (Scenario.importer [] Scenario.tree)) eq_refl).
Defined.

(** ** The default progress callback *)

Lemma gUpdateFrequencyBytes_eq : gUpdateFrequencyBytes = 50000000.
Proof. reflexivity. Qed.

(** The threshold after some calls, all with at most [B] bytes, when the
    hook has printed [k] lines before. *)
Lemma Calls_threshold args B :
  0 <= B -> B < size_t_modulus - gUpdateFrequencyBytes ->
  forall k cb,
    (forall a, In a args -> 0 <= fst a <= B) ->
    0 <= k ->
    fNbytesNext cb = gUpdateFrequencyBytes * (k + 1) ->
    let n := Z.of_nat (List.length (snd (Calls cb args))) in
    fNbytesNext (fst (Calls cb args)) = gUpdateFrequencyBytes * (k + 1 + n) /\
    (0 < n -> gUpdateFrequencyBytes * (k + n) <= B).
Proof.
  intros HB0 HB. rewrite size_t_modulus_eq, gUpdateFrequencyBytes_eq in HB.
  induction args as [|[nbytes nevents] args IH]; intros k cb Hargs Hk Hcb;
    rewrite gUpdateFrequencyBytes_eq in Hcb |- *.
  - cbn [Calls fst snd List.length Z.of_nat]. split; [rewrite Hcb; f_equal; lia|lia].
  - cbn [Calls]. unfold Call.
    assert (Hnb : 0 <= nbytes <= B) by (apply (Hargs (nbytes, nevents)); now left).
    assert (Hrest : forall a, In a args -> 0 <= fst a <= B)
      by (intros a Ha; apply Hargs; now right).
    destruct (nbytes <? fNbytesNext cb) eqn:Hlt.
    + specialize (IH k cb Hrest Hk Hcb).
      destruct (Calls cb args) as [cb2 ev2]. cbn [fst snd app] in *. exact IH.
    + apply Z.ltb_ge in Hlt.
      assert (Hnext : to_size_t (fNbytesNext cb + gUpdateFrequencyBytes)
                      = 50000000 * (k + 1 + 1)).
      { unfold to_size_t. rewrite size_t_modulus_eq, gUpdateFrequencyBytes_eq, Hcb.
        rewrite Z.mod_small; lia. }
      specialize (IH (k + 1) (mkCallback (to_size_t (fNbytesNext cb + gUpdateFrequencyBytes)))
                     Hrest ltac:(lia) Hnext).
      destruct (Calls _ args) as [cb2 ev2]. cbn [fst snd app List.length] in *.
      destruct IH as [IH1 IH2]. rewrite Nat2Z.inj_succ.
      rewrite gUpdateFrequencyBytes_eq in IH1, IH2. rewrite Hcb in Hlt.
      split; [rewrite IH1; f_equal; lia|]. intros _.
      destruct (Z.eq_dec (Z.of_nat (List.length ev2)) 0) as [Hz|Hz]; [rewrite Hz; lia|].
      assert (Hpos : 0 < Z.of_nat (List.length ev2)) by lia.
      specialize (IH2 Hpos). lia.
Qed.

(** X8: the threshold of the default callback.  A fresh callback is called
    any number of times with byte counts between 0 and [B] (small enough
    for the threshold not to wrap around in 64 bits).  Then its threshold
    is 50 MB times one more than the number of lines it has printed, and it
    has printed at most [B / 50 MB] lines: never more than one line per
    50 MB written. *)
Theorem default_callback_lines_bounded args B :
  (forall a, In a args -> 0 <= fst a <= B) ->
  0 <= B -> B < size_t_modulus - gUpdateFrequencyBytes ->
  fNbytesNext (fst (Calls (mkCallback gUpdateFrequencyBytes) args))
  = gUpdateFrequencyBytes *
    (1 + Z.of_nat (List.length (snd (Calls (mkCallback gUpdateFrequencyBytes) args)))) /\
  Z.of_nat (List.length (snd (Calls (mkCallback gUpdateFrequencyBytes) args)))
  <= B / gUpdateFrequencyBytes.
Proof.
  intros Hargs HB0 HB.
  destruct (Calls_threshold args B HB0 HB 0 (mkCallback gUpdateFrequencyBytes) Hargs
              ltac:(lia) ltac:(reflexivity)) as [H1 H2].
  cbv zeta in H1, H2. split; [rewrite H1; f_equal; lia|].
  set (n := Z.of_nat (List.length (snd (Calls (mkCallback gUpdateFrequencyBytes) args)))) in *.
  rewrite gUpdateFrequencyBytes_eq in *.
  destruct (Z.eq_dec n 0) as [->|Hn].
  - apply Z.div_pos; lia.
  - apply Z.div_le_lower_bound; [lia|]. apply H2. lia.
Qed.

Lemma default_callback_lines_bounded_witness :
  Z.of_nat (List.length (snd (Calls (mkCallback gUpdateFrequencyBytes)
                                [(60000000, 0); (120000000, 1); (180000000, 2)])))
  <= 180000000 / gUpdateFrequencyBytes.
Proof.
  apply (default_callback_lines_bounded
           [(60000000, 0); (120000000, 1); (180000000, 2)] 180000000).
  - intros a [<-|[<-|[<-|[]]]]; cbn; lia.
  - lia.
  - rewrite size_t_modulus_eq, gUpdateFrequencyBytes_eq. lia.
Defined.

Lemma Calls_constant args B :
  0 <= B -> B < size_t_modulus - gUpdateFrequencyBytes ->
  (forall a, In a args -> fst a = B) ->
  forall k cb,
    0 <= k ->
    fNbytesNext cb = gUpdateFrequencyBytes * (k + 1) ->
    List.length (snd (Calls cb args))
    = Nat.min (List.length args) (Z.to_nat (B / gUpdateFrequencyBytes - k)).
Proof.
  intros HB0 HB. rewrite size_t_modulus_eq, gUpdateFrequencyBytes_eq in HB.
  induction args as [|[nbytes nevents] args IH]; intros Hargs k cb Hk Hcb;
    rewrite gUpdateFrequencyBytes_eq in Hcb |- *.
  - reflexivity.
  - cbn [Calls]. unfold Call.
    assert (Hnb : nbytes = B) by (apply (Hargs (nbytes, nevents)); now left).
    subst nbytes.
    assert (Hrest : forall a, In a args -> fst a = B)
      by (intros a Ha; apply Hargs; now right).
    specialize (IH Hrest).
    destruct (B <? fNbytesNext cb) eqn:Hlt.
    + apply Z.ltb_lt in Hlt. rewrite Hcb in Hlt.
      assert (Hq : B / 50000000 < k + 1) by (apply Z.div_lt_upper_bound; lia).
      specialize (IH k cb Hk). rewrite gUpdateFrequencyBytes_eq in IH.
      specialize (IH Hcb).
      destruct (Calls cb args) as [cb2 ev2]. cbn [fst snd app List.length] in *.
      rewrite IH. lia.
    + apply Z.ltb_ge in Hlt. rewrite Hcb in Hlt.
      assert (Hq : k + 1 <= B / 50000000) by (apply Z.div_le_lower_bound; lia).
      assert (Hnext : to_size_t (fNbytesNext cb + gUpdateFrequencyBytes)
                      = gUpdateFrequencyBytes * (k + 1 + 1)).
      { unfold to_size_t. rewrite size_t_modulus_eq, gUpdateFrequencyBytes_eq, Hcb.
        rewrite Z.mod_small; lia. }
      specialize (IH (k + 1) (mkCallback (to_size_t (fNbytesNext cb + gUpdateFrequencyBytes)))
                     ltac:(lia) Hnext).
      rewrite gUpdateFrequencyBytes_eq in IH.
      destruct (Calls _ args) as [cb2 ev2]. cbn [fst snd app List.length] in *.
      rewrite IH. lia.
Qed.

(** X9: the default callback catches up one line per call.  When the
    counter of bytes stands at [B] (far beyond the threshold, say) and the
    fresh callback is called again and again, every call prints a line
    until [B / 50 MB] lines have been printed, and no call after that: the
    threshold moves by 50 MB per printed line, not to the next multiple of
    50 MB above the counter. *)
Theorem default_callback_catches_up args B :
  (forall a, In a args -> fst a = B) ->
  0 <= B -> B < size_t_modulus - gUpdateFrequencyBytes ->
  List.length (snd (Calls (mkCallback gUpdateFrequencyBytes) args))
  = Nat.min (List.length args) (Z.to_nat (B / gUpdateFrequencyBytes)).
Proof.
  intros Hargs HB0 HB.
  rewrite (Calls_constant args B HB0 HB Hargs 0 (mkCallback gUpdateFrequencyBytes)
             ltac:(lia) ltac:(reflexivity)).
  now rewrite Z.sub_0_r.
Qed.

Lemma default_callback_catches_up_witness :
  snd (Calls (mkCallback gUpdateFrequencyBytes)
         [(120000000, 0); (120000000, 1); (120000000, 2)])
  = [EvPrintWrote 120 0; EvPrintWrote 120 1] /\
  List.length (snd (Calls (mkCallback gUpdateFrequencyBytes)
                      [(120000000, 0); (120000000, 1); (120000000, 2)]))
  = Nat.min 3 (Z.to_nat (120000000 / gUpdateFrequencyBytes)).
Proof.
  split; [reflexivity|].
  apply (default_callback_catches_up
           [(120000000, 0); (120000000, 1); (120000000, 2)] 120000000).
  - intros a [<-|[<-|[<-|[]]]]; reflexivity.
  - lia.
  - rewrite size_t_modulus_eq, gUpdateFrequencyBytes_eq. lia.
Defined.

(** ** What a successful preparation has checked and built *)

Lemma prepare_leaf_checked env b firstLeaf l acc s acc' s' :
  prepare_leaf env b firstLeaf l acc s = (Ok acc', s') ->
  negb (LeafClass_eqb (leaf_IsA l) TLeafObject) &&
  is_Success (RFieldBase_Create env (fieldName b l) (fieldType b firstLeaf l)) = true.
Proof.
  intro H. unfold prepare_leaf in H.
  destruct (LeafClass_eqb (leaf_IsA l) TLeafObject); [discriminate H|].
  destruct (RFieldBase_Create env _ _) as [field|e]; [reflexivity|discriminate H].
Qed.

Lemma prepare_leaves_checked env b firstLeaf leaves :
  forall acc s acc' s',
    for_each (prepare_leaf env b firstLeaf) leaves acc s = (Ok acc', s') ->
    forallb (fun l =>
               negb (LeafClass_eqb (leaf_IsA l) TLeafObject) &&
               is_Success (RFieldBase_Create env (fieldName b l) (fieldType b firstLeaf l)))
            leaves = true.
Proof.
  induction leaves as [|l leaves IH]; intros acc s acc' s' H; [reflexivity|].
  cbn [for_each] in H. apply bind_Ok in H. destruct H as (acc1 & s1 & Hl & H).
  cbn [forallb]. rewrite (prepare_leaf_checked _ _ _ _ _ _ _ _ Hl).
  exact (IH _ _ _ _ H).
Qed.

Lemma prepare_branch_supported env b s s' :
  prepare_branch env b s = (Ok tt, s') -> supported env b = true.
Proof.
  intro H. unfold supported.
  destruct (branch_GetListOfLeaves b) as [|firstLeaf leaves] eqn:Hl.
  { unfold prepare_branch in H. rewrite Hl in H. discriminate H. }
  destruct (isLeafList b && isClass firstLeaf) eqn:H1.
  { unfold prepare_branch in H. rewrite Hl, H1 in H. discriminate H. }
  destruct (isLeafList b && isCountLeaf firstLeaf) eqn:H2.
  { unfold prepare_branch in H. rewrite Hl, H1, H2 in H. discriminate H. }
  destruct (isCountLeaf firstLeaf) eqn:H3; [reflexivity|].
  assert (H2' : isLeafList b && isCountLeaf firstLeaf = false) by (rewrite H3; exact H2).
  rewrite (prepare_branch_steps env b firstLeaf leaves Hl H1 H2' H3) in H.
  apply bind_Ok in H. destruct H as (acc & s1 & HL & H).
  rewrite (prepare_leaves_checked _ _ _ _ _ _ _ _ HL). cbn [negb andb orb].
  apply bind_Ok in H. destruct H as ([] & s2 & _ & H).
  apply bind_Ok in H. destruct H as (idx & s3 & _ & H).
  apply bind_Ok in H. destruct H as ([] & s4 & HS & _).
  destruct (isClass firstLeaf); [|reflexivity].
  destruct (TClass_GetClass env (branch_GetClassName b)); [reflexivity|discriminate HS].
Qed.

Lemma for_each_Ok_each {A} (body : A -> unit -> M unit) (xs : list A) :
  forall s s',
    for_each body xs tt s = (Ok tt, s') ->
    forall x, In x xs -> exists sa sb, body x tt sa = (Ok tt, sb).
Proof.
  induction xs as [|x xs IH]; intros s s' H y Hy; [contradiction|].
  cbn [for_each] in H. apply bind_Ok in H. destruct H as ([] & s1 & Hx & H).
  destruct Hy as [<-|Hy]; [now exists s, s1|].
  exact (IH _ _ H y Hy).
Qed.

(** The two loops of a preparation that has succeeded. *)
Lemma PrepareSchema_Ok_phases env s t s1 :
  fSourceTree s = Some t ->
  PrepareSchema env s = (Ok tt, s1) ->
  exists s2 s3,
    for_each (fun b (_ : unit) => prepare_branch env b) (tree_GetListOfBranches t) tt
             (snd (ResetSchema s)) = (Ok tt, s2) /\
    finish_collections env [] (fLeafCountCollections s2) 0 s2 = (Ok tt, s3) /\
    fLeafCountCollections s1 = fLeafCountCollections s3 /\
    fImportBranches s1 = fImportBranches s3 /\
    fImportFields s1 = fImportFields s3 /\
    fImportTransformations s1 = fImportTransformations s3.
Proof.
  intros Ht H. rewrite PrepareSchema_steps in H.
  apply bind_Ok in H. destruct H as ([] & s0 & HR & H).
  replace (snd (ResetSchema s)) with s0 by (now rewrite HR).
  assert (Ht0 : exists t0, fSourceTree s0 = Some t0 /\
                           tree_GetListOfBranches t0 = tree_GetListOfBranches t).
  { unfold ResetSchema, modify in HR. inv HR. proj. rewrite Ht. cbn [option_map].
    eexists. split; reflexivity. }
  destruct Ht0 as (t0 & Ht0 & Hbs). clear HR.
  apply bind_Ok in H. destruct H as (tree & s0' & HD & H).
  apply deref_cases in HD. destruct HD as [-> [(t' & Ht' & Ho)|(_ & Ho)]]; [|discriminate Ho].
  inv Ho. rewrite Ht0 in Ht'. inv Ht'.
  apply bind_Ok in H. destruct H as ([] & s2 & HL & H).
  rewrite Hbs in HL. exists s2.
  apply bind_Ok in H. destruct H as ([] & s3 & HF & H).
  exists s3. split; [exact HL|]. split; [exact HF|].
  apply bind_Ok in H. destruct H as (m & s3' & HD & H).
  apply deref_cases in HD. destruct HD as [-> _].
  apply bind_Ok in H. destruct H as ([] & s4 & HM & H). unfold modify in HM. inv HM.
  apply bind_Ok in H. destruct H as ([] & s5 & HM & H). unfold modify in HM. inv HM.
  match type of H with
  | (if ?q then _ else _) = _ => destruct q
  end.
  - inv H. proj. repeat split; reflexivity.
  - unfold ReportSchema, emit, modify in H. inv H. proj. repeat split; reflexivity.
Qed.

(** The importer after the loop over the branches, for a preparation that
    has succeeded. *)
Lemma PrepareSchema_Ok_branches env s t s1 :
  fSourceTree s = Some t ->
  PrepareSchema env s = (Ok tt, s1) ->
  exists s2,
    for_each (fun b (_ : unit) => prepare_branch env b) (tree_GetListOfBranches t) tt
             (snd (ResetSchema s)) = (Ok tt, s2) /\
    Forall2 finished (fLeafCountCollections s2) (fLeafCountCollections s1) /\
    fImportBranches s1 = fImportBranches s2 /\
    fImportFields s1 = fImportFields s2 /\
    fImportTransformations s1 = fImportTransformations s2.
Proof.
  intros Ht H.
  destruct (PrepareSchema_Ok_phases env s t s1 Ht H)
    as (s2 & s3 & HL & HF & E4 & E2 & E3 & E5).
  exists s2. split; [exact HL|].
  destruct (finish_collections_finished _ _ _ _ _ _ HF)
    as (cs' & Hcs & Hall & _ & Hb3 & Hf3 & Hts3).
  cbn [rev app] in Hcs. rewrite <- Hcs in Hall.
  rewrite E2, E3, E4, E5. repeat split; assumption.
Qed.

(** X10: a preparation that succeeds has checked every branch of the tree:
    each has a leaf, no leaf list starts with a class or with a count
    leaf, and for every branch that is no counter each leaf is no
    TLeafObject and has had its field created, and the class of a branch of
    class type has been found.  A tree with a branch that fails one of
    these is never prepared successfully. *)
Theorem PrepareSchema_success_means_supported env s t :
  fSourceTree s = Some t ->
  fst (PrepareSchema env s) = Ok tt ->
  forallb (supported env) (tree_GetListOfBranches t) = true.
Proof.
  intros Ht H. destruct (PrepareSchema env s) as [o s1] eqn:HP. cbn [fst] in H. subst o.
  destruct (PrepareSchema_Ok_branches env s t s1 Ht HP) as (s2 & HL & _).
  apply forallb_forall. intros b Hb.
  destruct (for_each_Ok_each _ _ _ _ HL b Hb) as (sa & sb & Hrun).
  exact (prepare_branch_supported env b sa sb Hrun).
Qed.

Lemma PrepareSchema_success_means_supported_witness :
  fSourceTree (Scenario.importer [] Scenario.tree)
    = Some (tree_SetImplicitMT false Scenario.tree) /\
  fst (PrepareSchema (Scenario.env [] true) (Scenario.importer [] Scenario.tree)) = Ok tt /\
  forallb (supported (Scenario.env [] true))
          (tree_GetListOfBranches (tree_SetImplicitMT false Scenario.tree)) = true.
Proof.
  assert (Ht : fSourceTree (Scenario.importer [] Scenario.tree)
               = Some (tree_SetImplicitMT false Scenario.tree)) by reflexivity.
  assert (HP : fst (PrepareSchema (Scenario.env [] true)
                      (Scenario.importer [] Scenario.tree)) = Ok tt)
    by (vm_compute; reflexivity).
  split; [exact Ht|]. split; [exact HP|].
  exact (PrepareSchema_success_means_supported _ _ _ Ht HP).
Defined.

Lemma keeps_branches_prepare_count_leaf b firstLeaf :
  keeps_branches (prepare_count_leaf b firstLeaf).
Proof.
  apply steps_prepare_count_leaf; intros; proj; try reflexivity. congruence.
Qed.

(** What one branch adds to the import branches. *)
Lemma prepare_branch_buffer env b s s' :
  prepare_branch env b s = (Ok tt, s') ->
  map fBranchName (fImportBranches s')
  = map fBranchName (fImportBranches s)
    ++ (if count_branch b then [] else [branch_GetName b]).
Proof.
  intro H. unfold count_branch.
  destruct (branch_GetListOfLeaves b) as [|firstLeaf leaves] eqn:Hl.
  { unfold prepare_branch in H. rewrite Hl in H. discriminate H. }
  destruct (isLeafList b && isClass firstLeaf) eqn:H1.
  { unfold prepare_branch in H. rewrite Hl, H1 in H. discriminate H. }
  destruct (isLeafList b && isCountLeaf firstLeaf) eqn:H2.
  { unfold prepare_branch in H. rewrite Hl, H1, H2 in H. discriminate H. }
  destruct (isCountLeaf firstLeaf) eqn:H3.
  - unfold prepare_branch in H. rewrite Hl, H1, H3, H2 in H.
    rewrite (keeps_branches_prepare_count_leaf _ _ _ _ _ H). now rewrite app_nil_r.
  - assert (H2' : isLeafList b && isCountLeaf firstLeaf = false) by (rewrite H3; exact H2).
    rewrite (prepare_branch_steps env b firstLeaf leaves Hl H1 H2' H3) in H.
    apply bind_Ok in H. destruct H as (acc & s1 & HL & H).
    destruct (prepare_leaves_size _ _ _ _ _ _ _ _ HL) as (Hb1 & _).
    apply bind_Ok in H. destruct H as ([] & s2 & HR & H).
    assert (Hb2 : fImportBranches s2 = fImportBranches s1).
    { destruct (snd acc).
      - unfold ret in HR. now inv HR.
      - revert HR. apply keeps_branches_bind; [|intros; apply keeps_branches_AddToModel].
        apply preserving_modify. reflexivity. }
    apply bind_Ok in H. destruct H as (idx & s3 & HI & H). inv HI.
    apply bind_Ok in H. destruct H as ([] & s4 & HS & H).
    assert (Hb4 : fImportBranches s4 = fImportBranches s3).
    { destruct (isClass firstLeaf); [destruct (TClass_GetClass env _)|];
        try discriminate HS; exact (keeps_branches_SetBranchAddress _ _ _ _ _ HS). }
    apply bind_Ok in H. destruct H as ([] & s5 & HB & H).
    assert (Hb5 : fImportBranches s5 = fImportBranches s4).
    { destruct (rev (fImportFields s4)) as [|back front]; [discriminate HB|].
      destruct (Buffer_is_null (fFieldBuffer back)); inv HB; reflexivity. }
    unfold modify in H. inv H. proj.
    rewrite map_app, Hb5, Hb4, Hb2, Hb1. reflexivity.
Qed.

Lemma prepare_branches_buffers env branches :
  forall s s',
    for_each (fun b (_ : unit) => prepare_branch env b) branches tt s = (Ok tt, s') ->
    map fBranchName (fImportBranches s')
    = map fBranchName (fImportBranches s)
      ++ map branch_GetName (filter (fun b => negb (count_branch b)) branches).
Proof.
  induction branches as [|b branches IH]; intros s s' H.
  - inv H. cbn. now rewrite app_nil_r.
  - cbn [for_each] in H. apply bind_Ok in H. destruct H as ([] & s1 & Hb & H).
    rewrite (IH _ _ H), (prepare_branch_buffer _ _ _ _ Hb), <- app_assoc.
    f_equal. cbn [filter]. destruct (count_branch b); reflexivity.
Qed.

(** X11: one read buffer per branch.  After a successful preparation the
    import branches are, in the order of the tree, its branches without
    the counters: every branch that is no counter has got exactly one
    buffer, under its own name, and a counter has got none (its value is
    read into the cell of its collection). *)
Theorem PrepareSchema_one_buffer_per_branch env s t s1 :
  fSourceTree s = Some t ->
  PrepareSchema env s = (Ok tt, s1) ->
  map fBranchName (fImportBranches s1)
  = map branch_GetName (filter (fun b => negb (count_branch b)) (tree_GetListOfBranches t)).
Proof.
  intros Ht HP.
  destruct (PrepareSchema_Ok_branches env s t s1 Ht HP) as (s2 & HL & _ & Hb & _).
  rewrite Hb, (prepare_branches_buffers _ _ _ _ HL). reflexivity.
Qed.

Lemma PrepareSchema_one_buffer_per_branch_witness :
  map fBranchName (fImportBranches (Scenario.prepared Scenario.tree)) = ["a"; "s"].
Proof.
  apply (PrepareSchema_one_buffer_per_branch (Scenario.env [] true)
           (Scenario.importer [] Scenario.tree) (tree_SetImplicitMT false Scenario.tree)
           (Scenario.prepared Scenario.tree)).
  - reflexivity.
  - vm_compute. reflexivity.
Defined.

(** ** Counters that are missing or registered twice *)

Lemma single_leaf_not_list b l : branch_GetListOfLeaves b = [l] -> isLeafList b = false.
Proof. intro H. unfold isLeafList, branch_GetNleaves. now rewrite H. Qed.

Lemma counted_not_CString b l name : leaf_LeafCount l = Some name -> isCString b l = false.
Proof.
  intro H. unfold isCString, has_LeafCounter. rewrite H. cbn [negb].
  now rewrite andb_false_r.
Qed.

Lemma find_index_default name (cs : Collections) :
  StdMap.find name cs = None ->
  StdMap.index default_collection name cs
  = (default_collection, StdMap.put name default_collection cs).
Proof. intro H. unfold StdMap.index. now rewrite H. Qed.

Lemma find_index_present name c (cs : Collections) :
  StdMap.find name cs = Some c -> StdMap.index default_collection name cs = (c, cs).
Proof. intro H. unfold StdMap.index. now rewrite H. Qed.

(** The visit of a leaf-counted array whose collection is not in the map,
    or is there without a model. *)
Lemma prepare_leaf_without_counter env b l acc field name s :
  isLeafList b = false ->
  LeafClass_eqb (leaf_IsA l) TLeafObject = false ->
  leaf_LeafCount l = Some name ->
  RFieldBase_Create env (fieldName b l) (fieldType b l l) = Success field ->
  StdMap.find name (fLeafCountCollections s) = None ->
  fst (prepare_leaf env b l l acc s) = UB.
Proof.
  intros Hlist Hobj Hcount Hcreate Hfind. unfold prepare_leaf.
  rewrite Hobj, Hcreate, Hcount, Hlist, (counted_not_CString b l name Hcount).
  destruct (isClass l); cbn [negb andb]; cbv beta iota zeta; proj.
  - rewrite (find_index_default name _ Hfind). reflexivity.
  - rewrite (find_index_default name _ Hfind). cbv beta iota zeta. proj.
    rewrite (find_index_present name default_collection);
      [reflexivity|apply find_put_same].
Qed.

(** X12: an array before its counter.  [PrepareSchema] expects the branch
    of a counter before the branches of the arrays it counts.  When the
    branch of a leaf-counted array is visited and the map holds no
    collection under the counter's name, [operator[]] inserts an empty one
    and its null model is dereferenced (line 252): the behaviour is
    undefined, no failure is returned. *)
Theorem counted_array_without_counter_is_undefined env b l field name s :
  branch_GetListOfLeaves b = [l] ->
  isCountLeaf l = false ->
  LeafClass_eqb (leaf_IsA l) TLeafObject = false ->
  leaf_LeafCount l = Some name ->
  RFieldBase_Create env (fieldName b l) (fieldType b l l) = Success field ->
  StdMap.find name (fLeafCountCollections s) = None ->
  fst (prepare_branch env b s) = UB.
Proof.
  intros Hl Hcl Hobj Hcount Hcreate Hfind.
  pose proof (single_leaf_not_list b l Hl) as Hlist.
  rewrite (prepare_branch_steps env b l [] Hl);
    [|now rewrite Hlist|now rewrite Hlist|exact Hcl].
  unfold bind at 1. cbn [for_each]. unfold bind at 1.
  pose proof (prepare_leaf_without_counter env b l (0, []) field name s
                Hlist Hobj Hcount Hcreate Hfind) as H.
  destruct (prepare_leaf env b l l (0, []) s) as [o s1]. cbn [fst] in H. subst o.
  reflexivity.
Qed.

Lemma counted_array_without_counter_is_undefined_witness :
  fst (prepare_branch (Scenario.env [] true) (mkTBranch "a" "" [Scenario.leaf_a])
         (snd (ResetSchema (Scenario.importer [] tree_array_before_counter)))) = UB /\
  fst (PrepareSchema (Scenario.env [] true) (Scenario.importer [] tree_array_before_counter))
  = UB.
Proof.
  split; [|vm_compute; reflexivity].
  apply (counted_array_without_counter_is_undefined (Scenario.env [] true)
           (mkTBranch "a" "" [Scenario.leaf_a]) Scenario.leaf_a
           (mkRField "a" "float" 4) "n"); reflexivity.
Defined.

Lemma In_set_address name a l : In (name, a) (set_address name a l).
Proof.
  induction l as [|[n a'] l IH]; cbn [set_address]; [now left|].
  destruct (String.eqb n name) eqn:Hn.
  - apply String.eqb_eq in Hn. subst n. now left.
  - right. exact IH.
Qed.

(** Reading an entry writes through every registered address: one that
    points at released storage makes the call undefined. *)
Lemma deliver_freed t i addrs :
  forall cs name, In (name, AddrFreed) addrs -> deliver t i addrs cs = None.
Proof.
  induction addrs as [|[n a] addrs IH]; intros cs name Hin; [contradiction|].
  destruct Hin as [Hin|Hin].
  - inv Hin. reflexivity.
  - destruct a; cbn [deliver]; try exact (IH _ _ Hin); [|reflexivity].
    destruct (StdMap.find key cs); [exact (IH _ _ Hin)|reflexivity].
Qed.

(** X13: a second counter of the same name.  When the branch of a count
    leaf is visited and the map already holds a collection under the
    leaf's name, [emplace] inserts nothing (line 185) and the cell that has
    just been registered with the tree (line 184) is released with the
    local collection.  The visit succeeds and leaves the map as it was,
    but the tree keeps the address of the released cell: reading any entry
    afterwards is undefined behaviour. *)
Theorem second_counter_of_a_name_dangles env b firstLeaf s t c :
  branch_GetListOfLeaves b = [firstLeaf] ->
  isCountLeaf firstLeaf = true ->
  fSourceTree s = Some t ->
  StdMap.find (leaf_GetName firstLeaf) (fLeafCountCollections s) = Some c ->
  exists s',
    prepare_branch env b s = (Ok tt, s') /\
    fLeafCountCollections s' = fLeafCountCollections s /\
    forall i, fst (GetEntry i s') = UB.
Proof.
  intros Hl Hcl Ht Hfind.
  pose proof (single_leaf_not_list b firstLeaf Hl) as Hlist.
  exists (with_fLeafCountCollections (fLeafCountCollections s)
            (with_fSourceTree
               (Some (tree_SetBranchAddress (branch_GetName b) AddrFreed t)) s)).
  split; [|split; [reflexivity|]].
  - unfold prepare_branch. rewrite Hl, Hlist, Hcl. cbn [andb].
    unfold prepare_count_leaf, StdMap.emplace. rewrite Hfind.
    cbv beta iota delta [bind SetBranchAddress deref modify]. rewrite Ht. reflexivity.
  - intro i. unfold GetEntry.
    cbv beta iota delta [bind deref emit modify]. proj.
    rewrite (deliver_freed _ i _ _ (branch_GetName b)); [reflexivity|].
    cbn [tree_SetBranchAddress tree_BranchAddress with_BranchAddress].
    apply In_set_address.
Qed.

Lemma second_counter_of_a_name_dangles_witness :
  exists s',
    prepare_branch (Scenario.env [] true) (mkTBranch "m" "" [Scenario.leaf_n])
      (snd (prepare_branch (Scenario.env [] true) (mkTBranch "n" "" [Scenario.leaf_n])
              (snd (ResetSchema (Scenario.importer [] tree_two_counters)))))
    = (Ok tt, s') /\
    fst (GetEntry 0 s') = UB.
Proof.
  destruct (second_counter_of_a_name_dangles (Scenario.env [] true)
              (mkTBranch "m" "" [Scenario.leaf_n]) Scenario.leaf_n
              (snd (prepare_branch (Scenario.env [] true) (mkTBranch "n" "" [Scenario.leaf_n])
                      (snd (ResetSchema (Scenario.importer [] tree_two_counters)))))
              (tree_SetBranchAddress "n" (AddrCountVal "n")
                 (tree_SetImplicitMT false tree_two_counters))
              (mkCollection (Some []) None None "" 2 (Some 0) [] [])
              eq_refl eq_refl eq_refl eq_refl) as (s' & Hrun & _ & Hub).
  exists s'. split; [exact Hrun|apply Hub].
Defined.

(** ** The elements of a collection *)

Lemma at_element_idx k t :
  fImportBranchIdx (at_element k t) = fImportBranchIdx t /\
  fImportFieldIdx (at_element k t) = fImportFieldIdx t.
Proof. destruct t; split; reflexivity. Qed.

Lemma at_first_element_eq ts :
  forallb at_first_element ts = true -> map (at_element 0) ts = ts.
Proof.
  induction ts as [|t ts IH]; cbn [forallb map]; intro H; [reflexivity|].
  apply andb_true_iff in H. destruct H as [Ht Hts]. rewrite (IH Hts). f_equal.
  destruct t; [discriminate Ht|]. cbn in Ht. apply Z.eqb_eq in Ht. now subst.
Qed.

Lemma at_first_element_array ts :
  forallb at_first_element ts = true ->
  forall k, map ResetEntry (map (at_element k) ts) = ts.
Proof.
  induction ts as [|t ts IH]; cbn [forallb map]; intros H k; [reflexivity|].
  apply andb_true_iff in H. destruct H as [Ht Hts]. rewrite (IH Hts). f_equal.
  destruct t; [discriminate Ht|]. cbn in Ht. apply Z.eqb_eq in Ht. now subst.
Qed.

(** One round over the transformations of a collection that stand at
    element [k]. *)
Lemma run_transformations_at br fl k ts :
  forallb (transformation_ok br fl) ts = true ->
  forallb at_first_element ts = true ->
  run_transformations br fl (map (at_element k) ts)
  = (Ok tt, map (at_element (k + 1)) ts, element_copies br fl ts k).
Proof.
  induction ts as [|t ts IH]; cbn [forallb map]; intros Hok Hts; [reflexivity|].
  apply andb_true_iff in Hok. destruct Hok as [Hok Hoks].
  apply andb_true_iff in Hts. destruct Hts as [Ht Hts].
  destruct t as [b f|b f n]; [discriminate Ht|].
  cbn [at_element run_transformations fImportBranchIdx fImportFieldIdx].
  unfold element_copies. cbn [flat_map fImportBranchIdx fImportFieldIdx].
  unfold transformation_ok in Hok. cbn [fImportBranchIdx fImportFieldIdx] in Hok.
  destruct (nth_error br b) as [branch|]; [|discriminate Hok].
  destruct (nth_error fl f) as [field|]; [|discriminate Hok].
  apply negb_true_iff in Hok. unfold Transform. rewrite Hok.
  rewrite (IH Hoks Hts). reflexivity.
Qed.

Lemma element_records_S br fl key ts k n :
  element_records br fl key ts k (S n)
  = element_copies br fl ts k ++ EvCollectionFill key :: element_records br fl key ts (k + 1) n.
Proof.
  unfold element_records. cbn [seq flat_map]. rewrite Z.add_0_r, <- app_assoc. cbn [app].
  do 2 f_equal. rewrite <- seq_shift, flat_map_concat_map, map_map, <- flat_map_concat_map.
  apply flat_map_ext. intro j. do 2 f_equal. lia.
Qed.

Lemma collection_setters_collapse w1 ts1 w2 ts2 c :
  with_fCollectionWriter w1 (with_fTransformations ts1
    (with_fCollectionWriter w2 (with_fTransformations ts2 c)))
  = with_fCollectionWriter w1 (with_fTransformations ts1 c).
Proof. reflexivity. Qed.

Lemma fill_elements_at br fl key ts n :
  forallb (transformation_ok br fl) ts = true ->
  forallb at_first_element ts = true ->
  forall k c offset e,
    fTransformations c = map (at_element k) ts ->
    fCollectionWriter c = Some offset ->
    fCollectionEntry c = Some e ->
    fill_elements br fl key n c
    = (Ok tt,
       with_fCollectionWriter (Some (offset + Z.of_nat n))
         (with_fTransformations (map (at_element (k + Z.of_nat n)) ts) c),
       element_records br fl key ts k n).
Proof.
  intros Hok Hts. induction n as [|n IH]; intros k c offset e Hc Hw He.
  - cbn [fill_elements]. rewrite !Z.add_0_r, <- Hc, <- Hw. destruct c; reflexivity.
  - cbn [fill_elements]. rewrite Hc, (run_transformations_at br fl k ts Hok Hts).
    projc. rewrite Hw, He.
    rewrite (IH (k + 1) _ (offset + 1) e); [|reflexivity|reflexivity|exact He].
    rewrite element_records_S, collection_setters_collapse.
    do 2 f_equal. f_equal; [f_equal; lia|]. do 3 f_equal. lia.
Qed.

(** X14: the elements of a collection, one entry.  Let the collection be
    in order, its arrays standing at the first element, its counter at
    [n] and its writer at [offset].  Then the loop over the elements
    copies, for j = 0, .., n-1 in turn, element j of every array (the
    bytes at [j * valueSize] of the branch buffer) and fills one record
    after each round; it ends with the writer at [offset + n] and, thanks
    to [ResetEntry], with the collection otherwise as it was: the next
    entry starts at the first element again. *)
Theorem collection_elements_in_turn br fl key c n offset :
  collection_ok br fl c = true ->
  forallb at_first_element (fTransformations c) = true ->
  fCountVal c = Some n ->
  fCollectionWriter c = Some offset ->
  import_collection br fl key c
  = (Ok tt,
     with_fCollectionWriter (Some (offset + Z.of_nat (Z.to_nat n))) c,
     element_records br fl key (fTransformations c) 0 (Z.to_nat n)).
Proof.
  intros Hok Hts Hn Hw.
  destruct (collection_ok_parts _ _ _ Hok) as (v & o & e & _ & _ & He & Htok).
  unfold import_collection. rewrite Hn.
  rewrite (fill_elements_at br fl key (fTransformations c) (Z.to_nat n) Htok Hts 0 c offset e);
    [|symmetry; now apply at_first_element_eq|exact Hw|exact He].
  projc. rewrite (at_first_element_array _ Hts). destruct c; reflexivity.
Qed.

Lemma collection_elements_in_turn_witness :
  StdMap.find "n" (fLeafCountCollections (snd (GetEntry 2 (Scenario.prepared Scenario.tree))))
  = Some (mkCollection None (Some 0) (Some [("a", OwnedValue 0%nat)]) "_collection0" 2
                       (Some 2) [0%nat] [RLeafArrayTransformation 0 0 0]) /\
  snd (import_collection
         (fImportBranches (Scenario.prepared Scenario.tree))
         (fImportFields (Scenario.prepared Scenario.tree)) "n"
         (mkCollection None (Some 0) (Some [("a", OwnedValue 0%nat)]) "_collection0" 2
                       (Some 2) [0%nat] [RLeafArrayTransformation 0 0 0]))
  = [EvMemcpy (OwnedValue 0) (mkImportBranch "a" 8) 0 4; EvCollectionFill "n";
     EvMemcpy (OwnedValue 0) (mkImportBranch "a" 8) 4 4; EvCollectionFill "n"].
Proof.
  split; [vm_compute; reflexivity|].
  rewrite (collection_elements_in_turn
             (fImportBranches (Scenario.prepared Scenario.tree))
             (fImportFields (Scenario.prepared Scenario.tree)) "n"
             (mkCollection None (Some 0) (Some [("a", OwnedValue 0%nat)]) "_collection0" 2
                           (Some 2) [0%nat] [RLeafArrayTransformation 0 0 0])
             2 0);
    vm_compute; reflexivity.
Defined.

(** ** A branch that is read in place *)

(** X15: a branch read in place.  For a branch with a single leaf that is
    no counter, no TLeafObject, no C string and no leaf-counted array, one
    field is made and added to the model, one buffer is allocated and
    registered with the tree under the branch's name, and the field writes
    from where the tree reads: its buffer is the branch buffer (for a
    branch of class type, the object the buffer points at).  No
    transformation is registered and the collections are left alone, so
    the loop of [Import] copies nothing for such a branch. *)
Theorem plain_branch_is_read_in_place env b l field s t m :
  branch_GetListOfLeaves b = [l] ->
  isCountLeaf l = false ->
  LeafClass_eqb (leaf_IsA l) TLeafObject = false ->
  leaf_LeafCount l = None ->
  isCString b l = false ->
  (isClass l = true -> TClass_GetClass env (branch_GetClassName b) = true) ->
  RFieldBase_Create env (fieldName b l) (fieldType b l l) = Success field ->
  fSourceTree s = Some t ->
  fModel s = Some m ->
  exists s',
    prepare_branch env b s = (Ok tt, s') /\
    fImportFields s'
    = fImportFields s ++
      [mkImportField (CreatedField field)
         (if isClass l then BranchPointee (List.length (fImportBranches s))
          else BranchBuffer (List.length (fImportBranches s)))
         false false (isClass l)] /\
    fImportBranches s'
    = fImportBranches s ++
      [mkImportBranch (branch_GetName b) (leafBufferSize b l l field 0)] /\
    fSourceTree s'
    = Some (tree_SetBranchAddress (branch_GetName b)
              (AddrBranchBuffer (List.length (fImportBranches s))) t) /\
    fModel s' = Some (model_Add (TopField (CreatedField field)) m) /\
    fImportTransformations s' = fImportTransformations s /\
    fLeafCountCollections s' = fLeafCountCollections s.
Proof.
  intros Hl Hcl Hobj Hcount Hcs Hclass Hcreate Ht Hm.
  pose proof (single_leaf_not_list b l Hl) as Hlist.
  rewrite (prepare_branch_steps env b l [] Hl);
    [|now rewrite Hlist|now rewrite Hlist|exact Hcl].
  unfold bind at 1. cbn [for_each]. unfold bind at 1.
  unfold prepare_leaf at 1. rewrite Hobj, Hcreate, Hcount, Hlist, Hcs.
  cbv beta iota zeta. cbv beta iota delta [bind AddToModel deref modify ret].
  rewrite Hm. proj. cbn [fst snd].
  assert (Hset : (if isClass l
                  then if TClass_GetClass env (branch_GetClassName b)
                       then SetBranchAddress (branch_GetName b)
                              (AddrBranchBuffer (List.length (fImportBranches s)))
                       else stop (Failed ("unable to load class " +++ branch_GetClassName b
                                          +++ " for branch " +++ branch_GetName b))
                  else SetBranchAddress (branch_GetName b)
                         (AddrBranchBuffer (List.length (fImportBranches s))))
                 = SetBranchAddress (branch_GetName b)
                     (AddrBranchBuffer (List.length (fImportBranches s)))).
  { destruct (isClass l); [|reflexivity]. now rewrite (Hclass eq_refl). }
  rewrite Hset. cbv beta iota delta [SetBranchAddress bind deref modify]. proj. rewrite Ht.
  proj. rewrite rev_unit. cbn [Buffer_is_null fFieldBuffer]. rewrite rev_involutive.
  eexists. split; [reflexivity|]. proj. repeat split.
Qed.

Lemma plain_branch_is_read_in_place_witness :
  exists s',
    prepare_branch (Scenario.env [] true)
      (mkTBranch "x" "" [mkTLeaf TLeafOther "x" "Float_t" false None 1 0 0])
      (snd (ResetSchema (Scenario.importer [] Scenario.tree)))
    = (Ok tt, s') /\
    fImportFields s'
    = [mkImportField (CreatedField (mkRField "x" "float" 4)) (BranchBuffer 0)
                     false false false] /\
    fImportBranches s' = [mkImportBranch "x" 4].
Proof.
  destruct (plain_branch_is_read_in_place (Scenario.env [] true)
              (mkTBranch "x" "" [mkTLeaf TLeafOther "x" "Float_t" false None 1 0 0])
              (mkTLeaf TLeafOther "x" "Float_t" false None 1 0 0)
              (mkRField "x" "float" 4)
              (snd (ResetSchema (Scenario.importer [] Scenario.tree)))
              (tree_SetImplicitMT false Scenario.tree) CreateBare
              eq_refl eq_refl eq_refl eq_refl eq_refl
              (fun H => eq_refl) eq_refl eq_refl eq_refl)
    as (s' & Hrun & Hf & Hb & _).
  exists s'. split; [exact Hrun|]. split; [exact Hf|exact Hb].
Defined.

(** ** From [Create] to the end of [Import] *)

Lemma Create_from_tree_ok env t destFileName dest :
  TFile_Open env destFileName UPDATE = Some dest ->
  file_IsZombie dest = false ->
  Create_from_tree env t destFileName
  = Ok (mkImporter (tree_GetName t) destFileName None (Some (tree_SetImplicitMT false t))
                   (Some dest) (kDefaultCompressionSettings env) None None [] [] [] []
                   false (-1) None []).
Proof.
  intros Hopen Hz. unfold Create_from_tree, returning_importer.
  cbv beta iota delta [bind modify discard SetupDestination]. proj.
  rewrite Hopen. proj. rewrite Hz. reflexivity.
Qed.

(** X16: from [Create] to the end of [Import].  An importer is created
    from a tree and a destination file that opens, is no zombie and holds
    no key of the tree's name; the tree holds no address of the importer
    and names each of its count leaves once; schema preparation succeeds.
    Then [Import] succeeds, and with the defaults of a new importer it
    submits every entry of the tree, 0 to GetEntries - 1 in this order.
    The sink is opened under the name of the tree with the default
    compression, and the last thing that happens is the commit of the
    dataset of that name. *)
Theorem created_importer_imports_every_entry env t destFileName dest importer s1 :
  TFile_Open env destFileName UPDATE = Some dest ->
  file_IsZombie dest = false ->
  file_FindKey (tree_GetName t) dest = false ->
  untouched t = true ->
  count_leaves_distinct t = true ->
  Create_from_tree env t destFileName = Ok importer ->
  PrepareSchema env importer = (Ok tt, s1) ->
  exists s',
    Import env importer = (Ok tt, s') /\
    submitted (fTrace s') = entry_range 0 (Z.to_nat (tree_GetEntries t)) /\
    In (EvOpenSink (tree_GetName t) (kDefaultCompressionSettings env)) (fTrace s') /\
    last (fTrace s') (EvGetEntry 0) = EvCommitDataset (tree_GetName t).
Proof.
  intros Hopen Hz Hkey Hu Hnames Hcreate Hprep.
  rewrite (Create_from_tree_ok env t destFileName dest Hopen Hz) in Hcreate.
  injection Hcreate as <-.
  set (importer := mkImporter (tree_GetName t) destFileName None
                     (Some (tree_SetImplicitMT false t)) (Some dest)
                     (kDefaultCompressionSettings env) None None [] [] [] []
                     false (-1) None []) in *.
  assert (Htree : fSourceTree importer = Some (tree_SetImplicitMT false t)) by reflexivity.
  pose proof (PrepareSchema_ready env importer (tree_SetImplicitMT false t) s1
                Htree Hu Hnames Hprep) as Hready.
  destruct (Import_ok env importer dest (tree_SetImplicitMT false t) s1
              eq_refl Hkey Htree Hprep Hready)
    as (s' & rep & loop & fin & Hrun & _ & Hrep & Htr & Hsub & _ & _ & nbytes & Hfin).
  change (fTrace importer) with (@nil Event) in Htr. cbn [app] in Htr.
  change (fMaxEntries importer) with (-1) in Hsub.
  change (tree_GetEntries (tree_SetImplicitMT false t)) with (tree_GetEntries t) in Hsub.
  rewrite entries_to_import_min in Hsub. cbn [Z.leb Z.compare] in Hsub.
  change (fIsQuiet importer) with false in Hfin.
  assert (Hfin' : forallb is_neutral (fin ++ [EvCommitDataset (fNTupleName importer)]) = true)
    by (rewrite Hfin; reflexivity).
  exists s'. split; [exact Hrun|]. rewrite Htr. split; [|split].
  - unfold submitted.
    rewrite (submitted_from_neutral None rep _ (report_is_neutral rep Hrep)).
    unfold import_events. cbn [submitted_from].
    rewrite Hsub.
    + rewrite <- (app_nil_r (fin ++ _)), (submitted_from_neutral None _ [] Hfin').
      cbn. now rewrite app_nil_r.
    + intro c. rewrite <- (app_nil_r (fin ++ _)), !(submitted_from_neutral _ _ [] Hfin').
      reflexivity.
  - apply in_or_app. right. unfold import_events. now left.
  - unfold import_events.
    assert (E : rep ++ EvOpenSink (fNTupleName importer) (fWriteOptions importer)
                       :: EvCreateWriter (fModel s1)
                       :: loop ++ fin ++ [EvCommitDataset (fNTupleName importer)]
                = (rep ++ EvOpenSink (fNTupleName importer) (fWriteOptions importer)
                          :: EvCreateWriter (fModel s1) :: loop ++ fin)
                  ++ [EvCommitDataset (fNTupleName importer)]).
    { symmetry. rewrite <- app_assoc. cbn [app]. rewrite <- app_assoc. reflexivity. }
    rewrite E. apply last_last.
Qed.

Lemma created_importer_imports_every_entry_witness :
  exists s',
    Import (Scenario.env [] true) (Scenario.importer [] Scenario.tree) = (Ok tt, s') /\
    submitted (fTrace s') = [0; 1; 2].
Proof.
  destruct (created_importer_imports_every_entry (Scenario.env [] true) Scenario.tree
              "out.root" (mkTFile false [] []) (Scenario.importer [] Scenario.tree)
              (Scenario.prepared Scenario.tree)
              eq_refl eq_refl eq_refl eq_refl eq_refl eq_refl
              ltac:(vm_compute; reflexivity))
    as (s' & Hrun & Hsub & _).
  exists s'. split; [exact Hrun|exact Hsub].
Defined.

(** ** The collections of a prepared importer *)

Lemma In_replace_at {V} k (v : V) m k' v' :
  In (k', v') (StdMap.replace k v m) ->
  In (k', v') m \/ (k' = k /\ v' = v).
Proof.
  induction m as [|[k0 v0] m IH]; cbn [StdMap.replace]; intro H; [contradiction|].
  destruct (String.eqb k k0) eqn:Hk.
  - apply String.eqb_eq in Hk. subst k0. destruct H as [H|H].
    + inv H. right. split; reflexivity.
    + left. now right.
  - destruct H as [H|H]; [left; now left|].
    destruct (IH H) as [Hin|Heq]; [left; now right|right; exact Heq].
Qed.

(** The map changes in three ways while the branches are visited: an empty
    collection is inserted under a key that is not there ([operator[]],
    lines 238 and 252); a field is added to a collection that has a model,
    with its index and its transformation (lines 252-255); and the
    collection of a counter, with the maximum of the count leaf, is
    inserted under a key that is not there (lines 179-185).  A property
    kept by the three is kept by the visit. *)
Section Collections.
Variable allowed : string -> Z -> Prop.
Variable P : Collections -> Prop.
Hypothesis P_default : forall k m,
  StdMap.find k m = None -> P m -> P (StdMap.put k default_collection m).
Hypothesis P_field : forall k c sub field bi fi m,
  StdMap.find k m = Some c -> fCollectionModel c = Some sub -> P m ->
  P (StdMap.replace k
       (with_fTransformations
          (fTransformations c ++ [RLeafArrayTransformation bi fi 0])
          (with_fImportFieldIndexes (fImportFieldIndexes c ++ [fi])
             (with_fCollectionModel (Some (sub ++ [field])) c))) m).
Hypothesis P_counter : forall k maxLength m,
  allowed k maxLength -> StdMap.find k m = None -> P m ->
  P (StdMap.put k (mkCollection (Some []) None None "" maxLength (Some 0) [] []) m).

Let kept {A} (m : M A) : Prop :=
  preserving (fun s s' => P (fLeafCountCollections s) -> P (fLeafCountCollections s')) m.

Lemma P_index k m : P m -> P (snd (StdMap.index default_collection k m)).
Proof.
  intro H. unfold StdMap.index. destruct (StdMap.find k m) eqn:Hf; cbn [snd]; [exact H|].
  now apply P_default.
Qed.

Lemma kept_bind {A B} (m : M A) (k : A -> M B) :
  kept m -> (forall a, kept (k a)) -> kept (bind m k).
Proof. apply preserving_bind. intros; auto. Qed.

Lemma kept_SetBranchAddress name a : kept (SetBranchAddress name a).
Proof.
  intros s o s' H. cbv beta iota delta [SetBranchAddress bind deref modify] in H.
  destruct (fSourceTree s); inv H; auto.
Qed.

Lemma kept_AddToModel f : kept (AddToModel f).
Proof.
  intros s o s' H. cbv beta iota delta [AddToModel bind deref modify] in H.
  destruct (fModel s); inv H; auto.
Qed.

Lemma kept_prepare_count_leaf b firstLeaf :
  allowed (leaf_GetName firstLeaf) (leaf_GetMaximum firstLeaf) ->
  kept (prepare_count_leaf b firstLeaf).
Proof.
  intros Hallowed s o s' H D. unfold prepare_count_leaf, StdMap.emplace in H.
  destruct (StdMap.find (leaf_GetName firstLeaf) (fLeafCountCollections s)) eqn:Hfind;
    cbv beta iota delta [bind SetBranchAddress deref modify] in H;
    destruct (fSourceTree s); inv H; proj; auto.
Qed.

Lemma kept_prepare_leaf env b firstLeaf l acc : kept (prepare_leaf env b firstLeaf l acc).
Proof.
  intros s o s' H D. unfold prepare_leaf in H.
  destruct (LeafClass_eqb (leaf_IsA l) TLeafObject); [inv H; exact D|].
  destruct (RFieldBase_Create env _ _) as [field|e]; [|inv H; exact D].
  cbv zeta in H.
  match type of H with
  | context [match ?x with (maxLength, s2) => _ end] => destruct x as [maxLength s2] eqn:Hs2
  end.
  assert (D2 : P (fLeafCountCollections s2)).
  { clear H.
    destruct (leaf_LeafCount l) as [countleafName|];
      [destruct (negb (isCString b firstLeaf) && negb (isClass firstLeaf))|].
    - pose proof (P_index countleafName _ D) as Di.
      destruct (isCString b firstLeaf); proj in Hs2;
        destruct (StdMap.index default_collection countleafName (fLeafCountCollections s))
          as [c m]; cbn [snd] in *; inv Hs2; proj; exact Di.
    - inv Hs2. destruct (isCString b firstLeaf); proj; exact D.
    - inv Hs2. destruct (isCString b firstLeaf); proj; exact D. }
  clear Hs2.
  destruct (isLeafList b); [inv H; exact D2|].
  destruct (leaf_LeafCount l) as [countleafName|].
  - pose proof (P_index countleafName _ D2) as Di.
    pose proof (index_find countleafName (fLeafCountCollections s2)) as Hfind.
    destruct (StdMap.index default_collection countleafName (fLeafCountCollections s2))
      as [c m]. cbn [fst snd] in Di, Hfind. cbv beta iota in H.
    destruct (fCollectionModel c) as [sub|] eqn:Hm; inv H; proj; [|exact Di].
    exact (P_field countleafName c sub field _ _ m Hfind Hm Di).
  - cbv beta iota delta [bind AddToModel deref modify ret] in H.
    destruct (fModel s2); inv H; proj; exact D2.
Qed.

Lemma kept_prepare_branch env b :
  (forall firstLeaf rest,
      branch_GetListOfLeaves b = firstLeaf :: rest -> isCountLeaf firstLeaf = true ->
      allowed (leaf_GetName firstLeaf) (leaf_GetMaximum firstLeaf)) ->
  kept (prepare_branch env b).
Proof.
  intro Hallowed. unfold prepare_branch.
  destruct (branch_GetListOfLeaves b) as [|firstLeaf leaves];
    [apply preserving_stop; auto|].
  destruct (isLeafList b && isClass firstLeaf); [apply preserving_stop; auto|].
  destruct (isLeafList b && isCountLeaf firstLeaf); [apply preserving_stop; auto|].
  destruct (isCountLeaf firstLeaf) eqn:Hcl.
  { apply kept_prepare_count_leaf. exact (Hallowed _ _ eq_refl Hcl). }
  apply kept_bind;
    [apply preserving_for_each; auto; intros; apply kept_prepare_leaf|].
  intros [branchBufferSize recordItems]. cbn [fst snd].
  apply kept_bind.
  { destruct recordItems.
    - apply preserving_ret; auto.
    - apply kept_bind; [|intros; apply kept_AddToModel].
      apply preserving_modify. intro s. proj. auto. }
  intros _.
  apply kept_bind; [intros s o s' H; inv H; auto|]. intro idx.
  apply kept_bind.
  { destruct (isClass firstLeaf); [destruct (TClass_GetClass env _)|];
      try apply kept_SetBranchAddress. apply preserving_stop; auto. }
  intros _.
  apply kept_bind.
  { intros s o s' H.
    destruct (rev (fImportFields s)) as [|back front]; [inv H; auto|].
    destruct (Buffer_is_null (fFieldBuffer back)); inv H; proj; auto. }
  intros _. apply preserving_modify. intro s. proj. auto.
Qed.

Lemma kept_prepare_branches env branches :
  (forall b firstLeaf rest,
      In b branches ->
      branch_GetListOfLeaves b = firstLeaf :: rest -> isCountLeaf firstLeaf = true ->
      allowed (leaf_GetName firstLeaf) (leaf_GetMaximum firstLeaf)) ->
  kept (for_each (fun b (_ : unit) => prepare_branch env b) branches tt).
Proof.
  induction branches as [|b branches IH]; intro Hallowed; cbn [for_each].
  - apply preserving_ret; auto.
  - apply kept_bind.
    + apply kept_prepare_branch. intros firstLeaf rest. apply Hallowed. now left.
    + intros []. apply IH. intros b' firstLeaf rest Hb'. apply Hallowed. now right.
Qed.
End Collections.

Lemma ascending_put {V} k (v : V) (m : list (string * V)) :
  ascending (map fst m) = true -> ascending (map fst (StdMap.put k v m)) = true.
Proof.
  induction m as [|[k0 v0] m IH]; [reflexivity|].
  intro H. cbn [StdMap.put].
  destruct (String.compare k k0) eqn:Hc.
  - apply String.compare_eq_iff in Hc. subst k0. exact H.
  - cbn [map fst ascending] in *. now rewrite Hc.
  - assert (Hc' : String.compare k0 k = Lt).
    { rewrite String.compare_antisym, Hc. reflexivity. }
    cbn [map fst ascending] in H. apply andb_true_iff in H. destruct H as [H0 Hm].
    specialize (IH Hm). cbn [map fst]. cbn [ascending]. rewrite IH, andb_true_r.
    destruct m as [|[k1 v1] m']; cbn [StdMap.put map fst]; [now rewrite Hc'|].
    cbn [map fst] in H0.
    destruct (String.compare k k1); cbn [map fst]; [now rewrite Hc'|now rewrite Hc'|exact H0].
Qed.

Lemma In_keys_put {V} k (v : V) (m : list (string * V)) k0 :
  StdMap.find k m = None -> In k0 (map fst m) -> In k0 (map fst (StdMap.put k v m)).
Proof.
  intros Hf Hin. apply in_map_iff in Hin. destruct Hin as ([k' v'] & <- & Hin).
  apply in_map_iff. exists (k', v'). split; [reflexivity|]. now apply In_put_old.
Qed.

(** The keys of the map are in ascending order after any number of
    branches. *)
Lemma ascending_branches env branches s o s' :
  for_each (fun b (_ : unit) => prepare_branch env b) branches tt s = (o, s') ->
  ascending (map fst (fLeafCountCollections s)) = true ->
  ascending (map fst (fLeafCountCollections s')) = true.
Proof.
  apply (kept_prepare_branches (fun _ _ => True)
           (fun m => ascending (map fst m) = true)).
  - intros k m _ H. now apply ascending_put.
  - intros k c sub field bi fi m _ _ H. now rewrite map_fst_replace.
  - intros k maxLength m _ _ H. now apply ascending_put.
  - intros; exact I.
Qed.

(** A key of the map stays one. *)
Lemma key_stays env branches k0 s o s' :
  for_each (fun b (_ : unit) => prepare_branch env b) branches tt s = (o, s') ->
  In k0 (map fst (fLeafCountCollections s)) ->
  In k0 (map fst (fLeafCountCollections s')).
Proof.
  apply (kept_prepare_branches (fun _ _ => True) (fun m => In k0 (map fst m))).
  - intros k m Hf H. now apply In_keys_put.
  - intros k c sub field bi fi m _ _ H. now rewrite map_fst_replace.
  - intros k maxLength m _ Hf H. now apply In_keys_put.
  - intros; exact I.
Qed.

(** A collection with a model is the collection of a counter of one of
    the branches. *)
Lemma modelled_are_counters env branches s o s' :
  for_each (fun b (_ : unit) => prepare_branch env b) branches tt s = (o, s') ->
  (forall k c, In (k, c) (fLeafCountCollections s) -> fCollectionModel c <> None ->
               In k (flat_map count_leaf_names branches)) ->
  forall k c, In (k, c) (fLeafCountCollections s') -> fCollectionModel c <> None ->
              In k (flat_map count_leaf_names branches).
Proof.
  apply (kept_prepare_branches (fun k _ => In k (flat_map count_leaf_names branches))
           (fun m => forall k c, In (k, c) m -> fCollectionModel c <> None ->
                                 In k (flat_map count_leaf_names branches))).
  - intros k m _ H k' c' Hin Hm. apply In_put in Hin. destruct Hin as [Hin|Hin].
    + inv Hin. now elim Hm.
    + exact (H _ _ Hin Hm).
  - intros k c sub field bi fi m Hf Hc H k' c'' Hin Hm. apply In_replace_at in Hin.
    destruct Hin as [Hin|[-> _]]; [exact (H _ _ Hin Hm)|].
    apply (H _ _ (find_In _ _ _ Hf)). congruence.
  - intros k maxLength m Hk _ H k' c' Hin Hm. apply In_put in Hin.
    destruct Hin as [Hin|Hin].
    + now inv Hin.
    + exact (H _ _ Hin Hm).
  - intros b firstLeaf rest Hb Hl Hcl. apply in_flat_map. exists b. split; [exact Hb|].
    unfold count_leaf_names. rewrite Hl, Hcl. now left.
Qed.

(** The branch of a counter leaves its name as a key. *)
Lemma prepare_branch_registers env b s s' :
  prepare_branch env b s = (Ok tt, s') ->
  forall k, In k (count_leaf_names b) -> In k (map fst (fLeafCountCollections s')).
Proof.
  intros H k Hk. unfold count_leaf_names in Hk. unfold prepare_branch in H.
  destruct (branch_GetListOfLeaves b) as [|firstLeaf leaves]; [contradiction|].
  destruct (isCountLeaf firstLeaf) eqn:Hcl; [|contradiction].
  destruct Hk as [<-|[]].
  destruct (isLeafList b && isClass firstLeaf); [discriminate H|].
  destruct (isLeafList b && true); [discriminate H|].
  unfold prepare_count_leaf, StdMap.emplace in H.
  destruct (StdMap.find (leaf_GetName firstLeaf) (fLeafCountCollections s)) as [c|] eqn:Hfind;
    cbv beta iota delta [bind SetBranchAddress deref modify] in H;
    destruct (fSourceTree s); inv H; proj.
  - apply in_map_iff. exists (leaf_GetName firstLeaf, c). split; [reflexivity|].
    now apply find_In.
  - apply in_map_iff. eexists (leaf_GetName firstLeaf, _). split; [reflexivity|].
    apply find_In. apply find_put_same.
Qed.

Lemma counters_are_keys env branches :
  forall s s',
    for_each (fun b (_ : unit) => prepare_branch env b) branches tt s = (Ok tt, s') ->
    forall k, In k (flat_map count_leaf_names branches) ->
              In k (map fst (fLeafCountCollections s')).
Proof.
  induction branches as [|b branches IH]; intros s s' H k Hk; [contradiction|].
  cbn [for_each] in H. apply bind_Ok in H. destruct H as ([] & s1 & Hb & H).
  cbn [flat_map] in Hk. apply in_app_or in Hk. destruct Hk as [Hk|Hk].
  - apply (key_stays env branches k s1 _ s' H).
    exact (prepare_branch_registers env b s s1 Hb k Hk).
  - exact (IH _ _ H k Hk).
Qed.

(** The names of the collections. *)
Lemma finish_collection_name env key i c s c' s' :
  finish_collection env key i c s = (Ok c', s') ->
  fFieldName c' = "_collection" +++ to_string i.
Proof.
  intro H. unfold finish_collection in H.
  apply bind_Ok in H. destruct H as (c1 & s1 & HO & H).
  apply bind_Ok in H. destruct H as ([] & s2 & _ & H). unfold ret in H. inv H.
  destruct (open_collection_Ok _ _ _ _ _ HO) as (sub & entry & _ & ->).
  reflexivity.
Qed.

Lemma finish_collections_names env todo :
  forall done i s s',
    finish_collections env done todo i s = (Ok tt, s') ->
    exists todo',
      fLeafCountCollections s' = rev done ++ todo' /\
      map (fun kc => fFieldName (snd kc)) todo'
      = map (fun j => "_collection" +++ to_string (i + Z.of_nat j))
            (seq 0 (List.length todo)).
Proof.
  induction todo as [|[key c] todo IH]; intros done i s s' H.
  - cbn [finish_collections] in H. unfold modify in H. inv H. exists []. proj.
    rewrite app_nil_r. split; reflexivity.
  - apply finish_collections_Ok_step in H. destruct H as (c' & s1 & HF & H).
    pose proof (finish_collection_name _ _ _ _ _ _ _ HF) as Hname.
    destruct (IH _ _ _ _ H) as (todo' & Hcs & Hnames).
    exists ((key, c') :: todo'). cbn [rev] in Hcs. rewrite <- app_assoc in Hcs.
    split; [exact Hcs|]. cbn [map List.length seq snd].
    rewrite Hname, Z.add_0_r. f_equal.
    rewrite Hnames, <- seq_shift, map_map. apply map_ext. intro j.
    do 2 f_equal. lia.
Qed.

(** X17: the collections of a prepared importer.  After a successful
    preparation the map holds one collection for every count leaf of the
    tree and nothing else: its keys are the names of the count leaves.
    The collections are named [_collection0], [_collection1], .. in the
    order in which the map is traversed, that is, in ascending order of
    the names of the count leaves, not in the order of the branches. *)
Theorem PrepareSchema_collections env s t s1 :
  fSourceTree s = Some t ->
  PrepareSchema env s = (Ok tt, s1) ->
  ascending (map fst (fLeafCountCollections s1)) = true /\
  (forall k, In k (map fst (fLeafCountCollections s1)) <->
             In k (flat_map count_leaf_names (tree_GetListOfBranches t))) /\
  map (fun kc => fFieldName (snd kc)) (fLeafCountCollections s1)
  = map (fun j => "_collection" +++ to_string (Z.of_nat j))
        (seq 0 (List.length (fLeafCountCollections s1))).
Proof.
  intros Ht HP.
  destruct (PrepareSchema_Ok_phases env s t s1 Ht HP)
    as (s2 & s3 & HL & HF & E4 & _).
  assert (Hcs0 : fLeafCountCollections (snd (ResetSchema s)) = []) by reflexivity.
  destruct (finish_collections_finished _ _ _ _ _ _ HF) as (cs' & Hcs & Hall & _).
  cbn [rev app] in Hcs. rewrite <- Hcs, <- E4 in Hall. clear Hcs cs'.
  pose proof (finished_keys _ _ Hall) as Hkeys.
  split; [|split].
  - rewrite Hkeys. apply (ascending_branches _ _ _ _ _ HL). now rewrite Hcs0.
  - intro k. rewrite Hkeys. split.
    + intro Hin. apply in_map_iff in Hin. destruct Hin as ([k' c] & <- & Hin).
      apply (modelled_are_counters _ _ _ _ _ HL) with (c := c); [|exact Hin|].
      * rewrite Hcs0. intros k0 c0 [].
      * clear - Hall Hin. induction Hall as [|kc kc' cs cs' Hfin _ IH]; [contradiction|].
        destruct Hin as [->|Hin]; [|exact (IH Hin)].
        destruct Hfin as (_ & Hm & _). exact Hm.
    + exact (counters_are_keys _ _ _ _ HL k).
  - destruct (finish_collections_names _ _ _ _ _ _ HF) as (todo' & Hcs & Hnames).
    cbn [rev app] in Hcs. rewrite E4, Hcs, Hnames.
    assert (Hlen : List.length todo' = List.length (fLeafCountCollections s2)).
    { rewrite <- (length_map (fun kc => fFieldName (snd kc)) todo'), Hnames.
      now rewrite length_map, length_seq. }
    rewrite Hlen. apply map_ext. intro j. reflexivity.
Qed.

Lemma PrepareSchema_collections_witness :
  map (fun kc => (fst kc, fFieldName (snd kc)))
      (fLeafCountCollections (Scenario.prepared tree_two_collections))
  = [("k", "_collection0"); ("n", "_collection1")] /\
  forall k, In k (map fst (fLeafCountCollections (Scenario.prepared tree_two_collections)))
            <-> In k ["n"; "k"].
Proof.
  split; [vm_compute; reflexivity|].
  apply (PrepareSchema_collections (Scenario.env [] true)
           (Scenario.importer [] tree_two_collections)
           (tree_SetImplicitMT false tree_two_collections)
           (Scenario.prepared tree_two_collections)).
  - reflexivity.
  - vm_compute. reflexivity.
Defined.

(** ** C strings, counted arrays and leaf lists *)

Lemma isCString_parts b l :
  isCString b l = true ->
  isLeafList b = false /\ leaf_IsA l = TLeafC /\ leaf_LeafCount l = None /\
  leaf_Countval l = 1.
Proof.
  unfold isCString, has_LeafCounter. rewrite !andb_true_iff.
  intros (((H1 & H2) & H3) & H4).
  apply negb_true_iff in H1. apply Z.eqb_eq in H4.
  destruct (leaf_LeafCount l); [discriminate H3|].
  destruct (leaf_IsA l); try discriminate H2. repeat split; assumption.
Qed.

(** X18: a C string.  For a branch whose single leaf is a C string, a
    field of type [std::string] is made with a buffer of its own and added
    to the model; the branch buffer has the size of the leaf's maximum and
    is registered with the tree; and one string transformation is
    registered at the top level, from this buffer to this field, which the
    loop of [Import] runs once per entry. *)
Theorem C_string_branch_is_transformed env b l field s t m :
  branch_GetListOfLeaves b = [l] ->
  isCountLeaf l = false ->
  isCString b l = true ->
  RFieldBase_Create env (branch_GetName b) "std::string" = Success field ->
  fSourceTree s = Some t ->
  fModel s = Some m ->
  exists s',
    prepare_branch env b s = (Ok tt, s') /\
    fImportFields s'
    = fImportFields s ++
      [mkImportField (CreatedField field) (OwnedValue (List.length (fImportFields s)))
                     true false false] /\
    fImportTransformations s'
    = fImportTransformations s ++
      [RCStringTransformation (List.length (fImportBranches s))
                              (List.length (fImportFields s))] /\
    fImportBranches s'
    = fImportBranches s ++ [mkImportBranch (branch_GetName b) (to_size_t (leaf_GetMaximum l))] /\
    fSourceTree s'
    = Some (tree_SetBranchAddress (branch_GetName b)
              (AddrBranchBuffer (List.length (fImportBranches s))) t) /\
    fModel s' = Some (model_Add (TopField (CreatedField field)) m) /\
    fLeafCountCollections s' = fLeafCountCollections s.
Proof.
  intros Hl Hcl Hcs Hcreate Ht Hm.
  destruct (isCString_parts b l Hcs) as (Hlist & HisA & Hcount & Hval).
  assert (Hobj : LeafClass_eqb (leaf_IsA l) TLeafObject = false) by (now rewrite HisA).
  assert (Hclass : isClass l = false) by (unfold isClass; now rewrite HisA).
  assert (Hname : fieldName b l = branch_GetName b) by (unfold fieldName; now rewrite Hlist).
  assert (Htype : fieldType b l l = "std::string").
  { unfold fieldType, isFixedSizeArray, has_LeafCounter.
    rewrite Hcs, Hclass, Hcount, Hval. reflexivity. }
  rewrite (prepare_branch_steps env b l [] Hl);
    [|now rewrite Hlist|now rewrite Hlist|exact Hcl].
  unfold bind at 1. cbn [for_each]. unfold bind at 1.
  unfold prepare_leaf at 1. rewrite Hobj, Hname, Htype, Hcreate, Hcount, Hlist, Hcs.
  cbv beta iota zeta. cbv beta iota delta [bind AddToModel deref modify ret].
  proj. rewrite Hm. proj. cbn [fst snd]. rewrite Hclass.
  cbv beta iota delta [SetBranchAddress bind deref modify]. proj. rewrite Ht.
  proj. rewrite rev_unit. cbn [Buffer_is_null fFieldBuffer].
  eexists. split; [reflexivity|]. proj. unfold leafBufferSize. rewrite Hcs. repeat split.
Qed.

Lemma C_string_branch_is_transformed_witness :
  exists s',
    prepare_branch (Scenario.env [] true) Scenario.branch_s
      (snd (ResetSchema (Scenario.importer [] Scenario.tree))) = (Ok tt, s') /\
    fImportTransformations s' = [RCStringTransformation 0 0] /\
    fImportBranches s' = [mkImportBranch "s" 10].
Proof.
  destruct (C_string_branch_is_transformed (Scenario.env [] true) Scenario.branch_s
              Scenario.leaf_s (mkRField "s" "std::string" 32)
              (snd (ResetSchema (Scenario.importer [] Scenario.tree)))
              (tree_SetImplicitMT false Scenario.tree) CreateBare
              eq_refl eq_refl eq_refl eq_refl eq_refl eq_refl)
    as (s' & Hrun & _ & Hts & Hb & _).
  exists s'. split; [exact Hrun|]. split; [exact Hts|exact Hb].
Defined.

(** X19: a leaf-counted array.  For a branch whose single leaf is an array
    counted by a leaf whose collection is in the map, with a model, the
    field is made with a buffer of its own and a buffer of fMaxLength
    elements is allocated and registered with the tree.  The field does
    not go to the model of the importer but to the model of the
    collection, which also gets the index of the field and an element
    transformation that stands at the first element.  Nothing is
    registered at the top level. *)
Theorem counted_array_joins_its_collection env b l field name c sub s t :
  branch_GetListOfLeaves b = [l] ->
  isCountLeaf l = false ->
  LeafClass_eqb (leaf_IsA l) TLeafObject = false ->
  isClass l = false ->
  leaf_LeafCount l = Some name ->
  RFieldBase_Create env (branch_GetName b) (leaf_GetTypeName l) = Success field ->
  StdMap.find name (fLeafCountCollections s) = Some c ->
  fCollectionModel c = Some sub ->
  fSourceTree s = Some t ->
  exists s',
    prepare_branch env b s = (Ok tt, s') /\
    fImportFields s'
    = fImportFields s ++
      [mkImportField (CreatedField field) (OwnedValue (List.length (fImportFields s)))
                     true true false] /\
    fLeafCountCollections s'
    = StdMap.replace name
        (with_fTransformations
           (fTransformations c ++
            [RLeafArrayTransformation (List.length (fImportBranches s))
                                      (List.length (fImportFields s)) 0])
           (with_fImportFieldIndexes (fImportFieldIndexes c ++ [List.length (fImportFields s)])
              (with_fCollectionModel (Some (sub ++ [field])) c)))
        (fLeafCountCollections s) /\
    fImportBranches s'
    = fImportBranches s ++
      [mkImportBranch (branch_GetName b)
         (to_size_t (to_size_t (fMaxLength c) * field_GetValueSize field))] /\
    fSourceTree s'
    = Some (tree_SetBranchAddress (branch_GetName b)
              (AddrBranchBuffer (List.length (fImportBranches s))) t) /\
    fModel s' = fModel s /\
    fImportTransformations s' = fImportTransformations s.
Proof.
  intros Hl Hcl Hobj Hclass Hcount Hcreate Hfind Hsub Ht.
  pose proof (single_leaf_not_list b l Hl) as Hlist.
  pose proof (counted_not_CString b l name Hcount) as Hcs.
  assert (Hname : fieldName b l = branch_GetName b) by (unfold fieldName; now rewrite Hlist).
  assert (Htype : fieldType b l l = leaf_GetTypeName l).
  { unfold fieldType, isFixedSizeArray, has_LeafCounter.
    rewrite Hcs, Hclass, Hcount. reflexivity. }
  rewrite (prepare_branch_steps env b l [] Hl);
    [|now rewrite Hlist|now rewrite Hlist|exact Hcl].
  unfold bind at 1. cbn [for_each]. unfold bind at 1.
  unfold prepare_leaf at 1. rewrite Hobj, Hname, Htype, Hcreate, Hcount, Hlist, Hcs, Hclass.
  cbn [negb andb]. rewrite (find_index_present name c _ Hfind).
  cbv beta iota zeta. proj. rewrite (find_index_present name c _ Hfind).
  cbv beta iota zeta. rewrite Hsub. unfold ret. cbv beta iota. cbn [fst snd].
  unfold bind at 1. unfold bind at 1.
  cbv beta iota delta [SetBranchAddress bind deref modify]. proj. rewrite Ht.
  proj. rewrite rev_unit. cbn [Buffer_is_null fFieldBuffer].
  eexists. split; [reflexivity|]. proj.
  unfold leafBufferSize, isLeafCountArray, has_LeafCounter. rewrite Hcs, Hclass, Hcount.
  repeat split.
Qed.

Lemma counted_array_joins_its_collection_witness :
  exists s',
    prepare_branch (Scenario.env [] true) (mkTBranch "a" "" [Scenario.leaf_a])
      (snd (prepare_branch (Scenario.env [] true) (mkTBranch "n" "" [Scenario.leaf_n])
              (snd (ResetSchema (Scenario.importer [] Scenario.tree)))))
    = (Ok tt, s') /\
    fLeafCountCollections s'
    = [("n", mkCollection (Some [mkRField "a" "float" 4]) None None "" 2 (Some 0)
                          [0%nat] [RLeafArrayTransformation 0 0 0])] /\
    fImportBranches s' = [mkImportBranch "a" 8].
Proof.
  destruct (counted_array_joins_its_collection (Scenario.env [] true)
              (mkTBranch "a" "" [Scenario.leaf_a]) Scenario.leaf_a
              (mkRField "a" "float" 4) "n"
              (mkCollection (Some []) None None "" 2 (Some 0) [] []) []
              (snd (prepare_branch (Scenario.env [] true) (mkTBranch "n" "" [Scenario.leaf_n])
                      (snd (ResetSchema (Scenario.importer [] Scenario.tree)))))
              (tree_SetBranchAddress "n" (AddrCountVal "n")
                 (tree_SetImplicitMT false Scenario.tree))
              eq_refl eq_refl eq_refl eq_refl eq_refl eq_refl eq_refl eq_refl eq_refl)
    as (s' & Hrun & _ & Hcs & Hb & _).
  exists s'. split; [exact Hrun|]. split; [exact Hcs|exact Hb].
Defined.

Lemma several_leaves_list b firstLeaf rest :
  branch_GetListOfLeaves b = firstLeaf :: rest -> rest <> [] -> isLeafList b = true.
Proof.
  intros Hl Hrest. unfold isLeafList, branch_GetNleaves. rewrite Hl.
  destruct rest as [|l rest]; [contradiction|]. cbn [List.length].
  apply Z.ltb_lt. lia.
Qed.

(** The loop over the leaves of a leaf list. *)
Lemma record_items_run env b firstLeaf leaves :
  isLeafList b = true ->
  forall items size items0 s,
    record_items env b firstLeaf leaves = Some items ->
    exists size',
      for_each (prepare_leaf env b firstLeaf) leaves (size, items0) s
      = (Ok (size', items0 ++ items), s).
Proof.
  intro Hlist.
  assert (Hcs : isCString b firstLeaf = false) by (unfold isCString; now rewrite Hlist).
  induction leaves as [|l leaves IH]; intros items size items0 s H.
  - inv H. exists size. cbn. now rewrite app_nil_r.
  - cbn [record_items] in H.
    destruct (LeafClass_eqb (leaf_IsA l) TLeafObject) eqn:Hobj; [discriminate H|].
    destruct (leaf_LeafCount l) eqn:Hcount; [discriminate H|].
    assert (Hname : fieldName b l = leaf_GetName l) by (unfold fieldName; now rewrite Hlist).
    destruct (RFieldBase_Create env (leaf_GetName l) (fieldType b firstLeaf l))
      as [f|e] eqn:Hcreate; [|discriminate H].
    destruct (record_items env b firstLeaf leaves) as [items'|] eqn:Hrest; [|discriminate H].
    inv H. cbn [for_each]. unfold bind at 1.
    unfold prepare_leaf at 1. rewrite Hobj, Hname, Hcreate, Hcount, Hlist, Hcs.
    cbv beta iota zeta. cbn [snd].
    destruct (IH items' (leafBufferSize b firstLeaf l f 0) (items0 ++ [f]) s eq_refl)
      as (size' & Hrun).
    exists size'. rewrite Hrun, <- app_assoc. reflexivity.
Qed.

(** X20: a leaf list.  For a branch with several leaves, the first of
    which is neither a class nor a counter and none of which is a
    TLeafObject or counted by another leaf, one field is made per leaf,
    named after the leaf.  The fields do not become import fields of their
    own: they are the items of one record field named after the branch,
    which is added to the model and writes from where the tree reads, the
    one buffer of the branch.  No transformation is registered. *)
Theorem leaf_list_becomes_a_record env b firstLeaf rest items s t m :
  branch_GetListOfLeaves b = firstLeaf :: rest ->
  rest <> [] ->
  isClass firstLeaf = false ->
  isCountLeaf firstLeaf = false ->
  record_items env b firstLeaf (firstLeaf :: rest) = Some items ->
  fSourceTree s = Some t ->
  fModel s = Some m ->
  exists s' size,
    prepare_branch env b s = (Ok tt, s') /\
    fImportFields s'
    = fImportFields s ++
      [mkImportField (RRecordField (branch_GetName b) items)
                     (BranchBuffer (List.length (fImportBranches s))) false false false] /\
    fImportBranches s' = fImportBranches s ++ [mkImportBranch (branch_GetName b) size] /\
    fSourceTree s'
    = Some (tree_SetBranchAddress (branch_GetName b)
              (AddrBranchBuffer (List.length (fImportBranches s))) t) /\
    fModel s' = Some (model_Add (TopField (RRecordField (branch_GetName b) items)) m) /\
    fImportTransformations s' = fImportTransformations s /\
    fLeafCountCollections s' = fLeafCountCollections s.
Proof.
  intros Hl Hrest Hclass Hcl Hitems Ht Hm.
  pose proof (several_leaves_list b firstLeaf rest Hl Hrest) as Hlist.
  rewrite (prepare_branch_steps env b firstLeaf rest Hl);
    [|now rewrite Hclass, andb_false_r|now rewrite Hcl, andb_false_r|exact Hcl].
  destruct (record_items_run env b firstLeaf (firstLeaf :: rest) Hlist items 0 [] s Hitems)
    as (size & Hrun).
  cbn [app] in Hrun.
  assert (Hne : exists i items', items = i :: items').
  { cbn [record_items] in Hitems.
    destruct (LeafClass_eqb _ _); [discriminate Hitems|].
    destruct (leaf_LeafCount firstLeaf); [discriminate Hitems|].
    destruct (RFieldBase_Create env _ _) as [f|]; [|discriminate Hitems].
    destruct (record_items env b firstLeaf rest) as [items'|]; [|discriminate Hitems].
    inv Hitems. now exists f, items'. }
  destruct Hne as (i & items' & ->).
  unfold bind at 1. rewrite Hrun. cbn [fst snd].
  cbv beta iota delta [bind AddToModel deref modify ret]. proj. rewrite Hm. proj.
  rewrite Hclass.
  cbv beta iota delta [SetBranchAddress bind deref modify]. proj. rewrite Ht.
  proj. rewrite rev_unit. cbn [Buffer_is_null fFieldBuffer]. rewrite rev_involutive.
  eexists. exists size. split; [reflexivity|]. proj. repeat split.
Qed.

Lemma leaf_list_becomes_a_record_witness :
  exists s' size,
    prepare_branch (Scenario.env [] true) branch_point
      (snd (ResetSchema (Scenario.importer [] Scenario.tree))) = (Ok tt, s') /\
    fImportFields s'
    = [mkImportField (RRecordField "p" [mkRField "x" "float" 4; mkRField "y" "std::int32_t" 4])
                     (BranchBuffer 0) false false false] /\
    fImportBranches s' = [mkImportBranch "p" size].
Proof.
  destruct (leaf_list_becomes_a_record (Scenario.env [] true) branch_point
              (mkTLeaf TLeafOther "x" "Float_t" false None 1 0 0)
              [mkTLeaf TLeafOther "y" "Int_t" false None 1 0 4]
              [mkRField "x" "float" 4; mkRField "y" "std::int32_t" 4]
              (snd (ResetSchema (Scenario.importer [] Scenario.tree)))
              (tree_SetImplicitMT false Scenario.tree) CreateBare
              eq_refl ltac:(discriminate) eq_refl eq_refl eq_refl eq_refl eq_refl)
    as (s' & size & Hrun & Hf & Hb & _).
  exists s', size. split; [exact Hrun|]. split; [exact Hf|exact Hb].
Defined.

(** ** What the progress hook is told *)

Lemma trace_grows_refl (p : Event -> bool) s :
  exists evs, fTrace s = fTrace s ++ evs /\ forallb p evs = true.
Proof. exists []. now rewrite app_nil_r. Qed.

Lemma trace_grows_trans (p : Event -> bool) s1 s2 s3 :
  (exists evs, fTrace s2 = fTrace s1 ++ evs /\ forallb p evs = true) ->
  (exists evs, fTrace s3 = fTrace s2 ++ evs /\ forallb p evs = true) ->
  exists evs, fTrace s3 = fTrace s1 ++ evs /\ forallb p evs = true.
Proof.
  intros (e1 & H1 & P1) (e2 & H2 & P2). exists (e1 ++ e2). split.
  - now rewrite H2, H1, app_assoc.
  - now apply forallb_app_true.
Qed.

Lemma conversion_is_entry ev :
  forallb is_conversion_event ev = true -> forallb is_entry_event ev = true.
Proof.
  apply forallb_weaken. intros e He. destruct e; try discriminate He; reflexivity.
Qed.

(** The loop over the entries adds to the trace events of entries only. *)
Lemma import_entry_events env i :
  preserving (fun s s' => exists evs, fTrace s' = fTrace s ++ evs /\
                                      forallb is_entry_event evs = true)
             (import_entry env i).
Proof.
  pose proof (trace_grows_refl is_entry_event) as Hrefl.
  pose proof (trace_grows_trans is_entry_event) as Htrans.
  unfold import_entry.
  apply preserving_bind; [exact Htrans| |].
  { unfold GetEntry.
    apply preserving_bind; [exact Htrans| |].
    { intros s o s' H. cbv beta in H. apply deref_cases in H. destruct H as [-> _].
      apply Hrefl. }
    intro t. apply preserving_bind; [exact Htrans| |].
    { intros s o s' H. apply emit_cases in H. destruct H as [_ ->]. proj.
      eexists. split; reflexivity. }
    intros _. apply preserving_bind; [exact Htrans| |].
    { intros s o s' H. cbv beta in H. apply deref_cases in H. destruct H as [-> _].
      apply Hrefl. }
    intro cs. intros s o s' H. unfold modify in H. inv H. proj. apply Hrefl. }
  intros _. apply preserving_bind; [exact Htrans| |].
  { intros s o s' H. unfold on_collections in H.
    destruct (import_collections _ _ _) as [[o1 cs] ev] eqn:HI. inv H. proj.
    destruct (import_collections_events _ _ _ _ _ _ HI) as (Hev & _).
    exists ev. split; [reflexivity|now apply conversion_is_entry]. }
  intros _. apply preserving_bind; [exact Htrans| |].
  { intros s o s' H. unfold on_transformations in H.
    destruct (run_import_transformations _ _ _) as [[o1 ts] ev] eqn:HI. inv H. proj.
    destruct (run_import_transformations_events _ _ _ _ _ _ HI) as (Hev & _).
    exists ev. split; [reflexivity|now apply conversion_is_entry]. }
  intros _. apply preserving_bind; [exact Htrans| |].
  { intros s o s' H. cbv beta in H. apply deref_cases in H. destruct H as [-> _].
    apply Hrefl. }
  intro entry. apply preserving_bind; [exact Htrans| |].
  { intros s o s' H. cbv beta in H. apply emit_cases in H. destruct H as [_ ->]. proj.
    eexists. split; reflexivity. }
  intros _. intros s o s' H. unfold report_progress in H.
  destruct (fProgressCallback s) as [cb|]; [|inv H; apply Hrefl].
  unfold Call in H.
  destruct (_ <? fNbytesNext cb); inv H; proj; eexists; split; reflexivity.
Qed.

Lemma import_loop_events env n :
  forall i, preserving (fun s s' => exists evs, fTrace s' = fTrace s ++ evs /\
                                                forallb is_entry_event evs = true)
                       (import_loop env n i).
Proof.
  induction n as [|n IH]; intro i; cbn [import_loop].
  - apply preserving_ret. apply trace_grows_refl.
  - apply preserving_bind; [apply trace_grows_trans|apply import_entry_events|].
    intros _. apply IH.
Qed.

Lemma final_reports_app n a b :
  final_reports n (a ++ b) = final_reports n a ++ final_reports (n + fills a) b.
Proof.
  revert n. induction a as [|e a IH]; intro n; cbn [app].
  - cbn. now rewrite Nat.add_0_r.
  - destruct e; cbn [final_reports]; rewrite ?IH; unfold fills; cbn [filter is_EvFill];
      try reflexivity.
    cbn [List.length]. now rewrite Nat.add_succ_r.
Qed.

Lemma final_reports_entries n ev :
  forallb is_entry_event ev = true -> final_reports n ev = [].
Proof.
  revert n. induction ev as [|e ev IH]; intros n H; [reflexivity|].
  cbn [forallb] in H. apply andb_true_iff in H. destruct H as [He Hev].
  destruct e; try discriminate He; cbn [final_reports]; now apply IH.
Qed.

Lemma progress_reports_schema n rep rest :
  forallb is_EvReportSchema rep = true ->
  progress_reports n (rep ++ rest) = progress_reports n rest.
Proof.
  induction rep as [|e rep IH]; intro H; [reflexivity|].
  cbn [forallb] in H. apply andb_true_iff in H. destruct H as [He Hrep].
  destruct e; try discriminate He. cbn [app progress_reports]. now apply IH.
Qed.

Lemma final_reports_schema n rep rest :
  forallb is_EvReportSchema rep = true ->
  final_reports n (rep ++ rest) = final_reports n rest.
Proof.
  induction rep as [|e rep IH]; intro H; [reflexivity|].
  cbn [forallb] in H. apply andb_true_iff in H. destruct H as [He Hrep].
  destruct e; try discriminate He. cbn [app final_reports]. now apply IH.
Qed.

(** The run of [Import] on an importer that is not quiet, with the loop
    over the entries in sight. *)
Lemma Import_run env s dest t s1 :
  fDestFile s = Some dest ->
  file_FindKey (fNTupleName s) dest = false ->
  fSourceTree s = Some t ->
  PrepareSchema env s = (Ok tt, s1) ->
  ready s1 = true ->
  fIsQuiet s = false ->
  exists s' rep loop nbytes,
    Import env s = (Ok tt, s') /\
    forallb is_EvReportSchema rep = true /\
    forallb is_entry_event loop = true /\
    fTrace s'
    = fTrace s ++ rep ++
      [EvOpenSink (fNTupleName s) (fWriteOptions s); EvCreateWriter (fModel s1)] ++
      loop ++
      [EvFinish nbytes (to_size_t (entries_to_import (fMaxEntries s) (tree_GetEntries t)));
       EvPrintDone (nbytes / 1000 / 1000)
                   (to_size_t (entries_to_import (fMaxEntries s) (tree_GetEntries t)));
       EvCommitDataset (fNTupleName s)] /\
    fills loop = Z.to_nat (entries_to_import (fMaxEntries s) (tree_GetEntries t)) /\
    progress_reports 0 loop
    = map (fun k => (to_size_t (0 + Z.of_nat k), S k))
          (seq 0 (Z.to_nat (entries_to_import (fMaxEntries s) (tree_GetEntries t)))).
Proof.
  intros Hdest Hkey Htree Hprep Hready Hq.
  destruct (framed_PrepareSchema env _ _ _ Hprep)
    as (F1 & F2 & F3 & F4 & F5 & F6 & F7 & F8 & F9 & rep & Frep & Hrep).
  rewrite Htree in F9. destruct (fSourceTree s1) as [t1|] eqn:Ht1; [|discriminate F9].
  cbn in F9. injection F9 as Hentries.
  set (n := entries_to_import (fMaxEntries s) (tree_GetEntries t)).
  set (s2 := with_fProgressCallback (Some (mkCallback gUpdateFrequencyBytes))
               (with_fModel None
                  (with_fTrace (fTrace s1 ++ [EvOpenSink (fNTupleName s) (fWriteOptions s);
                                              EvCreateWriter (fModel s1)]) s1))).
  assert (Hready2 : ready s2 = true) by exact Hready.
  destruct (import_loop_ok env (Z.to_nat n) 0 s2 Hready2)
    as (s3 & loop & Hloop & Htr3 & _ & Hfills & Hreps & Hsame & _).
  destruct (import_loop_events env (Z.to_nat n) 0 _ _ _ Hloop) as (loop' & Htr3' & Hkinds).
  assert (loop' = loop) by (rewrite Htr3 in Htr3'; now apply app_inv_head in Htr3').
  subst loop'.
  destruct Hsame as (S1 & S2 & S3 & S4 & S5 & S6 & S7 & S8 & S9 & S10 & S11 & S12 & S13).
  assert (Hcb3 : exists cb3, fProgressCallback s3 = Some cb3).
  { destruct (fProgressCallback s3) as [cb3|]; [now exists cb3|discriminate S13]. }
  destruct Hcb3 as (cb3 & Hcb3).
  set (nbytes := to_size_t (szWritePayload env (fTrace s3))).
  set (s4 := with_fTrace (fTrace s3 ++ EvFinish nbytes (to_size_t n)
                                       :: Finish nbytes (to_size_t n)) s3).
  assert (Hbody :
      import_entries env
        (with_fTrace (fTrace s1 ++ [EvOpenSink (fNTupleName s) (fWriteOptions s);
                                    EvCreateWriter (fModel s1)]) s1)
      = (Ok tt, s4)).
  { unfold import_entries. unfold bind at 1. cbn [modify]. unfold bind at 1. cbn [modify].
    unfold bind at 1. unfold deref. proj.
    rewrite Ht1. unfold bind at 1. proj.
    rewrite F6, F7, Hentries, Hq. fold n. fold s2.
    unfold bind. rewrite Hloop, Hcb3. reflexivity. }
  eexists. exists rep, loop, nbytes.
  split.
  { unfold Import. unfold bind at 1. unfold deref. rewrite Hdest.
    unfold bind at 1. rewrite Hkey.
    unfold bind at 1. unfold discard. rewrite Hprep.
    unfold bind at 1. unfold emit, modify. rewrite F1, F5.
    unfold with_writer. rewrite Hbody. reflexivity. }
  split; [exact Hrep|]. split; [exact Hkinds|].
  split.
  { unfold writer_destroyed, bind, emit, modify. proj. unfold s4. proj.
    rewrite Htr3, S1. unfold s2. proj. rewrite Frep, F1. unfold Finish.
    rewrite <- !app_assoc. reflexivity. }
  split; [exact Hfills|exact Hreps].
Qed.

(** X21: what the progress hook is told.  On an importer that is not
    quiet, with the conditions under which [Import] succeeds, the hook is
    called once after every entry and once at the end.  The call after
    entry number k (counting from 0), when k + 1 entries have been
    submitted, is told k: the loop hands over the index of the entry
    (line 393).  The final call is told the number of entries of the
    loop, which is the number submitted. *)
Theorem progress_hook_is_told_the_index env s dest t s1 :
  fDestFile s = Some dest ->
  file_FindKey (fNTupleName s) dest = false ->
  fSourceTree s = Some t ->
  untouched t = true ->
  count_leaves_distinct t = true ->
  PrepareSchema env s = (Ok tt, s1) ->
  fIsQuiet s = false ->
  exists s' evs,
    Import env s = (Ok tt, s') /\
    fTrace s' = fTrace s ++ evs /\
    progress_reports 0 evs
    = map (fun k => (to_size_t (Z.of_nat k), S k))
          (seq 0 (Z.to_nat (entries_to_import (fMaxEntries s) (tree_GetEntries t)))) /\
    final_reports 0 evs
    = [(to_size_t (entries_to_import (fMaxEntries s) (tree_GetEntries t)),
        Z.to_nat (entries_to_import (fMaxEntries s) (tree_GetEntries t)))].
Proof.
  intros Hdest Hkey Htree Hu Hnames Hprep Hq.
  pose proof (PrepareSchema_ready env s t s1 Htree Hu Hnames Hprep) as Hready.
  destruct (Import_run env s dest t s1 Hdest Hkey Htree Hprep Hready Hq)
    as (s' & rep & loop & nbytes & Hrun & Hrep & Hkinds & Htr & Hfills & Hreps).
  eexists. eexists. split; [exact Hrun|]. split; [exact Htr|]. split.
  - rewrite (progress_reports_schema _ _ _ Hrep). cbn [app progress_reports].
    rewrite progress_reports_app, Hreps. cbn [progress_reports]. rewrite app_nil_r.
    apply map_ext. intro k. reflexivity.
  - rewrite (final_reports_schema _ _ _ Hrep). cbn [app final_reports].
    rewrite final_reports_app, (final_reports_entries _ _ Hkinds), Hfills.
    reflexivity.
Qed.

Lemma progress_hook_is_told_the_index_witness :
  exists s' evs,
    Import (Scenario.env [] true) (Scenario.importer [] Scenario.tree) = (Ok tt, s') /\
    fTrace s' = fTrace (Scenario.importer [] Scenario.tree) ++ evs /\
    progress_reports 0 evs = [(0, 1%nat); (1, 2%nat); (2, 3%nat)] /\
    final_reports 0 evs = [(3, 3%nat)].
Proof.
  exact (progress_hook_is_told_the_index (Scenario.env [] true)
           (Scenario.importer [] Scenario.tree) (mkTFile false [] [])
           (tree_SetImplicitMT false Scenario.tree) (Scenario.prepared Scenario.tree)
           eq_refl eq_refl eq_refl eq_refl eq_refl
           ltac:(vm_compute; reflexivity) eq_refl).
Defined.

(** ** The strings of an entry *)

Lemma prepare_leaf_strings env b firstLeaf l acc s acc' s' :
  prepare_leaf env b firstLeaf l acc s = (Ok acc', s') ->
  fImportTransformations s'
  = fImportTransformations s ++
    (if isCString b firstLeaf
     then [RCStringTransformation (List.length (fImportBranches s))
                                  (List.length (fImportFields s))]
     else []).
Proof.
  intro H. unfold prepare_leaf in H.
  destruct (LeafClass_eqb (leaf_IsA l) TLeafObject); [discriminate H|].
  destruct (RFieldBase_Create env _ _) as [field|e]; [|discriminate H].
  cbv zeta in H.
  match type of H with
  | context [match ?x with (maxLength, s2) => _ end] => destruct x as [maxLength s2] eqn:Hs2
  end.
  assert (F2 : fImportTransformations s2
               = fImportTransformations s ++
                 (if isCString b firstLeaf
                  then [RCStringTransformation (List.length (fImportBranches s))
                                               (List.length (fImportFields s))]
                  else [])).
  { clear H.
    destruct (isCString b firstLeaf); destruct (leaf_LeafCount l);
      try destruct (negb _ && negb _); try destruct (StdMap.index _ _ _);
      inv Hs2; proj; try reflexivity; now rewrite app_nil_r. }
  clear Hs2.
  destruct (isLeafList b); [inv H; exact F2|].
  destruct (leaf_LeafCount l) as [countleafName|].
  - destruct (StdMap.index default_collection countleafName (fLeafCountCollections s2))
      as [c m].
    destruct (fCollectionModel c); inv H. proj. exact F2.
  - cbv beta iota delta [bind AddToModel deref modify ret] in H.
    destruct (fModel s2); [|discriminate H]. inv H. proj. exact F2.
Qed.

Lemma prepare_leaves_plain env b firstLeaf leaves :
  isCString b firstLeaf = false ->
  forall acc s acc' s',
    for_each (prepare_leaf env b firstLeaf) leaves acc s = (Ok acc', s') ->
    fImportTransformations s' = fImportTransformations s.
Proof.
  intro Hc. induction leaves as [|l leaves IH]; intros acc s acc' s' H.
  - now inv H.
  - cbn [for_each] in H. apply bind_Ok in H. destruct H as (acc1 & s1 & Hl & H).
    rewrite (IH _ _ _ _ H), (prepare_leaf_strings _ _ _ _ _ _ _ _ Hl), Hc.
    apply app_nil_r.
Qed.

Lemma keeps_transformations_prepare_count_leaf b firstLeaf :
  preserving (fun s s' => fImportTransformations s' = fImportTransformations s)
             (prepare_count_leaf b firstLeaf).
Proof.
  unfold prepare_count_leaf. intros s o s' H.
  destruct (StdMap.emplace _ _ _) as [m inserted].
  cbv beta iota delta [SetBranchAddress bind deref modify] in H.
  destruct (fSourceTree s); inv H; reflexivity.
Qed.

(** What one branch adds to the transformations of the top level. *)
Lemma prepare_branch_strings env b s s' :
  prepare_branch env b s = (Ok tt, s') ->
  fImportTransformations s'
  = fImportTransformations s ++
    (if string_branch b
     then [RCStringTransformation (List.length (fImportBranches s))
                                  (List.length (fImportFields s))]
     else []).
Proof.
  intro H. unfold string_branch.
  destruct (branch_GetListOfLeaves b) as [|firstLeaf leaves] eqn:Hl.
  { unfold prepare_branch in H. rewrite Hl in H. discriminate H. }
  destruct (isLeafList b && isClass firstLeaf) eqn:H1.
  { unfold prepare_branch in H. rewrite Hl, H1 in H. discriminate H. }
  destruct (isLeafList b && isCountLeaf firstLeaf) eqn:H2.
  { unfold prepare_branch in H. rewrite Hl, H1, H2 in H. discriminate H. }
  destruct (isCountLeaf firstLeaf) eqn:H3.
  - unfold prepare_branch in H. rewrite Hl, H1, H3, H2 in H.
    rewrite (keeps_transformations_prepare_count_leaf _ _ _ _ _ H).
    cbn [negb andb]. now rewrite app_nil_r.
  - assert (H2' : isLeafList b && isCountLeaf firstLeaf = false) by (rewrite H3; exact H2).
    rewrite (prepare_branch_steps env b firstLeaf leaves Hl H1 H2' H3) in H.
    cbn [negb andb].
    apply bind_Ok in H. destruct H as (acc & s1 & HL & H).
    assert (Ht1 : fImportTransformations s1
                  = fImportTransformations s ++
                    (if isCString b firstLeaf
                     then [RCStringTransformation (List.length (fImportBranches s))
                                                  (List.length (fImportFields s))]
                     else [])).
    { destruct (isCString b firstLeaf) eqn:Hc.
      - assert (Hone : leaves = []).
        { apply isCString_not_leaf_list in Hc. unfold isLeafList, branch_GetNleaves in Hc.
          rewrite Hl in Hc. apply Z.ltb_ge in Hc. cbn [List.length] in Hc.
          destruct leaves; [reflexivity|cbn [List.length] in Hc; lia]. }
        subst leaves. cbn [for_each] in HL.
        apply bind_Ok in HL. destruct HL as (acc1 & s0 & Hleaf & HL). inv HL.
        rewrite (prepare_leaf_strings _ _ _ _ _ _ _ _ Hleaf), Hc. reflexivity.
      - rewrite (prepare_leaves_plain _ _ _ _ Hc _ _ _ _ HL). now rewrite app_nil_r. }
    apply bind_Ok in H. destruct H as ([] & s2 & HR & H).
    assert (Ht2 : fImportTransformations s2 = fImportTransformations s1).
    { destruct (snd acc).
      - unfold ret in HR. now inv HR.
      - cbv beta iota delta [bind AddToModel deref modify] in HR. proj in HR.
        destruct (fModel s1); inv HR; reflexivity. }
    apply bind_Ok in H. destruct H as (idx & s3 & HI & H). inv HI.
    apply bind_Ok in H. destruct H as ([] & s4 & HS & H).
    assert (Ht4 : fImportTransformations s4 = fImportTransformations s3).
    { assert (HA : forall name a o,
                 SetBranchAddress name a s3 = (o, s4) ->
                 fImportTransformations s4 = fImportTransformations s3).
      { intros name a o HA. cbv beta iota delta [SetBranchAddress bind deref modify] in HA.
        destruct (fSourceTree s3); inv HA; reflexivity. }
      destruct (isClass firstLeaf); [destruct (TClass_GetClass env _)|];
        try discriminate HS; exact (HA _ _ _ HS). }
    apply bind_Ok in H. destruct H as ([] & s5 & HB & H).
    assert (Ht5 : fImportTransformations s5 = fImportTransformations s4).
    { destruct (rev (fImportFields s4)) as [|back front]; [discriminate HB|].
      destruct (Buffer_is_null (fFieldBuffer back)); inv HB; reflexivity. }
    unfold modify in H. inv H. proj.
    rewrite Ht5, Ht4, Ht2, Ht1. reflexivity.
Qed.

Lemma sources_more branches ext ts names :
  sources branches ts = map Some names ->
  sources (branches ++ ext) ts = map Some names.
Proof.
  unfold sources. revert names.
  induction ts as [|t ts IH]; intros [|name names] H; try discriminate H; [reflexivity|].
  cbn [map] in *. inversion H as [[Ht Hts]]. rewrite Ht, Hts.
  rewrite (IH names Hts). f_equal.
  rewrite map_app, nth_error_app1; [exact Ht|].
  apply nth_error_Some. rewrite Ht. discriminate.
Qed.

Lemma string_branch_no_counter b : string_branch b = true -> count_branch b = false.
Proof.
  unfold string_branch, count_branch.
  destruct (branch_GetListOfLeaves b) as [|firstLeaf leaves]; [reflexivity|].
  destruct (isCountLeaf firstLeaf); [discriminate|reflexivity].
Qed.

(** While the branches are visited the transformations of the top level
    are string transformations, one per C string, each reading the buffer
    of its branch. *)
Lemma prepare_branches_strings env branches :
  forall names s s',
    forallb is_string_transformation (fImportTransformations s) = true ->
    sources (fImportBranches s) (fImportTransformations s) = map Some names ->
    for_each (fun b (_ : unit) => prepare_branch env b) branches tt s = (Ok tt, s') ->
    forallb is_string_transformation (fImportTransformations s') = true /\
    sources (fImportBranches s') (fImportTransformations s')
    = map Some (names ++ map branch_GetName (filter string_branch branches)).
Proof.
  induction branches as [|b branches IH]; intros names s s' Hs Hn H.
  - inv H. cbn [filter map]. rewrite app_nil_r. split; assumption.
  - cbn [for_each] in H. apply bind_Ok in H. destruct H as ([] & s1 & Hb & H).
    pose proof (prepare_branch_strings _ _ _ _ Hb) as Ht.
    pose proof (prepare_branch_buffer _ _ _ _ Hb) as Hbr.
    cbn [filter]. destruct (string_branch b) eqn:Hsb.
    + rewrite (string_branch_no_counter b Hsb) in Hbr.
      cbn [map].
      replace (names ++ branch_GetName b
                 :: map branch_GetName (filter string_branch branches))
        with ((names ++ [branch_GetName b])
                ++ map branch_GetName (filter string_branch branches))
        by (now rewrite <- app_assoc).
      apply (IH _ s1); [| |exact H].
      * rewrite Ht, forallb_app, Hs. reflexivity.
      * unfold sources in *. rewrite Hbr, Ht, !map_app. f_equal.
        -- apply (sources_more (fImportBranches s) [mkImportBranch (branch_GetName b) 0]
                   (fImportTransformations s) names) in Hn.
           unfold sources in Hn. rewrite map_app in Hn. exact Hn.
        -- cbn [map fImportBranchIdx]. f_equal.
           rewrite nth_error_app2; rewrite length_map; [|lia].
           now rewrite Nat.sub_diag.
    + apply (IH _ s1); [| |exact H].
      * rewrite Ht, app_nil_r. exact Hs.
      * rewrite Ht, app_nil_r. unfold sources in *. rewrite Hbr.
        destruct (count_branch b); [now rewrite app_nil_r|].
        apply (sources_more (fImportBranches s) [mkImportBranch (branch_GetName b) 0]
                 (fImportTransformations s) names) in Hn.
        unfold sources in Hn. rewrite map_app in Hn. exact Hn.
Qed.

(** Running string transformations that are in order: one assignment
    each, and the list is as it was. *)
Lemma run_string_transformations branches fields ts :
  forallb (transformation_ok branches fields) ts = true ->
  forallb is_string_transformation ts = true ->
  exists evs,
    run_import_transformations branches fields ts = (Ok tt, ts, evs) /\
    map string_source evs = sources branches ts.
Proof.
  unfold sources. induction ts as [|t ts IH]; intros Hok Hs.
  - exists []. split; reflexivity.
  - cbn [forallb] in Hok, Hs.
    apply andb_true_iff in Hok. destruct Hok as [Ht Hok].
    apply andb_true_iff in Hs. destruct Hs as [Hst Hs].
    destruct (IH Hok Hs) as (evs & Hrun & Hev).
    destruct t as [bi fi|bi fi num]; [|discriminate Hst].
    unfold transformation_ok in Ht. cbn [fImportBranchIdx fImportFieldIdx] in Ht.
    destruct (nth_error branches bi) as [branch|] eqn:Hb; [|discriminate Ht].
    destruct (nth_error fields fi) as [field|] eqn:Hf; [|discriminate Ht].
    apply negb_true_iff in Ht.
    exists (EvStringAssign (fFieldBuffer field) branch :: evs). split.
    + cbn [run_import_transformations fImportBranchIdx fImportFieldIdx].
      rewrite Hb, Hf. unfold Transform. rewrite Ht, Hrun. reflexivity.
    + cbn [map string_source fImportBranchIdx]. rewrite Hev. f_equal.
      symmetry. rewrite nth_error_map, Hb. reflexivity.
Qed.

(** X22: the strings of an entry.  After a successful preparation of a
    tree that had no address registered and whose count leaves have
    distinct names, the transformations of the top level, which the loop
    of [Import] runs once per entry, are all in order: running them
    assigns one string per C-string branch of the tree, in the order of
    the tree, each read from the buffer of its own branch, does nothing
    else, and leaves the list of transformations as it was. *)
Theorem each_C_string_is_assigned_once env s t s1 :
  fSourceTree s = Some t ->
  untouched t = true ->
  count_leaves_distinct t = true ->
  PrepareSchema env s = (Ok tt, s1) ->
  exists evs,
    run_import_transformations (fImportBranches s1) (fImportFields s1)
                               (fImportTransformations s1)
    = (Ok tt, fImportTransformations s1, evs) /\
    map string_source evs
    = map (fun b => Some (branch_GetName b))
          (filter string_branch (tree_GetListOfBranches t)).
Proof.
  intros Ht Hu Hnames HP.
  pose proof (PrepareSchema_ready env s t s1 Ht Hu Hnames HP) as Hready.
  destruct (PrepareSchema_Ok_branches env s t s1 Ht HP) as (s2 & HL & _ & Hb & _ & Hts).
  destruct (prepare_branches_strings env _ [] (snd (ResetSchema s)) s2
              eq_refl eq_refl HL) as (Hs & Hn).
  unfold ready in Hready. rewrite !andb_true_iff in Hready.
  destruct Hready as ((((_ & _) & Hok) & _) & _).
  rewrite <- Hts in Hs. rewrite <- Hb, <- Hts in Hn.
  destruct (run_string_transformations _ _ _ Hok Hs) as (evs & Hrun & Hev).
  exists evs. split; [exact Hrun|].
  rewrite Hev, Hn. cbn [app]. now rewrite map_map.
Qed.

Lemma each_C_string_is_assigned_once_witness :
  exists evs,
    run_import_transformations (fImportBranches (Scenario.prepared Scenario.tree))
                               (fImportFields (Scenario.prepared Scenario.tree))
                               (fImportTransformations (Scenario.prepared Scenario.tree))
    = (Ok tt, fImportTransformations (Scenario.prepared Scenario.tree), evs) /\
    map string_source evs = [Some "s"].
Proof.
  exact (each_C_string_is_assigned_once (Scenario.env [] true)
           (Scenario.importer [] Scenario.tree) (tree_SetImplicitMT false Scenario.tree)
           (Scenario.prepared Scenario.tree)
           eq_refl eq_refl eq_refl ltac:(vm_compute; reflexivity)).
Defined.

(** * The conversion of an entry *)

(** ** Sub-collections and the outer record *)













(** ** The buffers of the leaf-counted arrays *)


















(** Without the bound on the count nothing stops the copy: when entry 2
    counts three elements while the buffer of [a] was sized for two, the
    third copy reads bytes 8 to 12 of a buffer of 8 bytes. *)
Lemma count_above_maximum_overruns :
  counts_within_maximum
    (fLeafCountCollections (snd (GetEntry 2 (Scenario.prepared Scenario.tree_overrun)))) = false /\
  fst (import_entry (Scenario.env [] true) 2 (Scenario.prepared Scenario.tree_overrun)) = Ok tt /\
  In (EvMemcpy (OwnedValue 0) (mkImportBranch "a" 8) 8 4)
     (fTrace (snd (import_entry (Scenario.env [] true) 2
                     (Scenario.prepared Scenario.tree_overrun)))) /\
  ~ in_bounds (EvMemcpy (OwnedValue 0) (mkImportBranch "a" 8) 8 4).
Proof.
  split; [vm_compute; reflexivity|]. split; [vm_compute; reflexivity|].
  split; [vm_compute; tauto|].
  cbn. lia.
Qed.

